(** * diottrio: binocular refractive-blur page

    A shallow embedding of [diottrio.js].  The script keeps a handful of
    module-level variables ([leftDiopters], [rightDiopters],
    [isDominantLeft], [mediaStream], [animationFrameId]), computes a blur
    radius from them and repaints a canvas from a per-frame callback.

    - Numbers.  JavaScript numbers are doubles.  The page carries them as
      real numbers, as the data model of the specification has them, with
      [Math.pow] the real power function: that is the formula the script
      evaluates, before rounding.  The script applies it behind the
      [diopters === 0] test and the sliders write non-negative magnitudes,
      so statements about the blur carry [0 <= d].  The two blur functions
      are also given on doubles, in [Binary64], where [Math.pow] is a
      parameter, ECMA-262 leaving its value to the engine; [Exponentiate]
      has that value rounded to nearest.  Whether two blur values are
      equal or in order is decided by rounding, and is stated on the
      doubles.
    - State.  The module-level variables, the elements the script looks
      up (assumed present, so that no call throws) and the browser's list
      of animation frame callbacks make up a [Page]; every function of the
      script is a function on pages.
    - Time.  The browser is single threaded: what happens to the page is a
      sequence of events (slider input, clicks, the answer of
      [getUserMedia], video events, animation frames, unloading), each
      handled to completion by [step].  An [async] function is cut at its
      [await].
    - [alternative_camera_init.js] holds two functions that nothing calls;
      they are not part of the page. *)

From Stdlib Require Import Reals Lra Lia ZArith Bool List String Ascii.
From Stdlib Require PrimFloat Uint63 Floats.
From Bignums Require BigZ.
Import ListNotations.

Open Scope R_scope.

(** ** Configuration constants (diottrio.js, lines 4-7) *)

Definition FALLBACK_VIDEO_URL : string := "./14903546_3840_2160_25fps.mp4"%string.
Definition DOMINANT_WEIGHT : R := 0.65.
Definition BLUR_BASE : R := 1.4.
Definition BLUR_EXPONENT : R := 1.1.

(** ** Platform functions *)

(** [Math.pow(x, y)] on a positive base. *)
Definition Math_pow (x y : R) : R := Rpower x y.

(** ** Monocular blur (diottrio.js, lines 26-28) *)

(** [calculateBlur(diopters)]:
    [diopters === 0 ? 0 : BLUR_BASE * Math.pow(diopters, BLUR_EXPONENT)]. *)
Definition calculateBlur (diopters : R) : R :=
  if Req_dec_T diopters 0 then 0
  else BLUR_BASE * Math_pow diopters BLUR_EXPONENT.

(** ** Reference definitions, in the words of the specification (section 4.1) *)

Module Reference.

Definition base : R := 1.4.
Definition exponent : R := 1.1.

(** [computeMonocularBlur]: [0] when [diopters == 0], else
    [base * diopters^exponent]. *)
Definition computeMonocularBlur (diopters : R) : R :=
  if Req_dec_T diopters 0 then 0 else base * Rpower diopters exponent.

(** [computeBinocularBlur]: [weighted = dominant*0.65 + nonDominant*0.35],
    then the monocular blur of [weighted]. *)
Definition computeBinocularBlur (left right : R) (isDominantLeft : bool) : R :=
  let dominant := if isDominantLeft then left else right in
  let nonDominant := if isDominantLeft then right else left in
  let weighted := dominant * 0.65 + nonDominant * 0.35 in
  computeMonocularBlur weighted.

End Reference.

(** ** The weighting in double precision

    The script's numbers are IEEE 754 doubles.  The weighting of lines
    31-33 uses only [*], [+] and [-], which binary64 arithmetic gives
    exactly as the script evaluates them; this module has that expression,
    to see where rounding shows. *)

Module Binary64.

Import PrimFloat.

#[warnings="-inexact-float"]
Definition DOMINANT_WEIGHT : float := 0.65%float.

Definition weightedDiopters (dominantDiopters nonDominantDiopters : float) : float :=
  (dominantDiopters * DOMINANT_WEIGHT
   + nonDominantDiopters * (1 - DOMINANT_WEIGHT))%float.

(** The double [k / 4]. *)
Definition quarters (k : Z) : float :=
  (of_uint63 (Uint63.of_Z k) / 4)%float.

(** 0, 1, ..., 40: the quarter diopters from 0 to 10. *)
Definition quarterSteps : list Z := map Z.of_nat (seq 0 41).

(** ** The blur functions in double precision (diottrio.js, lines 26-35)

    [Math.pow] belongs to the engine: ECMA-262 asks it for an
    implementation-approximated value, so the two functions take it as a
    parameter.  [===] on numbers is IEEE equality, which is [eqb]: [-0]
    equals [0] and [NaN] equals nothing. *)

#[warnings="-inexact-float"]
Definition BLUR_BASE : float := 1.4%float.

#[warnings="-inexact-float"]
Definition BLUR_EXPONENT : float := 1.1%float.

Section Engine.

Variable Math_pow : float -> float -> float.

(** [calculateBlur(diopters)], lines 26-28. *)
Definition calculateBlur (diopters : float) : float :=
  if (diopters =? 0)%float then 0%float
  else (BLUR_BASE * Math_pow diopters BLUR_EXPONENT)%float.

(** [calculateBinocularBlur()], lines 30-35, with the three variables it
    reads as arguments. *)
Definition calculateBinocularBlur (leftDiopters rightDiopters : float)
    (isDominantLeft : bool) : float :=
  let dominantDiopters := if isDominantLeft then leftDiopters else rightDiopters in
  let nonDominantDiopters := if isDominantLeft then rightDiopters else leftDiopters in
  calculateBlur (weightedDiopters dominantDiopters nonDominantDiopters).

End Engine.

(** The double nearest to [k / 100]: what [parseFloat] makes of a slider
    value written with two decimals. *)
Definition hundredths (k : Z) : float :=
  (of_uint63 (Uint63.of_Z k) / 100)%float.

(** 0, 1, ..., 1000: the two-decimal diopters from 0.00 to 10.00. *)
Definition hundredthSteps : list Z := map Z.of_nat (seq 0 1001).

End Binary64.

(** ** [Math.pow] rounded to nearest

    ECMA-262 ([Number::exponentiate]) fixes the result of [Math.pow] on
    the special values and asks for an implementation-approximated value
    otherwise.  This module has the special cases as the standard lists
    them and, for the approximated value, the double nearest to the power:
    [exp (exponent * ln base)] is computed on integers with [bits] binary
    places, far more than the 53 of a double, and rounded to nearest even
    by [binary_normalize].  The truncation error of the series is below
    [2^-150] of the value as long as the exponent is of moderate size (the
    script's is 1.1); a power that is exactly representable or exactly
    half-way between two doubles is outside what the series can decide,
    and [x^1.1] is never one of those for the diopters looked at here. *)

Module Exponentiate.

Import BigZ SpecFloat FloatOps.

Local Open Scope Z_scope.

(** Binary places of the fixed-point numbers; [scale] is their 1. *)
Definition bits : Z := 160.
Definition bbits : bigZ := BigZ.of_Z bits.
Definition scale : bigZ := BigZ.shiftl 1%bigZ bbits.

(** [acc + zpow/k + zpow*z2/(k+2) + ...], [fuel] terms. *)
Fixpoint atanhSeries (fuel : nat) (k zpow z2 acc : bigZ) : bigZ :=
  match fuel with
  | O => acc
  | S fuel' =>
      atanhSeries fuel' (k + 2)%bigZ (BigZ.shiftr (zpow * z2) bbits)%bigZ z2
        (acc + zpow / k)%bigZ
  end.

(** [2 * atanh (num / den)] for [0 <= num / den <= 1/3]: terms fall by a
    factor 9, so 52 of them reach [3^-105 < 2^-160]. *)
Definition twoAtanh (num den : bigZ) : bigZ :=
  let z := (num * scale / den)%bigZ in
  (2 * atanhSeries 52 1 z (BigZ.shiftr (z * z) bbits) 0)%bigZ.

(** [ln 2 = 2 * atanh (1/3)]. *)
Definition ln2 : bigZ := twoAtanh 1 3.

(** [ln (m * 2^e)]: with [d] the position of the leading bit of [m],
    [m = t * 2^d] for some [1 <= t < 2] and
    [ln t = 2 * atanh ((t - 1) / (t + 1))]. *)
Definition lnFixed (m : positive) (e : Z) : bigZ :=
  let d := Z.log2 (Zpos m) in
  let h := BigZ.of_Z (2 ^ d) in
  let bm := BigZ.of_Z (Zpos m) in
  (twoAtanh (bm - h) (bm + h) + BigZ.of_Z (e + d) * ln2)%bigZ.

(** [acc + term + term*r/n + term*r^2/(n*(n+1)) + ...], [fuel] terms. *)
Fixpoint expSeries (fuel : nat) (n term r acc : bigZ) : bigZ :=
  match fuel with
  | O => acc
  | S fuel' =>
      expSeries fuel' (n + 1)%bigZ (BigZ.shiftr (term * r) bbits / n)%bigZ r
        (acc + term)%bigZ
  end.

(** [exp w] as a mantissa and a binary exponent: [w = k * ln 2 + r] with
    [|r| <= ln 2 / 2], and [exp r] by its series (40 terms reach
    [0.35^40 / 40! < 2^-160]). *)
Definition expFixed (w : bigZ) : Z * Z :=
  let k := ((2 * w + ln2) / (2 * ln2))%bigZ in
  let r := (w - k * ln2)%bigZ in
  (BigZ.to_Z (expSeries 40 1 scale r 0), BigZ.to_Z k - bits).

(** Is [m * 2^e] an integer, an odd integer? *)
Definition isInteger (m : positive) (e : Z) : bool :=
  (0 <=? e) || ((- e <=? 1100) && (Zpos m mod 2 ^ (- e) =? 0)).

Definition isOddInteger (m : positive) (e : Z) : bool :=
  if 0 <=? e then (e =? 0) && Z.odd (Zpos m)
  else (- e <=? 1100) && (Zpos m mod 2 ^ (- e) =? 0)
       && Z.odd (Zpos m / 2 ^ (- e)).

(** The double nearest to [(mx * 2^ex) ^ (+-my * 2^ey)].  When
    [exponent * ln base] is beyond 1100 in size the power is far outside
    the doubles and the result, infinite or 0, is given without the
    series. *)
Definition powFinite (mx : positive) (ex : Z) (sy : bool) (my : positive)
    (ey : Z) : spec_float :=
  let l := lnFixed mx ex in
  let w0 := BigZ.shiftl (BigZ.of_Z (Zpos my) * l)%bigZ (BigZ.of_Z ey) in
  let w := if sy then (- w0)%bigZ else w0 in
  if (1100 * scale <? w)%bigZ then S754_infinity false
  else if (w <? - (1100 * scale))%bigZ then S754_zero false
  else let (m, e) := expFixed w in binary_normalize prec emax m e false.

(** [Number::exponentiate (base, exponent)], steps 1 to 13 of ECMA-262. *)
Definition SFpow (base exponent : spec_float) : spec_float :=
  match exponent with
  | S754_nan => S754_nan
  | S754_zero _ => SFone prec emax
  | S754_infinity sy =>
      match base with
      | S754_nan => S754_nan
      | S754_infinity _ => if sy then S754_zero false else S754_infinity false
      | S754_zero _ => if sy then S754_infinity false else S754_zero false
      | S754_finite _ mx ex =>
          match SFcompare (S754_finite false mx ex) (SFone prec emax) with
          | Some Gt => if sy then S754_zero false else S754_infinity false
          | Some Lt => if sy then S754_infinity false else S754_zero false
          | _ => S754_nan
          end
      end
  | S754_finite sy my ey =>
      let odd := isOddInteger my ey in
      match base with
      | S754_nan => S754_nan
      | S754_infinity false =>
          if sy then S754_zero false else S754_infinity false
      | S754_infinity true =>
          if sy then S754_zero odd else S754_infinity odd
      | S754_zero false =>
          if sy then S754_infinity false else S754_zero false
      | S754_zero true =>
          if sy then S754_infinity odd else S754_zero odd
      | S754_finite false mx ex => powFinite mx ex sy my ey
      | S754_finite true mx ex =>
          if isInteger my ey
          then (if odd then SFopp (powFinite mx ex sy my ey)
                else powFinite mx ex sy my ey)
          else S754_nan
      end
  end.

(** [Math.pow(base, exponent)]. *)
Definition Math_pow (base exponent : PrimFloat.float) : PrimFloat.float :=
  SF2Prim (SFpow (Prim2SF base) (Prim2SF exponent)).

End Exponentiate.

(** ** Number formatting: [Number.prototype.toFixed] *)

Open Scope string_scope.

Definition digitChar (d : Z) : ascii := ascii_of_nat (48 + Z.to_nat d).

(** The digits of the decimal representation of [n], most significant
    first, with no leading zeroes; ["0"] for zero. *)
Fixpoint digitsAux (fuel : nat) (n : Z) : string :=
  match fuel with
  | O => ""
  | S fuel' =>
      if (n <? 10)%Z then String (digitChar n) ""
      else digitsAux fuel' (n / 10) ++ String (digitChar (n mod 10)) ""
  end.

Definition decimalDigits (n : Z) : string :=
  digitsAux (S (Z.to_nat (Z.log2 n))) n.

Fixpoint zeroes (k : nat) : string :=
  match k with
  | O => ""
  | S k' => String "0" (zeroes k')
  end.

(** The integer [n] for which [n / 10^f - x] is as close to zero as
    possible, the larger one when there are two. *)
Definition nearestScaled (x : R) (f : nat) : Z :=
  Int_part (x * 10 ^ f + / 2).

Section Script.

(** [Number::toString], which [toFixed] falls back to from [10^21] on. *)
Variable Number_toString : R -> string.

(** [x.toFixed(f)] for a finite [x], following the steps of ECMA-262. *)
Definition toFixed (x : R) (f : nat) : string :=
  let s := if Rlt_dec x 0 then "-" else "" in
  let x := if Rlt_dec x 0 then - x else x in
  let m :=
    if Rle_dec (10 ^ 21) x then Number_toString x
    else
      let n := nearestScaled x f in
      let m := if (n =? 0)%Z then "0" else decimalDigits n in
      match f with
      | O => m
      | S _ =>
          let k := String.length m in
          let m := if (k <=? f)%nat then zeroes (f + 1 - k) ++ m else m in
          let k := if (k <=? f)%nat then (f + 1)%nat else k in
          let a := substring 0 (k - f) m in
          let b := substring (k - f) f m in
          a ++ "." ++ b
      end in
  s ++ m.

(** ** Page state *)

(** The script's module-level variables (lines 20-24).  [mediaStream] is
    [null] or the camera stream, whose tracks are live ([true]) or
    stopped; [animationFrameId] is [null] or a callback handle. *)
Record Vars : Type := mkVars {
  mediaStream : option (list bool);
  leftDiopters : R;
  rightDiopters : R;
  isDominantLeft : bool;
  animationFrameId : option N
}.

Inductive VideoId : Type := Video1 | Video2.
Inductive PanelId : Type := PanelClear | PanelCombined.
Inductive DisplayId : Type := DiopterLeftDisplay | DiopterRightDisplay.

(** A [<video>] element: [srcObject] is [null] or the one camera stream
    held in [mediaStream]; [playing] is false once [pause()] was called. *)
Record Video : Type := mkVideo {
  autoplay : bool;
  playsInline : bool;
  muted : bool;
  loop : bool;
  srcObject : bool;
  src : string;
  playing : bool;
  hiddenStyle : bool
}.

Record Canvas : Type := mkCanvas {
  canvasId : nat;
  width : nat;
  height : nat;
  displayBlock : bool
}.

Inductive Node : Type :=
| LoadingState (text : string)
| VideoNode (v : VideoId)
| CanvasNode (c : Canvas)
| SourceIndicator (className textContent : string).

(** The elements the script looks up (lines 10-18) and the videos it
    creates. *)
Record Dom : Type := mkDom {
  panelClear : list Node;
  panelCombined : list Node;
  diopterLeftDisplay : string;
  diopterRightDisplay : string;
  dominantLeftActive : bool;
  dominantRightActive : bool;
  sourceStatus : string;
  video1 : option Video;
  video2 : option Video
}.

(** What the environment reports about a video when the script looks. *)
Record VideoStatus : Type := mkVideoStatus {
  readyState : nat;
  videoWidth : nat;
  videoHeight : nat
}.

Definition HAVE_CURRENT_DATA : nat := 2.

Inductive Callback : Type :=
| CbRender (video : VideoId) (canvas : Canvas)
| CbSetupCanvas.

(** One [drawImage] through a [blur(..px)] filter. *)
Record Draw : Type := mkDraw {
  drawVideo : VideoId;
  drawCanvas : Canvas;
  drawBlurPx : R
}.

(** The browser's side: the list of animation frame callbacks with the
    identifier counter, what was painted, how often [getUserMedia] was
    called, whether canvases offer a 2d context. *)
Record Browser : Type := mkBrowser {
  frameCallbacks : list (N * Callback);
  frameCallbackId : N;
  canvasCount : nat;
  getUserMediaCalls : nat;
  painted : list Draw;
  context2d : bool
}.

(** Which handlers the script has attached to its videos. *)
Inductive Wiring : Type := NoVideo | CameraWiring | FallbackWiring.

Record Page : Type := mkPage {
  vars : Vars;
  dom : Dom;
  browser : Browser;
  canvasSetupDone : bool;
  awaitingCamera : bool;
  listening : bool;
  wiring : Wiring
}.

Definition withVars (f : Vars -> Vars) (s : Page) : Page :=
  mkPage (f (vars s)) (dom s) (browser s) (canvasSetupDone s)
         (awaitingCamera s) (listening s) (wiring s).
Definition withDom (f : Dom -> Dom) (s : Page) : Page :=
  mkPage (vars s) (f (dom s)) (browser s) (canvasSetupDone s)
         (awaitingCamera s) (listening s) (wiring s).
Definition withBrowser (f : Browser -> Browser) (s : Page) : Page :=
  mkPage (vars s) (dom s) (f (browser s)) (canvasSetupDone s)
         (awaitingCamera s) (listening s) (wiring s).
Definition setCanvasSetupDone (b : bool) (s : Page) : Page :=
  mkPage (vars s) (dom s) (browser s) b
         (awaitingCamera s) (listening s) (wiring s).
Definition setAwaitingCamera (b : bool) (s : Page) : Page :=
  mkPage (vars s) (dom s) (browser s) (canvasSetupDone s)
         b (listening s) (wiring s).
Definition setListening (b : bool) (s : Page) : Page :=
  mkPage (vars s) (dom s) (browser s) (canvasSetupDone s)
         (awaitingCamera s) b (wiring s).
Definition setWiring (w : Wiring) (s : Page) : Page :=
  mkPage (vars s) (dom s) (browser s) (canvasSetupDone s)
         (awaitingCamera s) (listening s) w.

Definition setMediaStream (m : option (list bool)) (g : Vars) : Vars :=
  mkVars m (leftDiopters g) (rightDiopters g) (isDominantLeft g)
         (animationFrameId g).
Definition setLeftDiopters (d : R) (g : Vars) : Vars :=
  mkVars (mediaStream g) d (rightDiopters g) (isDominantLeft g)
         (animationFrameId g).
Definition setRightDiopters (d : R) (g : Vars) : Vars :=
  mkVars (mediaStream g) (leftDiopters g) d (isDominantLeft g)
         (animationFrameId g).
Definition setIsDominantLeft (b : bool) (g : Vars) : Vars :=
  mkVars (mediaStream g) (leftDiopters g) (rightDiopters g) b
         (animationFrameId g).
Definition setAnimationFrameId (h : option N) (g : Vars) : Vars :=
  mkVars (mediaStream g) (leftDiopters g) (rightDiopters g)
         (isDominantLeft g) h.

Definition setPanel (p : PanelId) (l : list Node) (d : Dom) : Dom :=
  match p with
  | PanelClear =>
      mkDom l (panelCombined d) (diopterLeftDisplay d)
            (diopterRightDisplay d) (dominantLeftActive d)
            (dominantRightActive d) (sourceStatus d) (video1 d) (video2 d)
  | PanelCombined =>
      mkDom (panelClear d) l (diopterLeftDisplay d)
            (diopterRightDisplay d) (dominantLeftActive d)
            (dominantRightActive d) (sourceStatus d) (video1 d) (video2 d)
  end.
Definition getPanel (p : PanelId) (d : Dom) : list Node :=
  match p with PanelClear => panelClear d | PanelCombined => panelCombined d end.
Definition setDisplayText (i : DisplayId) (t : string) (d : Dom) : Dom :=
  match i with
  | DiopterLeftDisplay =>
      mkDom (panelClear d) (panelCombined d) t (diopterRightDisplay d)
            (dominantLeftActive d) (dominantRightActive d) (sourceStatus d)
            (video1 d) (video2 d)
  | DiopterRightDisplay =>
      mkDom (panelClear d) (panelCombined d) (diopterLeftDisplay d) t
            (dominantLeftActive d) (dominantRightActive d) (sourceStatus d)
            (video1 d) (video2 d)
  end.
Definition getDisplayText (i : DisplayId) (d : Dom) : string :=
  match i with
  | DiopterLeftDisplay => diopterLeftDisplay d
  | DiopterRightDisplay => diopterRightDisplay d
  end.
Definition setDominantActive (l r : bool) (d : Dom) : Dom :=
  mkDom (panelClear d) (panelCombined d) (diopterLeftDisplay d)
        (diopterRightDisplay d) l r (sourceStatus d) (video1 d) (video2 d).
Definition setSourceStatus (t : string) (d : Dom) : Dom :=
  mkDom (panelClear d) (panelCombined d) (diopterLeftDisplay d)
        (diopterRightDisplay d) (dominantLeftActive d)
        (dominantRightActive d) t (video1 d) (video2 d).
Definition setVideo (i : VideoId) (v : option Video) (d : Dom) : Dom :=
  match i with
  | Video1 =>
      mkDom (panelClear d) (panelCombined d) (diopterLeftDisplay d)
            (diopterRightDisplay d) (dominantLeftActive d)
            (dominantRightActive d) (sourceStatus d) v (video2 d)
  | Video2 =>
      mkDom (panelClear d) (panelCombined d) (diopterLeftDisplay d)
            (diopterRightDisplay d) (dominantLeftActive d)
            (dominantRightActive d) (sourceStatus d) (video1 d) v
  end.
Definition getVideo (i : VideoId) (d : Dom) : option Video :=
  match i with Video1 => video1 d | Video2 => video2 d end.

Definition setFrameCallbacks (l : list (N * Callback)) (id : N)
    (b : Browser) : Browser :=
  mkBrowser l id (canvasCount b) (getUserMediaCalls b) (painted b)
            (context2d b).
Definition setCanvasCount (n : nat) (b : Browser) : Browser :=
  mkBrowser (frameCallbacks b) (frameCallbackId b) n (getUserMediaCalls b)
            (painted b) (context2d b).
Definition setGetUserMediaCalls (n : nat) (b : Browser) : Browser :=
  mkBrowser (frameCallbacks b) (frameCallbackId b) (canvasCount b) n
            (painted b) (context2d b).
Definition setPainted (l : list Draw) (b : Browser) : Browser :=
  mkBrowser (frameCallbacks b) (frameCallbackId b) (canvasCount b)
            (getUserMediaCalls b) l (context2d b).

(** ** Browser services *)

(** [requestAnimationFrame(cb)]: the identifier counter is incremented and
    the callback is appended under the new handle. *)
Definition requestAnimationFrame (cb : Callback) (s : Page) : N * Page :=
  let h := N.succ (frameCallbackId (browser s)) in
  (h, withBrowser
        (setFrameCallbacks (frameCallbacks (browser s) ++ [(h, cb)])%list h) s).

(** [cancelAnimationFrame(h)]: the entry of handle [h] is removed. *)
Definition cancelAnimationFrame (h : N) (s : Page) : Page :=
  withBrowser
    (fun b =>
       setFrameCallbacks
         (filter (fun e => negb (fst e =? h)%N) (frameCallbacks b))
         (frameCallbackId b) b) s.

Fixpoint lookupCallback (h : N) (l : list (N * Callback)) : option Callback :=
  match l with
  | [] => None
  | (h', cb) :: l' => if (h' =? h)%N then Some cb else lookupCallback h l'
  end.

(** [document.createElement('canvas')] with the size the script gives it. *)
Definition createCanvas (w h : nat) (block : bool) (s : Page) : Canvas * Page :=
  let n := canvasCount (browser s) in
  (mkCanvas n w h block, withBrowser (setCanvasCount (S n)) s).

(** ** Blur of the two eyes (lines 30-35) *)

Definition calculateBinocularBlur (s : Page) : R :=
  let dominantDiopters :=
    if isDominantLeft (vars s) then leftDiopters (vars s)
    else rightDiopters (vars s) in
  let nonDominantDiopters :=
    if isDominantLeft (vars s) then rightDiopters (vars s)
    else leftDiopters (vars s) in
  let weightedDiopters :=
    dominantDiopters * DOMINANT_WEIGHT
    + nonDominantDiopters * (1 - DOMINANT_WEIGHT) in
  calculateBlur weightedDiopters.

(** The local [weightedDiopters] of [calculateBinocularBlur]. *)
Definition weightedDiopters (s : Page) : R :=
  (if isDominantLeft (vars s) then leftDiopters (vars s)
   else rightDiopters (vars s)) * DOMINANT_WEIGHT
  + (if isDominantLeft (vars s) then rightDiopters (vars s)
     else leftDiopters (vars s)) * (1 - DOMINANT_WEIGHT).

(** ** Display and elements (lines 41-71) *)

(** The text of line 42:
    [diopters > 0 ? `-${diopters.toFixed(2)}` : '0.00']. *)
Definition eyeDisplayText (diopters : R) : string :=
  if Rgt_dec diopters 0 then "-" ++ toFixed diopters 2 else "0.00".

Definition updateEyeDisplay (display : DisplayId) (diopters : R)
    (s : Page) : Page :=
  withDom (setDisplayText display (eyeDisplayText diopters)) s.

(** What [createVideoElement] is given as [src]: the camera stream or the
    address of a file. *)
Inductive MediaSrc : Type := StreamSrc | UrlSrc (url : string).

(** [createVideoElement(src, isStream)]: the four flags are set, the
    source goes to [srcObject] or to [src], and [play()] is called.  The
    script passes [isStream = true] with the stream and [false] with an
    address. *)
Definition createVideoElement (source : MediaSrc) (isStream : bool) : Video :=
  let video := mkVideo true true true true false "" true false in
  match isStream, source with
  | true, StreamSrc =>
      mkVideo (autoplay video) (playsInline video) (muted video)
              (loop video) true (src video) (playing video)
              (hiddenStyle video)
  | false, UrlSrc url =>
      mkVideo (autoplay video) (playsInline video) (muted video)
              (loop video) (srcObject video) url (playing video)
              (hiddenStyle video)
  | _, _ => video
  end.

Definition makeHiddenVideo (v : Video) : Video :=
  mkVideo (autoplay v) (playsInline v) (muted v) (loop v) (srcObject v)
          (src v) (playing v) true.

(** [applySimpleBlur(video, canvas, blurAmount)]: nothing without a 2d
    context, else one draw through the blur filter. *)
Definition applySimpleBlur (video : VideoId) (canvas : Canvas)
    (blurAmount : R) (s : Page) : Page :=
  if negb (context2d (browser s)) then s
  else withBrowser
         (fun b => setPainted (painted b ++ [mkDraw video canvas blurAmount])%list b)
         s.

(** ** [setupPanel] (lines 73-103) *)

Definition isLoadingState (n : Node) : bool :=
  match n with LoadingState _ => true | _ => false end.
Definition isCanvasNode (n : Node) : bool :=
  match n with CanvasNode _ => true | _ => false end.
Definition isVideoNode (n : Node) : bool :=
  match n with VideoNode _ => true | _ => false end.
Definition isSourceIndicator (n : Node) : bool :=
  match n with SourceIndicator _ _ => true | _ => false end.

Fixpoint removeFirst (p : Node -> bool) (l : list Node) : list Node :=
  match l with
  | [] => []
  | n :: l' => if p n then l' else n :: removeFirst p l'
  end.

Definition videoIdEqb (a b : VideoId) : bool :=
  match a, b with
  | Video1, Video1 | Video2, Video2 => true
  | _, _ => false
  end.

(** Whether two nodes are the same element (videos and canvases only). *)
Definition sameElement (a b : Node) : bool :=
  match a, b with
  | VideoNode x, VideoNode y => videoIdEqb x y
  | CanvasNode x, CanvasNode y => (canvasId x =? canvasId y)%nat
  | _, _ => false
  end.

(** [pause(); srcObject = null; src = ''] on a video about to be removed. *)
Definition releaseVideo (v : Video) : Video :=
  mkVideo (autoplay v) (playsInline v) (muted v) (loop v) false "" false
          (hiddenStyle v).

Fixpoint setFirstIndicator (cls txt : string) (l : list Node) : list Node :=
  match l with
  | [] => []
  | SourceIndicator _ _ :: l' => SourceIndicator cls txt :: l'
  | n :: l' => n :: setFirstIndicator cls txt l'
  end.

Definition setupPanel (panel : PanelId) (content : Node)
    (isCamera keepHiddenVideo : bool) (s : Page) : Page :=
  let children := getPanel panel (dom s) in
  let children := removeFirst isLoadingState children in
  let children := removeFirst isCanvasNode children in
  let existingVideo :=
    if keepHiddenVideo then None else find isVideoNode children in
  let children :=
    match existingVideo with
    | Some _ => removeFirst isVideoNode children
    | None => children
    end in
  let s :=
    match existingVideo with
    | Some (VideoNode i) =>
        withDom (fun d => setVideo i (option_map releaseVideo (getVideo i d)) d) s
    | _ => s
    end in
  let children :=
    content :: filter (fun n => negb (sameElement content n)) children in
  let children :=
    if existsb isSourceIndicator children then children
    else (children ++ [SourceIndicator "source-indicator" ""])%list in
  let children :=
    setFirstIndicator
      (if isCamera then "source-indicator camera" else "source-indicator fallback")
      (if isCamera then "● Live" else "● Video") children in
  withDom (setPanel panel children) s.

Definition handleVideoError (panel : PanelId) (s : Page) : Page :=
  withDom (setPanel panel [LoadingState "Video failed to load"]) s.

(** ** Render loop (lines 105-114) *)

(** One run of the closure [render] of [startBlurRender(video, canvas)],
    with [st] what the video reports at that moment. *)
Definition render (video : VideoId) (canvas : Canvas) (st : VideoStatus)
    (s : Page) : Page :=
  let s :=
    if (HAVE_CURRENT_DATA <=? readyState st)%nat then
      let blurPx := calculateBinocularBlur s in
      applySimpleBlur video canvas blurPx s
    else s in
  let (h, s) := requestAnimationFrame (CbRender video canvas) s in
  withVars (setAnimationFrameId (Some h)) s.

Definition startBlurRender (video : VideoId) (canvas : Canvas)
    (st : VideoStatus) (s : Page) : Page :=
  render video canvas st s.

(** ** Camera and fallback video (lines 116-179) *)

(** The closure [setupCanvas] of [initCamera], over its [video1] and its
    flag [canvasSetupDone]. *)
Definition setupCanvas (st : VideoStatus) (s : Page) : Page :=
  if canvasSetupDone s then s
  else if ((0 <? videoWidth st)%nat && (0 <? videoHeight st)%nat)%bool then
    let s := setCanvasSetupDone true s in
    let (canvas, s) := createCanvas (videoWidth st) (videoHeight st) true s in
    let s := setupPanel PanelCombined (CanvasNode canvas) true false s in
    startBlurRender Video1 canvas st s
  else snd (requestAnimationFrame CbSetupCanvas s).

Definition useFallbackVideo (s : Page) : Page :=
  let video1 := createVideoElement (UrlSrc FALLBACK_VIDEO_URL) false in
  let video2 := createVideoElement (UrlSrc FALLBACK_VIDEO_URL) false in
  let s := withDom (setVideo Video1 (Some video1)) s in
  let video2 := makeHiddenVideo video2 in
  let s := withDom (setVideo Video2 (Some video2)) s in
  let s :=
    withDom
      (fun d => setPanel PanelCombined
                  (panelCombined d ++ [VideoNode Video2])%list d) s in
  let s := setWiring FallbackWiring s in
  withDom (setSourceStatus "Source: Sample Video") s.

(** [video2.onloadeddata] of [useFallbackVideo] (lines 169-175). *)
Definition fallbackVideo2Loaded (st : VideoStatus) (s : Page) : Page :=
  let (canvas, s) := createCanvas (videoWidth st) (videoHeight st) false s in
  let s := setupPanel PanelCombined (CanvasNode canvas) false true s in
  startBlurRender Video2 canvas st s.

(** [initCamera] up to its [await]: the one call of [getUserMedia]. *)
Definition initCamera (s : Page) : Page :=
  setAwaitingCamera true
    (withBrowser (fun b => setGetUserMediaCalls (S (getUserMediaCalls b)) b) s).

(** [initCamera] after the promise is fulfilled with [stream]. *)
Definition initCameraFulfilled (stream : list bool) (s : Page) : Page :=
  let s := withVars (setMediaStream (Some stream)) s in
  let video1 := createVideoElement StreamSrc true in
  let s := withDom (setVideo Video1 (Some video1)) s in
  let s := setupPanel PanelClear (VideoNode Video1) true false s in
  let s := setCanvasSetupDone false s in
  let s := setWiring CameraWiring s in
  withDom (setSourceStatus "Source: Device Camera") s.

(** The [catch] branch of [initCamera]. *)
Definition initCameraRejected (s : Page) : Page := useFallbackVideo s.

(** ** Controls and start-up (lines 181-223) *)

Definition updateBinocularVision (s : Page) : Page := s.

Definition setDominantEye (isLeft : bool) (s : Page) : Page :=
  let s := withVars (setIsDominantLeft isLeft) s in
  let s := withDom (setDominantActive isLeft (negb isLeft)) s in
  updateBinocularVision s.

(** [navigator]: [mediaDevices] is missing, or is an object that has or
    lacks [getUserMedia]. *)
Record Navigator : Type := mkNavigator { mediaDevices : option bool }.

Definition hasGetUserMedia (nav : Navigator) : bool :=
  match mediaDevices nav with Some b => b | None => false end.

Definition init (nav : Navigator) (s : Page) : Page :=
  let s := updateEyeDisplay DiopterLeftDisplay 0 s in
  let s := updateEyeDisplay DiopterRightDisplay 0 s in
  let s := setListening true s in
  if hasGetUserMedia nav then initCamera s else useFallbackVideo s.

(** The [beforeunload] listener (lines 209-216). *)
Definition beforeunload (s : Page) : Page :=
  let s :=
    match animationFrameId (vars s) with
    | Some h => if (h =? 0)%N then s else cancelAnimationFrame h s
    | None => s
    end in
  match mediaStream (vars s) with
  | Some tracks =>
      withVars (setMediaStream (Some (map (fun _ => false) tracks))) s
  | None => s
  end.

(** ** Events *)

Inductive VideoEventKind : Type := Loadedmetadata | Loadeddata | Playing | Error.

(** Why the camera was not acquired. *)
Inductive CameraError : Type :=
| NotAllowedError
| NotFoundError
| OtherError (name : string).

(** What the browser delivers to the script.  A slider event carries the
    number [parseFloat] reads from the slider's value; a video event and
    an animation frame carry what the videos report at that moment. *)
Inductive Event : Type :=
| InputLeft (value : R)
| InputRight (value : R)
| ClickDominantLeft
| ClickDominantRight
| GetUserMediaFulfilled (stream : list bool)
| GetUserMediaRejected (err : CameraError)
| VideoEvent (k : VideoEventKind) (v : VideoId) (st : VideoStatus)
| AnimationFrame (status : VideoId -> VideoStatus)
| Beforeunload.

Definition videoEvent (k : VideoEventKind) (v : VideoId) (st : VideoStatus)
    (s : Page) : Page :=
  match wiring s, v, k with
  | CameraWiring, Video1, Loadedmetadata
  | CameraWiring, Video1, Loadeddata
  | CameraWiring, Video1, Playing => setupCanvas st s
  | FallbackWiring, Video1, Loadeddata =>
      setupPanel PanelClear (VideoNode Video1) false false s
  | FallbackWiring, Video1, Error => handleVideoError PanelClear s
  | FallbackWiring, Video2, Loadeddata => fallbackVideo2Loaded st s
  | FallbackWiring, Video2, Error => handleVideoError PanelCombined s
  | _, _, _ => s
  end.

Definition invoke (status : VideoId -> VideoStatus) (cb : Callback)
    (s : Page) : Page :=
  match cb with
  | CbRender video canvas => render video canvas (status video) s
  | CbSetupCanvas => setupCanvas (status Video1) s
  end.

(** One handle of the frame's snapshot: skipped when it was cancelled
    meanwhile, else removed from the list and invoked. *)
Definition runFrameCallback (status : VideoId -> VideoStatus) (s : Page)
    (h : N) : Page :=
  match lookupCallback h (frameCallbacks (browser s)) with
  | None => s
  | Some cb => invoke status cb (cancelAnimationFrame h s)
  end.

(** The browser runs the animation frame callbacks: the handles present
    when the frame starts, in order. *)
Definition runAnimationFrame (status : VideoId -> VideoStatus)
    (s : Page) : Page :=
  fold_left (runFrameCallback status)
            (map fst (frameCallbacks (browser s))) s.

Definition step (e : Event) (s : Page) : Page :=
  match e with
  | InputLeft value =>
      if listening s then
        let s := withVars (setLeftDiopters value) s in
        updateEyeDisplay DiopterLeftDisplay (leftDiopters (vars s)) s
      else s
  | InputRight value =>
      if listening s then
        let s := withVars (setRightDiopters value) s in
        updateEyeDisplay DiopterRightDisplay (rightDiopters (vars s)) s
      else s
  | ClickDominantLeft => if listening s then setDominantEye true s else s
  | ClickDominantRight => if listening s then setDominantEye false s else s
  | GetUserMediaFulfilled stream =>
      if awaitingCamera s then
        initCameraFulfilled stream (setAwaitingCamera false s)
      else s
  | GetUserMediaRejected _ =>
      if awaitingCamera s then
        initCameraRejected (setAwaitingCamera false s)
      else s
  | VideoEvent k v st => videoEvent k v st s
  | AnimationFrame status => runAnimationFrame status s
  | Beforeunload => beforeunload s
  end.

Definition run (events : list Event) (s : Page) : Page :=
  fold_left (fun s e => step e s) events s.

(** The page as the script finds it: the variables of lines 20-24, the
    elements as the document has them, no video yet, nothing scheduled. *)
Definition loadedPage (document : Dom) (ctx2d : bool) : Page :=
  mkPage (mkVars None 0 0 true None)
         (setVideo Video1 None (setVideo Video2 None document))
         (mkBrowser [] 0 0 0 [] ctx2d)
         false false false NoVideo.

End Script.

(** * Vocabulary of the properties *)

(** A page whose three blur variables are as given, everything else as
    after loading an empty document. *)
Definition pageWithEyes (left right : R) (dominantLeft : bool) : Page :=
  withVars
    (fun g => setIsDominantLeft dominantLeft
                (setRightDiopters right (setLeftDiopters left g)))
    (loadedPage (mkDom [] [] "" "" true false "" None None) true).

Definition scenarioLeft3 : Page := pageWithEyes 3 0 true.

Definition isDigit (c : ascii) : bool :=
  ((48 <=? nat_of_ascii c) && (nat_of_ascii c <=? 57))%nat.

Fixpoint allDigits (s : string) : bool :=
  match s with
  | EmptyString => true
  | String c s' => isDigit c && allDigits s'
  end.

(** The number a string of digits denotes. *)
Fixpoint digitsValueFrom (acc : Z) (s : string) : Z :=
  match s with
  | EmptyString => acc
  | String c s' =>
      digitsValueFrom (10 * acc + (Z.of_nat (nat_of_ascii c) - 48)) s'
  end.

Definition digitsValue (s : string) : Z := digitsValueFrom 0 s.

Definition twoDigits (n : Z) : string :=
  String (digitChar (n mod 100 / 10)) (String (digitChar (n mod 10)) "").

(** A text of the shape [-X.XX]: a minus sign, at least one digit, a point
    and two digits, which read as [hundredths / 100]. *)
Definition negatedFixed2 (text : string) (hundredths : Z) : Prop :=
  exists a b : string,
    text = "-" ++ a ++ "." ++ b
    /\ allDigits a = true /\ (1 <= String.length a)%nat
    /\ allDigits b = true /\ String.length b = 2%nat
    /\ (100 * digitsValue a + digitsValue b = hundredths)%Z.

(** What the display of an eye has to show for the diopters [v]: the value
    negated and rounded to hundredths when it is positive, [0.00] if not. *)
Definition displayFormat (v : R) (text : string) : Prop :=
  (0 < v ->
   exists n : Z, negatedFixed2 text n /\ Rabs (IZR n / 100 - v) <= / 200)
  /\ (v <= 0 -> text = "0.00").

(** The three variables the blur is computed from. *)
Definition eyes (s : Page) : R * R * bool :=
  (leftDiopters (vars s), rightDiopters (vars s), isDominantLeft (vars s)).

(** What the choice of the frame source has set. *)
Definition sourceState (s : Page) : bool * nat * string :=
  (awaitingCamera s, getUserMediaCalls (browser s), sourceStatus (dom s)).

(** Since [s0], the eye variables did not change and every draw used the
    radius [blur]. *)
Definition frameInv (blur : R) (s0 s : Page) : Prop :=
  eyes s = eyes s0
  /\ exists new : list Draw,
       painted (browser s) = (painted (browser s0) ++ new)%list
       /\ Forall (fun d => drawBlurPx d = blur) new.

(** What a video may report: a frame of 640 by 480, metadata only, or
    nothing yet. *)
Definition readyVideo : VideoStatus := mkVideoStatus 4 640 480.
Definition waitingVideo : VideoStatus := mkVideoStatus 1 640 480.
Definition noFrameYet : VideoStatus := mkVideoStatus 0 0 0.

(** A document whose two panels show their loading text. *)
Definition blankDocument : Dom :=
  mkDom [LoadingState "Loading"] [LoadingState "Loading"]
        "" "" true false "" None None.

(** A session with a camera: the stream arrives, the video first reports
    no size, then plays; a slider moves between frames. *)
Definition cameraRun (toS : R -> string) : Page :=
  run toS
    [GetUserMediaFulfilled [true];
     VideoEvent Loadedmetadata Video1 noFrameYet;
     AnimationFrame (fun _ => noFrameYet);
     VideoEvent Playing Video1 readyVideo;
     AnimationFrame (fun _ => readyVideo);
     InputLeft 3;
     AnimationFrame (fun _ => waitingVideo);
     AnimationFrame (fun _ => readyVideo)]
    (init toS (mkNavigator (Some true)) (loadedPage blankDocument true)).

Definition isFallbackVideo (v : option Video) : Prop :=
  exists video : Video,
    v = Some video /\ src video = FALLBACK_VIDEO_URL /\ srcObject video = false.

(** The sample video is the frame source: both videos play the bundled
    file, the handlers of [useFallbackVideo] are attached, the hidden
    second video sits in the combined panel, and the status label says so. *)
Definition fallbackActive (s : Page) : Prop :=
  sourceStatus (dom s) = "Source: Sample Video"
  /\ sourceStatus (dom s) <> "Source: Device Camera"
  /\ wiring s = FallbackWiring
  /\ isFallbackVideo (video1 (dom s))
  /\ isFallbackVideo (video2 (dom s))
  /\ In (VideoNode Video2) (panelCombined (dom s))
  /\ awaitingCamera s = false.

Definition callbacks (s : Page) : list (N * Callback) :=
  frameCallbacks (browser s).

(** Handles are distinct and none is above the identifier counter. *)
Definition wfCallbacks (s : Page) : Prop :=
  NoDup (map fst (callbacks s))
  /\ forall h, In h (map fst (callbacks s)) -> (h <= frameCallbackId (browser s))%N.

(** The closure [render] of [startBlurRender(video, canvas)] is scheduled. *)
Definition renderPending (v : VideoId) (c : Canvas) (s : Page) : Prop :=
  exists h : N, In (h, CbRender v c) (callbacks s).

(** [s'] has the callbacks of [s] and possibly new ones, under new handles. *)
Definition grows (s s' : Page) : Prop :=
  exists new : list (N * Callback),
    callbacks s' = (callbacks s ++ new)%list
    /\ (frameCallbackId (browser s) <= frameCallbackId (browser s'))%N
    /\ NoDup (map fst new)
    /\ forall h, In h (map fst new) ->
                 (frameCallbackId (browser s) < h <= frameCallbackId (browser s'))%N.

(** At most the one loop of [video] and [canvas] runs, and it is the one
    [animationFrameId] names; what else is scheduled are polls of
    [setupCanvas] that will find their work done. *)
Definition singleLoop (v : VideoId) (c : Canvas) (s : Page) : Prop :=
  exists h : N,
    animationFrameId (vars s) = Some h /\ h <> 0%N
    /\ forall h' cb, In (h', cb) (callbacks s) ->
         (h' = h /\ cb = CbRender v c)
         \/ (cb = CbSetupCanvas /\ canvasSetupDone s = true).

(** No render callback is scheduled and none can come up by itself. *)
Definition quiet (s : Page) : Prop :=
  forall h cb, In (h, cb) (callbacks s) ->
    cb = CbSetupCanvas /\ canvasSetupDone s = true.

(** The events of a page that is streaming: sliders, buttons, frames. *)
Definition isRunningEvent (e : Event) : bool :=
  match e with
  | InputLeft _ | InputRight _ | ClickDominantLeft | ClickDominantRight
  | AnimationFrame _ => true
  | _ => false
  end.

(** The page once the sample video has loaded, with no camera interface. *)
Definition streamingFallback (toS : R -> string) : Page :=
  step toS (VideoEvent Loadeddata Video2 readyVideo)
    (init toS (mkNavigator None) (loadedPage blankDocument true)).

(** ** Vocabulary of the further properties *)

(** What the sliders and the buttons control, with what they display. *)
Definition controls (s : Page) : R * R * bool * string * string * bool * bool :=
  (leftDiopters (vars s), rightDiopters (vars s), isDominantLeft (vars s),
   diopterLeftDisplay (dom s), diopterRightDisplay (dom s),
   dominantLeftActive (dom s), dominantRightActive (dom s)).

(** Each display shows the text of its eye's current diopters. *)
Definition displaysSynced (toS : R -> string) (s : Page) : Prop :=
  diopterLeftDisplay (dom s) = eyeDisplayText toS (leftDiopters (vars s))
  /\ diopterRightDisplay (dom s) = eyeDisplayText toS (rightDiopters (vars s)).

(** The [active] class is on the button of the dominant eye and not on the
    other one. *)
Definition buttonsAgree (s : Page) : Prop :=
  dominantLeftActive (dom s) = isDominantLeft (vars s)
  /\ dominantRightActive (dom s) = negb (isDominantLeft (vars s)).

Definition isControlEvent (e : Event) : bool :=
  match e with
  | InputLeft _ | InputRight _ | ClickDominantLeft | ClickDominantRight => true
  | _ => false
  end.

Definition isRenderCallback (e : N * Callback) : bool :=
  match snd e with CbRender _ _ => true | CbSetupCanvas => false end.

(** How many render callbacks are scheduled. *)
Definition renderCount (s : Page) : nat :=
  List.length (filter isRenderCallback (callbacks s)).

(** What one run of [render] for [v] and [c] paints in state [s] when the
    video reports [st]. *)
Definition frameDraws (v : VideoId) (c : Canvas) (st : VideoStatus)
    (s : Page) : list Draw :=
  if ((HAVE_CURRENT_DATA <=? readyState st)%nat && context2d (browser s))%bool
  then [mkDraw v c (calculateBinocularBlur s)] else [].

(** How many of the frames find a current frame in video [v]. *)
Definition readyFrames (v : VideoId) (statuses : list (VideoId -> VideoStatus)) : nat :=
  List.length
    (filter (fun status => (HAVE_CURRENT_DATA <=? readyState (status v))%nat)
            statuses).

(** The camera is the frame source: the label says so, the handlers of
    [initCamera] are attached, a stream is held and no second video
    exists. *)
Definition cameraActive (s : Page) : Prop :=
  sourceStatus (dom s) = "Source: Device Camera"
  /\ wiring s = CameraWiring
  /\ awaitingCamera s = false
  /\ video2 (dom s) = None
  /\ mediaStream (vars s) <> None.

(** With the camera wired, [setupCanvas] has either not yet made its
    canvas, and then no render callback is scheduled, or it has made the
    one canvas, and then at most one is. *)
Definition cameraSetupInv (s : Page) : Prop :=
  wiring s = CameraWiring /\ awaitingCamera s = false
  /\ ((canvasSetupDone s = false /\ canvasCount (browser s) = 0%nat
       /\ renderCount s = 0%nat)
      \/ (canvasSetupDone s = true /\ canvasCount (browser s) = 1%nat
          /\ (renderCount s <= 1)%nat)).


(** The class and the text [setupPanel] gives the source indicator. *)
Definition indicatorFor (isCamera : bool) : Node :=
  SourceIndicator
    (if isCamera then "source-indicator camera" else "source-indicator fallback")
    (if isCamera then "● Live" else "● Video").

Definition otherPanel (p : PanelId) : PanelId :=
  match p with PanelClear => PanelCombined | PanelCombined => PanelClear end.

(** The part of [cameraActive] that no handler of the camera path
    touches. *)
Definition cameraHeld (s : Page) : Prop :=
  wiring s = CameraWiring /\ video2 (dom s) = None
  /\ mediaStream (vars s) <> None.

(** The panel a video's [onerror] handler of [useFallbackVideo] blanks. *)
Definition errorPanel (v : VideoId) : PanelId :=
  match v with Video1 => PanelClear | Video2 => PanelCombined end.

(** The two halves of the [beforeunload] listener (lines 210-215). *)
Definition cancelLoop (s : Page) : Page :=
  match animationFrameId (vars s) with
  | Some h => if (h =? 0)%N then s else cancelAnimationFrame h s
  | None => s
  end.

Definition stopTracks (s : Page) : Page :=
  match mediaStream (vars s) with
  | Some tracks =>
      withVars (setMediaStream (Some (map (fun _ => false) tracks))) s
  | None => s
  end.

(** The children [setupPanel] leaves in its panel, from the children it
    found. *)
Definition panelAfterSetup (content : Node) (isCamera keepHiddenVideo : bool)
    (children : list Node) : list Node :=
  let base := removeFirst isCanvasNode (removeFirst isLoadingState children) in
  let kept := if keepHiddenVideo then base else removeFirst isVideoNode base in
  let placed := content :: filter (fun n => negb (sameElement content n)) kept in
  let marked :=
    if existsb isSourceIndicator placed then placed
    else (placed ++ [SourceIndicator "source-indicator" ""])%list in
  setFirstIndicator
    (if isCamera then "source-indicator camera" else "source-indicator fallback")
    (if isCamera then "● Live" else "● Video") marked.


(** Which source is attached and what was done to get it: the handlers,
    whether [getUserMedia] is still awaited, whether a stream is held, how
    often [getUserMedia] was called, the status label. *)
Definition sourceKind (s : Page) : Wiring * bool * bool * nat * string :=
  (wiring s, awaitingCamera s,
   match mediaStream (vars s) with Some _ => true | None => false end,
   getUserMediaCalls (browser s), sourceStatus (dom s)).

(** The status label, the handlers and the stream agree. *)
Definition sourceConsistent (s : Page) : Prop :=
  (getUserMediaCalls (browser s) <= 1)%nat
  /\ match wiring s with
     | NoVideo =>
         awaitingCamera s = true /\ mediaStream (vars s) = None
         /\ getUserMediaCalls (browser s) = 1%nat
     | CameraWiring =>
         awaitingCamera s = false /\ mediaStream (vars s) <> None
         /\ sourceStatus (dom s) = "Source: Device Camera"
     | FallbackWiring =>
         awaitingCamera s = false /\ mediaStream (vars s) = None
         /\ sourceStatus (dom s) = "Source: Sample Video"
     end.

Definition isSourceEvent (e : Event) : bool :=
  match e with
  | GetUserMediaFulfilled _ | GetUserMediaRejected _ => true
  | _ => false
  end.

(** The four flags [createVideoElement] sets. *)
Definition videoFlags (v : Video) : bool :=
  (autoplay v && playsInline v && muted v && loop v)%bool.

(** Every video of the page has the four flags. *)
Definition videosFlagged (s : Page) : Prop :=
  forall i v, getVideo i (dom s) = Some v -> videoFlags v = true.

(** ** Vocabulary of the double-precision properties *)

(** The blur functions of the script with [Math.pow] rounded to nearest. *)
Module Nearest.

Definition calculateBlur : PrimFloat.float -> PrimFloat.float :=
  Binary64.calculateBlur Exponentiate.Math_pow.

Definition calculateBinocularBlur
  : PrimFloat.float -> PrimFloat.float -> bool -> PrimFloat.float :=
  Binary64.calculateBinocularBlur Exponentiate.Math_pow.

End Nearest.

(** The values of [f] on the steps [ks], each with its step. *)
Definition tabulate {A : Type} (f : Z -> A) (ks : list Z) : list (Z * A) :=
  map (fun k => (k, f k)) ks.

(** [test] holds between any two entries of a table. *)
Definition allPairs {A : Type} (test : A -> A -> bool) (l : list A) : bool :=
  forallb (fun p => forallb (test p) l) l.

(** The entry of the later step has the larger value. *)
Definition laterIsLarger (p q : Z * PrimFloat.float) : bool :=
  if (fst p <? fst q)%Z then PrimFloat.ltb (snd p) (snd q) else true.

(** 1, ..., 1000: the two-decimal diopters above 0. *)
Definition positiveHundredthSteps : list Z := map Z.of_nat (seq 1 1000).

(** Blur per diopter. *)
Definition blurPerDiopter (d : PrimFloat.float) : PrimFloat.float :=
  PrimFloat.div (Nearest.calculateBlur d) d.

(** [x] is at most [n] doubles away from [y]. *)
Fixpoint nextUp (n : nat) (x : PrimFloat.float) : PrimFloat.float :=
  match n with
  | O => x
  | S n' => PrimFloat.next_up (nextUp n' x)
  end.

Fixpoint nextDown (n : nat) (x : PrimFloat.float) : PrimFloat.float :=
  match n with
  | O => x
  | S n' => PrimFloat.next_down (nextDown n' x)
  end.

Definition withinDoubles (n : nat) (x y : PrimFloat.float) : bool :=
  PrimFloat.leb (nextDown n y) x && PrimFloat.leb x (nextUp n y).

(** With both eyes at [d]: the weighted diopters are within one double of
    [d], and the binocular blur within two doubles of the blur of [d]. *)
Definition equalEyesClose (d : PrimFloat.float) : bool :=
  withinDoubles 1 (Binary64.weightedDiopters d d) d
  && withinDoubles 2 (Nearest.calculateBinocularBlur d d true)
       (Nearest.calculateBlur d).

(** A setting of the two sliders on quarter diopters, with the blur of
    each eye alone and the binocular blur under either dominance. *)
Record Setting : Type := mkSetting
  { leftStep : Z;
    rightStep : Z;
    leftBlur : PrimFloat.float;
    rightBlur : PrimFloat.float;
    blurLeftDominant : PrimFloat.float;
    blurRightDominant : PrimFloat.float }.

Definition quarterBlur (k : Z) : PrimFloat.float :=
  Nearest.calculateBlur (Binary64.quarters k).

Definition quarterBinocularBlur (j k : Z) (isDominantLeft : bool) : PrimFloat.float :=
  Nearest.calculateBinocularBlur (Binary64.quarters j) (Binary64.quarters k)
    isDominantLeft.

Definition setting (j k : Z) : Setting :=
  mkSetting j k (quarterBlur j) (quarterBlur k)
    (quarterBinocularBlur j k true) (quarterBinocularBlur j k false).

(** All settings, the blur of each eye alone computed once per step. *)
Definition quarterSettings : list Setting :=
  let mono := tabulate quarterBlur Binary64.quarterSteps in
  flat_map
    (fun p =>
       map (fun q =>
              mkSetting (fst p) (fst q) (snd p) (snd q)
                (quarterBinocularBlur (fst p) (fst q) true)
                (quarterBinocularBlur (fst p) (fst q) false))
         mono)
    mono.

Definition floatMin (x y : PrimFloat.float) : PrimFloat.float :=
  if PrimFloat.leb x y then x else y.

Definition floatMax (x y : PrimFloat.float) : PrimFloat.float :=
  if PrimFloat.leb x y then y else x.

(** The binocular blur lies between the blurs of the two eyes. *)
Definition betweenEyes (e : Setting) : bool :=
  let lo := floatMin (leftBlur e) (rightBlur e) in
  let hi := floatMax (leftBlur e) (rightBlur e) in
  PrimFloat.leb lo (blurLeftDominant e) && PrimFloat.leb (blurLeftDominant e) hi
  && PrimFloat.leb lo (blurRightDominant e)
  && PrimFloat.leb (blurRightDominant e) hi.

(** With the larger diopters on the left, left dominance blurs more. *)
Definition dominantWeighsMore (e : Setting) : bool :=
  if (rightStep e <? leftStep e)%Z
  then PrimFloat.ltb (blurRightDominant e) (blurLeftDominant e)
  else true.

(** The blur is 0 exactly on the setting (0, 0). *)
Definition zeroOnlyAtZero (e : Setting) : bool :=
  let atZero := ((leftStep e =? 0) && (rightStep e =? 0))%Z in
  Bool.eqb (PrimFloat.eqb (blurLeftDominant e) PrimFloat.zero) atZero
  && Bool.eqb (PrimFloat.eqb (blurRightDominant e) PrimFloat.zero) atZero.

(** A setting with no slider lower and one higher blurs more. *)
Definition higherBlursMore (e1 e2 : Setting) : bool :=
  if ((leftStep e1 <=? leftStep e2) && (rightStep e1 <=? rightStep e2)
      && ((leftStep e1 <? leftStep e2) || (rightStep e1 <? rightStep e2)))%Z
  then PrimFloat.ltb (blurLeftDominant e1) (blurLeftDominant e2)
       && PrimFloat.ltb (blurRightDominant e1) (blurRightDominant e2)
  else true.

(** The double [i] doubles after 3: between 2 and 4 doubles are [2^-51]
    apart and 3 is [6755399441055744 * 2^-51]. *)
Definition doubleAfter3 (i : Z) : PrimFloat.float :=
  FloatOps.SF2Prim
    (SpecFloat.S754_finite false (Z.to_pos (6755399441055744 + i)) (-51)).

(** A double that is at least [t * 2^-50]. *)
Definition atLeast (t : Z) (v : SpecFloat.spec_float) : Prop :=
  match v with
  | SpecFloat.S754_finite false m e =>
      (-50 < e)%Z \/ (e = -50 /\ t <= Zpos m)%Z
  | SpecFloat.S754_infinity false => True
  | _ => False
  end.

(** * Properties *)

(** ** The blur model *)

Lemma calculateBlur_zero : calculateBlur 0 = 0.
Proof.
  unfold calculateBlur. destruct (Req_dec_T 0 0) as [_ | Hne]; [reflexivity | ].
  exfalso. apply Hne. reflexivity.
Qed.

Lemma calculateBlur_nonzero (d : R) :
  d <> 0 -> calculateBlur d = BLUR_BASE * Rpower d BLUR_EXPONENT.
Proof.
  intros Hd. unfold calculateBlur, Math_pow.
  destruct (Req_dec_T d 0) as [He | _]; [contradiction | reflexivity].
Qed.

(** The blur radius is never negative. *)
Lemma calculateBlur_nonneg (d : R) : 0 <= calculateBlur d.
Proof.
  unfold calculateBlur, Math_pow.
  destruct (Req_dec_T d 0) as [_ | _]; [lra | ].
  assert (0 < Rpower d BLUR_EXPONENT) by (unfold Rpower; apply exp_pos).
  unfold BLUR_BASE. nra.
Qed.

Lemma weights_sum_to_one : DOMINANT_WEIGHT + (1 - DOMINANT_WEIGHT) = 1.
Proof. unfold DOMINANT_WEIGHT. lra. Qed.

Lemma nonDominant_weight : 1 - DOMINANT_WEIGHT = 0.35.
Proof. unfold DOMINANT_WEIGHT. lra. Qed.

Lemma calculateBinocularBlur_weighted (s : Page) :
  calculateBinocularBlur s = calculateBlur (weightedDiopters s).
Proof. reflexivity. Qed.

(** The real power with exponent 1.1 is the tenth root of the eleventh
    power. *)
Lemma Rpower_11_10 (d : R) : 0 < d -> Rpower d 1.1 ^ 10 = d ^ 11.
Proof.
  intros Hd.
  assert (Hp : 0 < Rpower d 1.1) by (unfold Rpower; apply exp_pos).
  rewrite <- (Rpower_pow 10 _ Hp), Rpower_mult.
  replace (1.1 * INR 10) with (INR 11) by (simpl; lra).
  apply Rpower_pow; assumption.
Qed.

(** C2: on a non-negative [diopters], [calculateBlur] is the reference
    [computeMonocularBlur] with base 1.4 and exponent 1.1: it returns 0 at 0
    and [1.4 * diopters^1.1] elsewhere, that is the non-negative number
    whose quotient by 1.4 has [diopters^11] as its tenth power. *)
Theorem calculateBlur_is_reference (diopters : R) :
  0 <= diopters ->
  calculateBlur diopters = Reference.computeMonocularBlur diopters
  /\ (diopters = 0 -> calculateBlur diopters = 0)
  /\ (diopters <> 0 -> calculateBlur diopters = 1.4 * Rpower diopters 1.1)
  /\ 0 <= calculateBlur diopters
  /\ (calculateBlur diopters / 1.4) ^ 10 = diopters ^ 11.
Proof.
  intros Hd. split; [ | split; [ | split; [ | split]]].
  - unfold calculateBlur, Reference.computeMonocularBlur, Math_pow,
      BLUR_BASE, BLUR_EXPONENT, Reference.base, Reference.exponent.
    reflexivity.
  - intros ->. apply calculateBlur_zero.
  - intros Hne. rewrite (calculateBlur_nonzero _ Hne). reflexivity.
  - apply calculateBlur_nonneg.
  - destruct (Req_dec_T diopters 0) as [-> | Hne].
    + rewrite calculateBlur_zero. lra.
    + rewrite (calculateBlur_nonzero _ Hne).
      unfold BLUR_BASE, BLUR_EXPONENT.
      replace (1.4 * Rpower diopters 1.1 / 1.4) with (Rpower diopters 1.1)
        by lra.
      apply Rpower_11_10. lra.
Qed.

Lemma calculateBlur_is_reference_witness :
  0 <= 2
  /\ calculateBlur 2 = Reference.computeMonocularBlur 2
  /\ (2 = 0 -> calculateBlur 2 = 0)
  /\ (2 <> 0 -> calculateBlur 2 = 1.4 * Rpower 2 1.1)
  /\ 0 <= calculateBlur 2
  /\ (calculateBlur 2 / 1.4) ^ 10 = 2 ^ 11.
Proof.
  split; [lra | apply (calculateBlur_is_reference 2); lra].
Defined.

(** In exact arithmetic [calculateBlur(0)] is 0 and [calculateBlur] is
    strictly increasing on positive diopters.  What is left of this in
    double precision is in the section on the blur in double precision. *)
Lemma calculateBlur_strictly_increasing_exact (d1 d2 : R) :
  0 < d1 -> d1 < d2 ->
  calculateBlur 0 = 0 /\ calculateBlur d1 < calculateBlur d2.
Proof.
  intros H1 H12. split; [apply calculateBlur_zero | ].
  rewrite !calculateBlur_nonzero by lra.
  apply Rmult_lt_compat_l.
  - unfold BLUR_BASE. lra.
  - apply Rlt_Rpower_l; [unfold BLUR_EXPONENT; lra | split; assumption].
Qed.

(** C1: with non-negative diopters, [calculateBinocularBlur] over the state
    is the reference [computeBinocularBlur]: the monocular blur of
    [dominant*0.65 + nonDominant*0.35], the second coefficient being
    [1 - DOMINANT_WEIGHT]. *)
Theorem calculateBinocularBlur_is_reference (s : Page) :
  0 <= leftDiopters (vars s) -> 0 <= rightDiopters (vars s) ->
  let left := leftDiopters (vars s) in
  let right := rightDiopters (vars s) in
  let dominant := if isDominantLeft (vars s) then left else right in
  let nonDominant := if isDominantLeft (vars s) then right else left in
  calculateBinocularBlur s
  = Reference.computeBinocularBlur left right (isDominantLeft (vars s))
  /\ calculateBinocularBlur s
     = calculateBlur (dominant * 0.65 + nonDominant * 0.35)
  /\ 1 - DOMINANT_WEIGHT = 0.35.
Proof.
  intros _ _ left right dominant nonDominant.
  assert (Hw : weightedDiopters s = dominant * 0.65 + nonDominant * 0.35).
  { unfold weightedDiopters. rewrite nonDominant_weight.
    unfold DOMINANT_WEIGHT. reflexivity. }
  split; [ | split].
  - rewrite calculateBinocularBlur_weighted, Hw.
    unfold Reference.computeBinocularBlur. fold dominant nonDominant.
    unfold calculateBlur, Reference.computeMonocularBlur, Math_pow,
      BLUR_BASE, BLUR_EXPONENT, Reference.base, Reference.exponent.
    reflexivity.
  - rewrite calculateBinocularBlur_weighted, Hw. reflexivity.
  - apply nonDominant_weight.
Qed.

Lemma calculateBinocularBlur_is_reference_witness :
  calculateBinocularBlur (pageWithEyes 3 1 false)
  = Reference.computeBinocularBlur 3 1 false.
Proof.
  apply (calculateBinocularBlur_is_reference (pageWithEyes 3 1 false));
    simpl; lra.
Defined.

(** C4: for non-negative [left] and [right], the blur of diopters
    [(left, right)] with the left eye dominant equals the blur of
    [(right, left)] with the right eye dominant. *)
Theorem calculateBinocularBlur_swap (s1 s2 : Page) (left right : R) :
  0 <= left -> 0 <= right ->
  leftDiopters (vars s1) = left -> rightDiopters (vars s1) = right ->
  isDominantLeft (vars s1) = true ->
  leftDiopters (vars s2) = right -> rightDiopters (vars s2) = left ->
  isDominantLeft (vars s2) = false ->
  calculateBinocularBlur s1 = calculateBinocularBlur s2.
Proof.
  intros _ _ Hl1 Hr1 Hd1 Hl2 Hr2 Hd2.
  unfold calculateBinocularBlur.
  rewrite Hl1, Hr1, Hd1, Hl2, Hr2, Hd2. reflexivity.
Qed.

Lemma calculateBinocularBlur_swap_witness :
  calculateBinocularBlur (pageWithEyes 3 1 true)
  = calculateBinocularBlur (pageWithEyes 1 3 false).
Proof.
  apply (calculateBinocularBlur_swap _ _ 3 1); simpl; try reflexivity; lra.
Defined.

(** In exact arithmetic, when both eyes have the same diopters [d] the
    binocular blur is [calculateBlur d] whichever eye is dominant, the two
    weights summing to 1.  In double precision the sum can round, see
    [Binary64Facts] and the section on the blur in double precision. *)
Lemma calculateBinocularBlur_equal_eyes_exact (s : Page) (d : R) :
  leftDiopters (vars s) = d -> rightDiopters (vars s) = d ->
  DOMINANT_WEIGHT + (1 - DOMINANT_WEIGHT) = 1
  /\ calculateBinocularBlur s = calculateBlur d.
Proof.
  intros Hl Hr. split; [apply weights_sum_to_one | ].
  rewrite calculateBinocularBlur_weighted. f_equal.
  unfold weightedDiopters. rewrite Hl, Hr.
  destruct (isDominantLeft (vars s)); unfold DOMINANT_WEIGHT; lra.
Qed.

(** ** Rounding in the weighting *)

Module Binary64Facts.

Import PrimFloat.

(** In doubles too, [1 - DOMINANT_WEIGHT] is the double written [0.35]. *)
#[warnings="-inexact-float"]
Lemma nonDominant_weight_binary64 :
  eqb (1 - Binary64.DOMINANT_WEIGHT)%float 0.35%float = true.
Proof. vm_compute. reflexivity. Qed.

(** With both eyes on the same quarter diopter from 0 to 10, the weighted
    diopters are that value exactly. *)
Lemma equal_eyes_quarters_binary64 :
  forallb
    (fun k =>
       eqb (Binary64.weightedDiopters (Binary64.quarters k) (Binary64.quarters k))
           (Binary64.quarters k))
    Binary64.quarterSteps = true.
Proof. vm_compute. reflexivity. Qed.

(** Off the quarters the sum can round: with both eyes at 0.9 the weighted
    diopters are the next double above 0.9.  The real-number model of this
    file leaves such last-bit effects out. *)
#[warnings="-inexact-float"]
Lemma equal_eyes_rounding_binary64 :
  eqb (Binary64.weightedDiopters 0.9%float 0.9%float) 0.9%float = false
  /\ eqb (Binary64.weightedDiopters 0.9%float 0.9%float)
         (next_up 0.9%float) = true.
Proof. vm_compute. split; reflexivity. Qed.

End Binary64Facts.

(** ** The scenario left = 3.0, right = 0, left eye dominant *)

Lemma scenarioLeft3_weighted : weightedDiopters scenarioLeft3 = 1.95.
Proof. unfold weightedDiopters, DOMINANT_WEIGHT. simpl. lra. Qed.

Lemma scenarioLeft3_blur :
  calculateBinocularBlur scenarioLeft3 = 1.4 * Rpower 1.95 1.1.
Proof.
  rewrite calculateBinocularBlur_weighted, scenarioLeft3_weighted.
  rewrite calculateBlur_nonzero by lra. reflexivity.
Qed.

(** A positive [y] lies strictly between two positive bounds when its tenth
    power does. *)
Lemma pow10_between (lo hi y : R) :
  0 <= lo -> 0 < y -> 0 <= hi ->
  lo ^ 10 < y ^ 10 -> y ^ 10 < hi ^ 10 -> lo < y < hi.
Proof.
  intros Hlo Hy Hhi H1 H2. split.
  - destruct (Rlt_le_dec lo y) as [Hlt | Hge]; [assumption | ].
    exfalso. assert (y ^ 10 <= lo ^ 10) by (apply pow_incr; lra). lra.
  - destruct (Rlt_le_dec y hi) as [Hlt | Hge]; [assumption | ].
    exfalso. assert (hi ^ 10 <= y ^ 10) by (apply pow_incr; lra). lra.
Qed.

Lemma Rpower_195_bounds : 2.0822 < Rpower 1.95 1.1 < 2.0892.
Proof.
  assert (Hp : 0 < Rpower 1.95 1.1) by (unfold Rpower; apply exp_pos).
  assert (He : Rpower 1.95 1.1 ^ 10 = 1.95 ^ 11) by (apply Rpower_11_10; lra).
  apply pow10_between; try lra; rewrite He; lra.
Qed.

Lemma scenarioLeft3_blur_bounds :
  2.915 < calculateBinocularBlur scenarioLeft3 < 2.925.
Proof.
  rewrite scenarioLeft3_blur. pose proof Rpower_195_bounds. lra.
Qed.

(** C8, as stated: the weighted diopters are 1.95, the blur is
    [1.4 * 1.95^1.1], and that is 2.84 to two decimals.  The last part
    fails: the value lies above 2.915. *)
Lemma scenarioLeft3_blur_is_not_2_84 :
  ~ (weightedDiopters scenarioLeft3 = 3 * 0.65
     /\ weightedDiopters scenarioLeft3 = 1.95
     /\ calculateBinocularBlur scenarioLeft3 = 1.4 * Rpower 1.95 1.1
     /\ Rabs (calculateBinocularBlur scenarioLeft3 - 2.84) <= 0.005).
Proof.
  intros (_ & _ & _ & Habs).
  pose proof scenarioLeft3_blur_bounds as [Hlo _].
  rewrite Rabs_right in Habs by lra. lra.
Qed.

(** C8, amended: with left = 3.0, right = 0 and the left eye dominant, the
    weighted diopters are [3.0*0.65 = 1.95] and the blur is
    [1.4 * 1.95^1.1], which is 2.92 to two decimals. *)
Theorem scenarioLeft3_blur_is_2_92 :
  weightedDiopters scenarioLeft3 = 3 * 0.65
  /\ weightedDiopters scenarioLeft3 = 1.95
  /\ calculateBinocularBlur scenarioLeft3 = 1.4 * Rpower 1.95 1.1
  /\ Rabs (calculateBinocularBlur scenarioLeft3 - 2.92) <= 0.005.
Proof.
  split; [rewrite scenarioLeft3_weighted; lra | ].
  split; [apply scenarioLeft3_weighted | ].
  split; [apply scenarioLeft3_blur | ].
  pose proof scenarioLeft3_blur_bounds as [Hlo Hhi].
  apply Rabs_le. lra.
Qed.

(** ** Decimal digits and [toFixed] *)

Lemma string_app_assoc (a b c : string) : (a ++ b) ++ c = a ++ (b ++ c).
Proof. induction a as [ | x a IH]; simpl; [reflexivity | now rewrite IH]. Qed.

Lemma string_length_app (a b : string) :
  String.length (a ++ b) = (String.length a + String.length b)%nat.
Proof. induction a as [ | x a IH]; simpl; [reflexivity | now rewrite IH]. Qed.

Lemma allDigits_app (a b : string) :
  allDigits (a ++ b) = allDigits a && allDigits b.
Proof.
  induction a as [ | x a IH]; simpl; [reflexivity | ].
  rewrite IH. apply andb_assoc.
Qed.

Lemma digitsValueFrom_app (a b : string) (acc : Z) :
  digitsValueFrom acc (a ++ b) = digitsValueFrom (digitsValueFrom acc a) b.
Proof.
  revert acc. induction a as [ | x a IH]; intros acc; simpl;
    [reflexivity | apply IH].
Qed.

Lemma substring_prefix (a b : string) :
  substring 0 (String.length a) (a ++ b) = a.
Proof.
  induction a as [ | x a IH]; simpl.
  - destruct b; reflexivity.
  - now rewrite IH.
Qed.

Lemma substring_suffix (a b : string) :
  substring (String.length a) (String.length b) (a ++ b) = b.
Proof.
  induction a as [ | x a IH]; simpl; [ | exact IH].
  induction b as [ | y b IHb]; simpl; [reflexivity | now rewrite IHb].
Qed.

Lemma digitChar_cases (d : Z) :
  (0 <= d < 10)%Z ->
  isDigit (digitChar d) = true
  /\ (Z.of_nat (nat_of_ascii (digitChar d)) - 48 = d)%Z.
Proof.
  intros Hd.
  assert (Hc : (d = 0 \/ d = 1 \/ d = 2 \/ d = 3 \/ d = 4 \/ d = 5 \/ d = 6
               \/ d = 7 \/ d = 8 \/ d = 9)%Z) by lia.
  repeat (destruct Hc as [-> | Hc]; [split; reflexivity | ]).
  subst d. split; reflexivity.
Qed.

(** Enough fuel for [n] is enough fuel for [n / 10], with one to spare. *)
Lemma div10_fuel (f : nat) (n : Z) :
  (10 <= n < 2 ^ Z.of_nat (S f))%Z ->
  (0 <= n / 10 < 2 ^ Z.of_nat f)%Z /\ exists f', f = S f'.
Proof.
  intros [Hlo Hhi].
  rewrite Nat2Z.inj_succ, Z.pow_succ_r in Hhi by lia.
  assert (Hq : (1 <= n / 10)%Z) by (apply Z.div_le_lower_bound; lia).
  assert (Hd : (n / 10 < 2 ^ Z.of_nat f)%Z)
    by (apply Z.div_lt_upper_bound; lia).
  split; [lia | ].
  destruct f as [ | f']; [simpl in Hd; lia | exists f'; reflexivity].
Qed.

Lemma digitsAux_S (f : nat) (n : Z) :
  digitsAux (S f) n
  = if (n <? 10)%Z then String (digitChar n) ""
    else digitsAux f (n / 10) ++ String (digitChar (n mod 10)) "".
Proof. reflexivity. Qed.

Lemma digitsAux_enough (f1 : nat) :
  forall (f2 : nat) (n : Z),
    (0 <= n < 2 ^ Z.of_nat (S f1))%Z -> (n < 2 ^ Z.of_nat (S f2))%Z ->
    digitsAux (S f1) n = digitsAux (S f2) n.
Proof.
  induction f1 as [ | f1 IH]; intros f2 n Hn1 Hn2.
  - assert (Hlt : (n <? 10)%Z = true) by (apply Z.ltb_lt; simpl in Hn1; lia).
    rewrite (digitsAux_S 0), (digitsAux_S f2), Hlt. reflexivity.
  - rewrite (digitsAux_S (S f1)), (digitsAux_S f2). destruct (n <? 10)%Z eqn:Hlt; [reflexivity | ].
    apply Z.ltb_ge in Hlt.
    destruct (div10_fuel (S f1) n) as [Hq1 _]; [lia | ].
    destruct (div10_fuel f2 n) as [Hq2 [f2' ->]]; [lia | ].
    f_equal. apply IH; [exact Hq1 | apply Hq2].
Qed.

Lemma digitsAux_sound (f : nat) :
  forall n : Z,
    (0 <= n < 2 ^ Z.of_nat (S f))%Z ->
    allDigits (digitsAux (S f) n) = true
    /\ digitsValue (digitsAux (S f) n) = n
    /\ (1 <= String.length (digitsAux (S f) n))%nat.
Proof.
  induction f as [ | f IH]; intros n Hn.
  - assert (Hlt : (n <? 10)%Z = true) by (apply Z.ltb_lt; simpl in Hn; lia).
    rewrite digitsAux_S. rewrite Hlt.
    destruct (digitChar_cases n) as [Hd Hv]; [simpl in Hn; lia | ].
    unfold digitsValue. cbn [allDigits digitsValueFrom String.length].
    rewrite Hd, Hv. repeat split; lia.
  - rewrite digitsAux_S. destruct (n <? 10)%Z eqn:Hlt.
    + apply Z.ltb_lt in Hlt.
      destruct (digitChar_cases n) as [Hd Hv]; [lia | ].
      unfold digitsValue. cbn [allDigits digitsValueFrom String.length].
      rewrite Hd, Hv. repeat split; lia.
    + apply Z.ltb_ge in Hlt.
      destruct (div10_fuel (S f) n) as [Hq _]; [lia | ].
      destruct (IH _ Hq) as (Ha & Hv & Hl).
      destruct (digitChar_cases (n mod 10)) as [Hd Hm];
        [apply Z.mod_pos_bound; lia | ].
      split; [ | split].
      * rewrite allDigits_app, Ha. cbn [allDigits]. rewrite Hd. reflexivity.
      * unfold digitsValue in *. rewrite digitsValueFrom_app, Hv.
        cbn [digitsValueFrom]. rewrite Hm.
        pose proof (Z.div_mod n 10). lia.
      * rewrite string_length_app. lia.
Qed.

Lemma decimalDigits_fuel (n : Z) :
  (0 <= n)%Z -> (0 <= n < 2 ^ Z.of_nat (S (Z.to_nat (Z.log2 n))))%Z.
Proof.
  intros Hn. split; [assumption | ].
  rewrite Nat2Z.inj_succ, Z2Nat.id by apply Z.log2_nonneg.
  destruct (Z.eq_dec n 0) as [-> | Hne]; [reflexivity | ].
  apply Z.log2_spec. lia.
Qed.

Lemma decimalDigits_sound (n : Z) :
  (0 <= n)%Z ->
  allDigits (decimalDigits n) = true
  /\ digitsValue (decimalDigits n) = n
  /\ (1 <= String.length (decimalDigits n))%nat.
Proof.
  intros Hn. apply digitsAux_sound, decimalDigits_fuel, Hn.
Qed.

Lemma decimalDigits_small (n : Z) :
  (0 <= n < 10)%Z -> decimalDigits n = String (digitChar n) "".
Proof.
  intros Hn. unfold decimalDigits. rewrite digitsAux_S.
  replace (n <? 10)%Z with true by (symmetry; apply Z.ltb_lt; lia).
  reflexivity.
Qed.

Lemma decimalDigits_step (n : Z) :
  (10 <= n)%Z ->
  decimalDigits n = decimalDigits (n / 10) ++ String (digitChar (n mod 10)) "".
Proof.
  intros Hn. unfold decimalDigits at 1.
  pose proof (decimalDigits_fuel n ltac:(lia)) as Hf.
  rewrite digitsAux_S.
  replace (n <? 10)%Z with false by (symmetry; apply Z.ltb_ge; lia).
  destruct (div10_fuel _ n (conj Hn (proj2 Hf))) as [Hq [f' Hf']].
  rewrite Hf'. f_equal. unfold decimalDigits.
  apply digitsAux_enough.
  - rewrite <- Hf'. exact Hq.
  - apply decimalDigits_fuel. lia.
Qed.

Lemma nearestScaled_bounds (x : R) (f : nat) :
  IZR (nearestScaled x f) <= x * 10 ^ f + / 2 < IZR (nearestScaled x f) + 1.
Proof.
  unfold nearestScaled.
  destruct (base_Int_part (x * 10 ^ f + / 2)) as [H1 H2]. lra.
Qed.

Lemma nearestScaled_nonneg (x : R) (f : nat) :
  0 <= x -> (0 <= nearestScaled x f)%Z.
Proof.
  intros Hx. destruct (nearestScaled_bounds x f) as [_ H].
  assert (Hp : 0 < 10 ^ f) by (apply pow_lt; lra).
  assert (Hm : 0 <= x * 10 ^ f) by (apply Rmult_le_pos; lra).
  assert (Hz : IZR (-1) < IZR (nearestScaled x f)) by (simpl; lra).
  apply lt_IZR in Hz. lia.
Qed.

(** The value [nearestScaled x f] is the one integer within a half of
    [x * 10^f], ties going up. *)
Lemma nearestScaled_unique (x : R) (f : nat) (n : Z) :
  IZR n <= x * 10 ^ f + / 2 < IZR n + 1 -> nearestScaled x f = n.
Proof.
  intros [H1 H2]. unfold nearestScaled. symmetry.
  apply Int_part_spec. lra.
Qed.

(** What [toFixed(2)] prints for a non-negative number below [10^21]: the
    digits of the hundredths' quotient by 100, a point, and two digits. *)
Lemma toFixed_2_digits (toS : R -> string) (x : R) :
  0 <= x -> x < 10 ^ 21 ->
  toFixed toS x 2
  = decimalDigits (nearestScaled x 2 / 100) ++ "."
    ++ twoDigits (nearestScaled x 2).
Proof.
  intros H0 Hbig. unfold toFixed.
  destruct (Rlt_dec x 0) as [Hneg | _]; [lra | ].
  destruct (Rle_dec (10 ^ 21) x) as [Hge | _]; [lra | ].
  pose proof (nearestScaled_nonneg x 2 H0) as Hn.
  set (n := nearestScaled x 2) in *.
  assert (Hm : (if (n =? 0)%Z then "0" else decimalDigits n) = decimalDigits n).
  { destruct (Z.eqb_spec n 0) as [-> | _]; reflexivity. }
  rewrite Hm. clear Hm. unfold twoDigits.
  destruct (Z_lt_le_dec n 10) as [H10 | H10];
    [ | destruct (Z_lt_le_dec n 100) as [H100 | H100]].
  - rewrite (decimalDigits_small n) by lia.
    rewrite (Z.div_small n 100), (Z.mod_small n 100) by lia.
    rewrite (Z.div_small n 10), (Z.mod_small n 10) by lia.
    reflexivity.
  - rewrite (decimalDigits_step n) by lia.
    rewrite (decimalDigits_small (n / 10))
      by (split; [apply Z.div_pos | apply Z.div_lt_upper_bound]; lia).
    rewrite (Z.div_small n 100), (Z.mod_small n 100) by lia.
    reflexivity.
  - assert (Hq : (10 <= n / 10)%Z) by (apply Z.div_le_lower_bound; lia).
    rewrite (decimalDigits_step n) by lia.
    rewrite (decimalDigits_step (n / 10)) by lia.
    rewrite Z.div_div by lia.
    replace ((n / 10) mod 10)%Z with (n mod 100 / 10)%Z
      by (pose proof (Z.div_mod n 100); pose proof (Z.div_mod n 10);
          pose proof (Z.div_mod (n / 10) 10);
          pose proof (Z.div_mod (n mod 100) 10);
          pose proof (Z.mod_pos_bound n 100);
          pose proof (Z.mod_pos_bound n 10);
          pose proof (Z.mod_pos_bound (n / 10) 10);
          pose proof (Z.mod_pos_bound (n mod 100) 10); nia).
    change (10 * 10)%Z with 100%Z.
    rewrite string_app_assoc.
    set (a := decimalDigits (n / 100)).
    set (b := String (digitChar (n mod 100 / 10)) ""
              ++ String (digitChar (n mod 10)) "").
    assert (Hla : (1 <= String.length a)%nat)
      by (apply decimalDigits_sound, Z.div_pos; lia).
    assert (Hlb : String.length b = 2%nat) by reflexivity.
    rewrite string_length_app, Hlb.
    replace (String.length a + 2 <=? 2)%nat with false
      by (symmetry; apply Nat.leb_gt; lia).
    replace (String.length a + 2 - 2)%nat with (String.length a) by lia.
    rewrite substring_prefix.
    rewrite <- Hlb at 1. rewrite substring_suffix. reflexivity.
Qed.

Lemma twoDigits_sound (n : Z) :
  (0 <= n)%Z ->
  allDigits (twoDigits n) = true
  /\ String.length (twoDigits n) = 2%nat
  /\ digitsValue (twoDigits n) = (n mod 100)%Z.
Proof.
  intros Hn. unfold twoDigits, digitsValue.
  assert (Hm : (0 <= n mod 100 < 100)%Z) by (apply Z.mod_pos_bound; lia).
  destruct (digitChar_cases (n mod 100 / 10)) as [Hd1 Hv1];
    [split; [apply Z.div_pos | apply Z.div_lt_upper_bound]; lia | ].
  destruct (digitChar_cases (n mod 10)) as [Hd0 Hv0];
    [apply Z.mod_pos_bound; lia | ].
  cbn [allDigits digitsValueFrom String.length].
  rewrite Hd1, Hd0, Hv1, Hv0. repeat split.
  pose proof (Z.div_mod (n mod 100) 10).
  assert (Hmm : ((n mod 100) mod 10 = n mod 10)%Z).
  { pose proof (Z.div_mod n 100). pose proof (Z.div_mod n 10).
    pose proof (Z.mod_pos_bound n 10).
    pose proof (Z.mod_pos_bound (n mod 100) 10).
    apply (Z.mod_unique n 10 (10 * (n / 100) + n mod 100 / 10)); lia. }
  lia.
Qed.

Lemma eyeDisplayText_format (toS : R -> string) (v : R) :
  v < 10 ^ 21 -> displayFormat v (eyeDisplayText toS v).
Proof.
  intros Hbig. unfold eyeDisplayText. split.
  - intros Hpos. destruct (Rgt_dec v 0) as [_ | Hn]; [ | exfalso; lra].
    rewrite toFixed_2_digits by lra.
    pose proof (nearestScaled_nonneg v 2 ltac:(lra)) as Hn.
    exists (nearestScaled v 2). split.
    + exists (decimalDigits (nearestScaled v 2 / 100)),
        (twoDigits (nearestScaled v 2)).
      destruct (decimalDigits_sound (nearestScaled v 2 / 100)) as (Ha & Hv & Hl);
        [apply Z.div_pos; lia | ].
      destruct (twoDigits_sound _ Hn) as (Hb & Hlb & Hvb).
      repeat split; try assumption.
      rewrite Hv, Hvb. pose proof (Z.div_mod (nearestScaled v 2) 100). lia.
    + destruct (nearestScaled_bounds v 2) as [H1 H2].
      apply Rabs_le. simpl in H1, H2. lra.
  - intros Hle. destruct (Rgt_dec v 0) as [Hgt | _]; [exfalso; lra | reflexivity].
Qed.

(** C9: a slider event writes its value to the eye's variable and refreshes
    the eye's display, whose text is [-X.XX] (the value negated, two
    decimals) for a positive value and [0.00] otherwise. *)
Theorem slider_display_format (toS : R -> string) (s : Page) (v : R) :
  listening s = true -> v < 10 ^ 21 ->
  let sl := step toS (InputLeft v) s in
  let sr := step toS (InputRight v) s in
  leftDiopters (vars sl) = v
  /\ displayFormat v (diopterLeftDisplay (dom sl))
  /\ diopterLeftDisplay (dom sl)
     = getDisplayText DiopterLeftDisplay
         (dom (updateEyeDisplay toS DiopterLeftDisplay v s))
  /\ rightDiopters (vars sr) = v
  /\ displayFormat v (diopterRightDisplay (dom sr))
  /\ diopterRightDisplay (dom sr)
     = getDisplayText DiopterRightDisplay
         (dom (updateEyeDisplay toS DiopterRightDisplay v s)).
Proof.
  intros Hl Hbig sl sr. subst sl sr. unfold step. rewrite Hl.
  cbn [withVars vars setLeftDiopters setRightDiopters leftDiopters
       rightDiopters updateEyeDisplay withDom dom setDisplayText
       diopterLeftDisplay diopterRightDisplay getDisplayText].
  pose proof (eyeDisplayText_format toS v Hbig) as Hf.
  repeat split; try reflexivity; apply Hf.
Qed.

Lemma slider_display_format_witness :
  let s := setListening true (pageWithEyes 0 0 true) in
  let toS := fun _ : R => "1e+21" in
  displayFormat 2.5 (diopterLeftDisplay (dom (step toS (InputLeft 2.5) s)))
  /\ displayFormat 2.5 (diopterRightDisplay (dom (step toS (InputRight 2.5) s))).
Proof.
  intros s toS.
  destruct (slider_display_format toS s 2.5) as (_ & Hl & _ & _ & Hr & _);
    [reflexivity | lra | ].
  split; [exact Hl | exact Hr].
Defined.

(** Some displayed texts. *)
Example display_2_5 (toS : R -> string) : eyeDisplayText toS 2.5 = "-2.50".
Proof.
  unfold eyeDisplayText. destruct (Rgt_dec 2.5 0) as [_ | H]; [ | exfalso; lra].
  rewrite toFixed_2_digits by lra.
  rewrite (nearestScaled_unique 2.5 2 250) by (simpl; lra). reflexivity.
Qed.

Example display_10 (toS : R -> string) : eyeDisplayText toS 10 = "-10.00".
Proof.
  unfold eyeDisplayText. destruct (Rgt_dec 10 0) as [_ | H]; [ | exfalso; lra].
  rewrite toFixed_2_digits by lra.
  rewrite (nearestScaled_unique 10 2 1000) by (simpl; lra). reflexivity.
Qed.

Example display_0 (toS : R -> string) : eyeDisplayText toS 0 = "0.00".
Proof.
  unfold eyeDisplayText. destruct (Rgt_dec 0 0) as [H | _]; [exfalso; lra | ].
  reflexivity.
Qed.

Example display_0_004 (toS : R -> string) : eyeDisplayText toS 0.004 = "-0.00".
Proof.
  unfold eyeDisplayText.
  destruct (Rgt_dec 0.004 0) as [_ | H]; [ | exfalso; lra].
  rewrite toFixed_2_digits by lra.
  rewrite (nearestScaled_unique 0.004 2 0) by (simpl; lra). reflexivity.
Qed.

(** ** What the handlers leave alone *)

Ltac break_match :=
  repeat match goal with
         | |- context [if ?c then _ else _] => destruct c eqn:?
         | |- context [match ?x with _ => _ end] => destruct x eqn:?
         end.

Lemma fold_left_preserves {A B : Type} (f : A -> B -> A) (P : A -> Prop) :
  (forall a b, P a -> P (f a b)) ->
  forall (l : list B) (a : A), P a -> P (fold_left f l a).
Proof.
  intros Hf l. induction l as [ | b l IH]; intros a Ha; simpl;
    [assumption | apply IH, Hf, Ha].
Qed.

Lemma setupPanel_vars p n a b s : vars (setupPanel p n a b s) = vars s.
Proof. unfold setupPanel. break_match; reflexivity. Qed.

Lemma setupPanel_browser p n a b s : browser (setupPanel p n a b s) = browser s.
Proof. unfold setupPanel. break_match; reflexivity. Qed.

Lemma setupPanel_flags p n a b s :
  canvasSetupDone (setupPanel p n a b s) = canvasSetupDone s
  /\ awaitingCamera (setupPanel p n a b s) = awaitingCamera s
  /\ listening (setupPanel p n a b s) = listening s
  /\ wiring (setupPanel p n a b s) = wiring s.
Proof. unfold setupPanel. break_match; repeat split; reflexivity. Qed.

Lemma setVideo_sourceStatus i v d :
  sourceStatus (setVideo i v d) = sourceStatus d.
Proof. destruct i; reflexivity. Qed.

Lemma setPanel_sourceStatus p l d :
  sourceStatus (setPanel p l d) = sourceStatus d.
Proof. destruct p; reflexivity. Qed.

Lemma setupPanel_sourceStatus p n a b s :
  sourceStatus (dom (setupPanel p n a b s)) = sourceStatus (dom s).
Proof.
  unfold setupPanel. break_match; cbn [withDom dom];
    rewrite ?setPanel_sourceStatus, ?setVideo_sourceStatus; reflexivity.
Qed.

Lemma setupPanel_eyes p n a b s : eyes (setupPanel p n a b s) = eyes s.
Proof. unfold eyes. rewrite setupPanel_vars. reflexivity. Qed.

Lemma setupPanel_sourceState p n a b s :
  sourceState (setupPanel p n a b s) = sourceState s.
Proof.
  unfold sourceState.
  rewrite setupPanel_browser, setupPanel_sourceStatus.
  destruct (setupPanel_flags p n a b s) as (_ & -> & _). reflexivity.
Qed.

Lemma calculateBinocularBlur_eyes (s1 s2 : Page) :
  eyes s1 = eyes s2 -> calculateBinocularBlur s1 = calculateBinocularBlur s2.
Proof.
  unfold eyes, calculateBinocularBlur. intros H.
  injection H as Hl Hr Hd. rewrite Hl, Hr, Hd. reflexivity.
Qed.

Lemma render_eyes v c st s : eyes (render v c st s) = eyes s.
Proof.
  unfold render, applySimpleBlur, requestAnimationFrame.
  break_match; reflexivity.
Qed.

Lemma render_sourceState v c st s :
  sourceState (render v c st s) = sourceState s.
Proof.
  unfold render, applySimpleBlur, requestAnimationFrame.
  break_match; reflexivity.
Qed.

Lemma render_canvasSetupDone v c st s :
  canvasSetupDone (render v c st s) = canvasSetupDone s.
Proof.
  unfold render, applySimpleBlur, requestAnimationFrame.
  break_match; reflexivity.
Qed.

(** What one run of [render] paints: nothing, or one draw whose radius is
    the binocular blur of the state it ran in. *)
Lemma render_painted v c st s :
  painted (browser (render v c st s))
  = (painted (browser s)
     ++ if ((HAVE_CURRENT_DATA <=? readyState st)%nat
            && context2d (browser s))%bool
        then [mkDraw v c (calculateBinocularBlur s)] else [])%list.
Proof.
  unfold render, applySimpleBlur, requestAnimationFrame.
  destruct (HAVE_CURRENT_DATA <=? readyState st)%nat;
    destruct (context2d (browser s)); simpl;
    rewrite ?app_nil_r; reflexivity.
Qed.

Lemma setupCanvas_eyes st s : eyes (setupCanvas st s) = eyes s.
Proof.
  unfold setupCanvas, startBlurRender, createCanvas.
  break_match; try reflexivity.
  rewrite render_eyes, setupPanel_eyes. reflexivity.
Qed.

Lemma setupCanvas_sourceState st s :
  sourceState (setupCanvas st s) = sourceState s.
Proof.
  unfold setupCanvas, startBlurRender, createCanvas.
  break_match; try reflexivity.
  rewrite render_sourceState, setupPanel_sourceState. reflexivity.
Qed.

Lemma cancelAnimationFrame_eyes h s : eyes (cancelAnimationFrame h s) = eyes s.
Proof. reflexivity. Qed.

Lemma cancelAnimationFrame_sourceState h s :
  sourceState (cancelAnimationFrame h s) = sourceState s.
Proof. reflexivity. Qed.

Lemma invoke_eyes status cb s : eyes (invoke status cb s) = eyes s.
Proof. destruct cb; [apply render_eyes | apply setupCanvas_eyes]. Qed.

Lemma invoke_sourceState status cb s :
  sourceState (invoke status cb s) = sourceState s.
Proof.
  destruct cb; [apply render_sourceState | apply setupCanvas_sourceState].
Qed.

Lemma runAnimationFrame_eyes status s : eyes (runAnimationFrame status s) = eyes s.
Proof.
  unfold runAnimationFrame.
  apply (fold_left_preserves _ (fun a => eyes a = eyes s)); [ | reflexivity].
  intros a h Ha. unfold runFrameCallback.
  destruct (lookupCallback h _); [ | assumption].
  rewrite invoke_eyes, cancelAnimationFrame_eyes. assumption.
Qed.

Lemma runAnimationFrame_sourceState status s :
  sourceState (runAnimationFrame status s) = sourceState s.
Proof.
  unfold runAnimationFrame.
  apply (fold_left_preserves _ (fun a => sourceState a = sourceState s));
    [ | reflexivity].
  intros a h Ha. unfold runFrameCallback.
  destruct (lookupCallback h _); [ | assumption].
  rewrite invoke_sourceState, cancelAnimationFrame_sourceState. assumption.
Qed.

(** ** The blur radius over consecutive frames *)

Lemma frameInv_refl (s0 : Page) : frameInv (calculateBinocularBlur s0) s0 s0.
Proof.
  split; [reflexivity | ]. exists []. rewrite app_nil_r. split; constructor.
Qed.

Lemma render_frameInv v c st s0 s :
  frameInv (calculateBinocularBlur s0) s0 s ->
  frameInv (calculateBinocularBlur s0) s0 (render v c st s).
Proof.
  intros [He (new & Hp & Hall)]. split.
  - rewrite render_eyes. exact He.
  - rewrite render_painted, Hp, <- app_assoc. eexists. split; [reflexivity | ].
    apply Forall_app. split; [exact Hall | ].
    destruct (_ && _)%bool; constructor; [ | constructor].
    simpl. apply calculateBinocularBlur_eyes, He.
Qed.

Lemma frameInv_same_browser_vars blur s0 s s' :
  vars s' = vars s -> painted (browser s') = painted (browser s) ->
  frameInv blur s0 s -> frameInv blur s0 s'.
Proof.
  intros Hv Hb [He Hp]. split.
  - unfold eyes in *. rewrite Hv. exact He.
  - rewrite Hb. exact Hp.
Qed.

Lemma setupCanvas_frameInv st s0 s :
  frameInv (calculateBinocularBlur s0) s0 s ->
  frameInv (calculateBinocularBlur s0) s0 (setupCanvas st s).
Proof.
  intros H. unfold setupCanvas, startBlurRender, createCanvas.
  break_match; try exact H.
  apply render_frameInv.
  eapply frameInv_same_browser_vars; [ | | exact H].
  - rewrite setupPanel_vars. reflexivity.
  - rewrite setupPanel_browser. reflexivity.
Qed.

Lemma runAnimationFrame_frameInv status s0 s :
  frameInv (calculateBinocularBlur s0) s0 s ->
  frameInv (calculateBinocularBlur s0) s0 (runAnimationFrame status s).
Proof.
  unfold runAnimationFrame. apply fold_left_preserves.
  intros a h Ha. unfold runFrameCallback.
  destruct (lookupCallback h _) as [cb | ]; [ | exact Ha].
  assert (Hc : frameInv (calculateBinocularBlur s0) s0 (cancelAnimationFrame h a))
    by (eapply frameInv_same_browser_vars; [ | | exact Ha]; reflexivity).
  destruct cb; [apply render_frameInv | apply setupCanvas_frameInv]; exact Hc.
Qed.

Lemma frames_frameInv toS statuses s0 s :
  frameInv (calculateBinocularBlur s0) s0 s ->
  frameInv (calculateBinocularBlur s0) s0 (run toS (map AnimationFrame statuses) s).
Proof.
  unfold run. revert s.
  induction statuses as [ | status statuses IH]; intros s H; simpl;
    [exact H | apply IH, runAnimationFrame_frameInv, H].
Qed.

(** C5: the blur radius is a function of [leftDiopters], [rightDiopters]
    and [isDominantLeft] alone: two states that agree on the three give the
    same radius, whatever else differs, and over any run of consecutive
    frames the three stay as they are and every draw uses that one radius. *)
Theorem blur_radius_function_of_eyes (toS : R -> string) (s1 s2 : Page)
    (statuses : list (VideoId -> VideoStatus)) :
  leftDiopters (vars s1) = leftDiopters (vars s2) ->
  rightDiopters (vars s1) = rightDiopters (vars s2) ->
  isDominantLeft (vars s1) = isDominantLeft (vars s2) ->
  calculateBinocularBlur s1 = calculateBinocularBlur s2
  /\ let s' := run toS (map AnimationFrame statuses) s1 in
     calculateBinocularBlur s' = calculateBinocularBlur s2
     /\ exists new : list Draw,
          painted (browser s') = (painted (browser s1) ++ new)%list
          /\ Forall (fun d => drawBlurPx d = calculateBinocularBlur s2) new.
Proof.
  intros Hl Hr Hd.
  assert (H12 : calculateBinocularBlur s1 = calculateBinocularBlur s2)
    by (apply calculateBinocularBlur_eyes; unfold eyes; congruence).
  split; [exact H12 | ]. intros s'.
  destruct (frames_frameInv toS statuses s1 s1 (frameInv_refl s1))
    as [He (new & Hp & Hall)].
  fold s' in He, Hp. split.
  - rewrite <- H12. apply calculateBinocularBlur_eyes, He.
  - exists new. rewrite <- H12. split; assumption.
Qed.

Lemma blur_radius_function_of_eyes_witness :
  let toS := fun _ : R => "1e+21" in
  let canvas := mkCanvas 0 640 480 false in
  let s1 := startBlurRender Video2 canvas readyVideo (pageWithEyes 3 1 true) in
  let s2 := setListening true (pageWithEyes 3 1 true) in
  let statuses := [fun _ : VideoId => readyVideo; fun _ : VideoId => waitingVideo;
                   fun _ : VideoId => readyVideo] in
  calculateBinocularBlur s1 = calculateBinocularBlur s2
  /\ let s' := run toS (map AnimationFrame statuses) s1 in
     calculateBinocularBlur s' = calculateBinocularBlur s2
     /\ exists new : list Draw,
          painted (browser s') = (painted (browser s1) ++ new)%list
          /\ Forall (fun d => drawBlurPx d = calculateBinocularBlur s2) new.
Proof.
  intros toS canvas s1 s2 statuses.
  apply (blur_radius_function_of_eyes toS s1 s2 statuses); reflexivity.
Defined.

(** ** Falling back to the sample video *)

Lemma setDisplayText_sourceStatus i t d :
  sourceStatus (setDisplayText i t d) = sourceStatus d.
Proof. destruct i; reflexivity. Qed.

Lemma updateEyeDisplay_sourceState toS i v s :
  sourceState (updateEyeDisplay toS i v s) = sourceState s.
Proof.
  unfold sourceState, updateEyeDisplay. cbn [withDom dom browser awaitingCamera].
  rewrite setDisplayText_sourceStatus. reflexivity.
Qed.

Lemma handleVideoError_sourceState p s :
  sourceState (handleVideoError p s) = sourceState s.
Proof.
  unfold sourceState, handleVideoError. cbn [withDom dom browser awaitingCamera].
  rewrite setPanel_sourceStatus. reflexivity.
Qed.

Lemma fallbackVideo2Loaded_sourceState st s :
  sourceState (fallbackVideo2Loaded st s) = sourceState s.
Proof.
  unfold fallbackVideo2Loaded, startBlurRender, createCanvas.
  rewrite render_sourceState, setupPanel_sourceState. reflexivity.
Qed.

Lemma videoEvent_sourceState k v st s :
  sourceState (videoEvent k v st s) = sourceState s.
Proof.
  unfold videoEvent.
  destruct (wiring s), v, k; try reflexivity;
    auto using setupCanvas_sourceState, setupPanel_sourceState,
      handleVideoError_sourceState, fallbackVideo2Loaded_sourceState.
Qed.

Lemma beforeunload_sourceState s : sourceState (beforeunload s) = sourceState s.
Proof. unfold beforeunload. break_match; reflexivity. Qed.

(** Once no answer of [getUserMedia] is awaited, no event changes the
    choice of the source. *)
Lemma step_sourceState toS e s :
  awaitingCamera s = false -> sourceState (step toS e s) = sourceState s.
Proof.
  intros Haw. destruct e; unfold step; rewrite ?Haw; try reflexivity.
  - destruct (listening s); [ | reflexivity].
    rewrite updateEyeDisplay_sourceState. reflexivity.
  - destruct (listening s); [ | reflexivity].
    rewrite updateEyeDisplay_sourceState. reflexivity.
  - destruct (listening s); reflexivity.
  - destruct (listening s); reflexivity.
  - apply videoEvent_sourceState.
  - apply runAnimationFrame_sourceState.
  - apply beforeunload_sourceState.
Qed.

Lemma run_sourceState toS events s :
  awaitingCamera s = false -> sourceState (run toS events s) = sourceState s.
Proof.
  unfold run. revert s.
  induction events as [ | e events IH]; intros s Haw; simpl; [reflexivity | ].
  pose proof (step_sourceState toS e s Haw) as Hs.
  rewrite IH; [exact Hs | ].
  unfold sourceState in Hs. injection Hs as Ha _ _. congruence.
Qed.

Lemma useFallbackVideo_active s :
  awaitingCamera s = false -> fallbackActive (useFallbackVideo s).
Proof.
  intros Haw. unfold fallbackActive, useFallbackVideo, isFallbackVideo.
  cbn. repeat split.
  - discriminate.
  - eexists. repeat split.
  - eexists. repeat split.
  - apply in_or_app. right. left. reflexivity.
  - exact Haw.
Qed.

(** What one run of [render] schedules, whatever the video reports. *)
Lemma render_schedules v c st s :
  let h := N.succ (frameCallbackId (browser s)) in
  frameCallbacks (browser (render v c st s))
  = (frameCallbacks (browser s) ++ [(h, CbRender v c)])%list
  /\ frameCallbackId (browser (render v c st s)) = h
  /\ animationFrameId (vars (render v c st s)) = Some h.
Proof.
  unfold render, applySimpleBlur, requestAnimationFrame.
  break_match; repeat split; reflexivity.
Qed.

Lemma fallbackVideo2Loaded_schedules st s :
  exists (canvas : Canvas) (h : N),
    In (h, CbRender Video2 canvas)
       (frameCallbacks (browser (fallbackVideo2Loaded st s))).
Proof.
  unfold fallbackVideo2Loaded, startBlurRender, createCanvas.
  eexists. eexists.
  destruct (render_schedules Video2
              (mkCanvas (canvasCount (browser s)) (videoWidth st)
                        (videoHeight st) false) st
              (setupPanel PanelCombined
                 (CanvasNode (mkCanvas (canvasCount (browser s)) (videoWidth st)
                                       (videoHeight st) false))
                 false true (withBrowser (setCanvasCount (S (canvasCount (browser s)))) s)))
    as (-> & _ & _).
  apply in_or_app. right. left. reflexivity.
Qed.

(** C7: when the camera cannot be acquired, be it that [getUserMedia] is
    absent or that its promise is rejected for whatever reason, the page
    ends up on the bundled sample video with the status label
    [Source: Sample Video]; no stream is held, [getUserMedia] was called at
    most once and is never called again, whatever events follow, and the
    render loop that starts when the hidden video has loaded reads that
    video. *)
Theorem camera_failure_falls_back (toS : R -> string) (nav : Navigator)
    (err : CameraError) (s : Page) (events : list Event) (st : VideoStatus) :
  awaitingCamera s = false ->
  let started := init toS nav s in
  let failed :=
    if hasGetUserMedia nav then step toS (GetUserMediaRejected err) started
    else started in
  fallbackActive failed
  /\ mediaStream (vars failed) = mediaStream (vars s)
  /\ getUserMediaCalls (browser failed)
     = ((if hasGetUserMedia nav then 1 else 0) + getUserMediaCalls (browser s))%nat
  /\ (let later := run toS events failed in
      getUserMediaCalls (browser later) = getUserMediaCalls (browser failed)
      /\ sourceStatus (dom later) = "Source: Sample Video")
  /\ exists (canvas : Canvas) (h : N),
       In (h, CbRender Video2 canvas)
          (frameCallbacks
             (browser (step toS (VideoEvent Loadeddata Video2 st) failed))).
Proof.
  intros Haw started failed.
  set (s0 := setListening true
               (updateEyeDisplay toS DiopterRightDisplay 0
                  (updateEyeDisplay toS DiopterLeftDisplay 0 s))).
  assert (Haw0 : awaitingCamera s0 = false) by exact Haw.
  assert (Hfailed :
            exists s1, failed = useFallbackVideo s1
                       /\ awaitingCamera s1 = false
                       /\ vars s1 = vars s
                       /\ getUserMediaCalls (browser s1)
                          = ((if hasGetUserMedia nav then 1 else 0)
                             + getUserMediaCalls (browser s))%nat).
  { subst failed started. unfold init. fold s0.
    destruct (hasGetUserMedia nav).
    - exists (setAwaitingCamera false (initCamera s0)).
      repeat split; reflexivity.
    - exists s0. repeat split; try reflexivity. exact Haw0. }
  destruct Hfailed as (s1 & Hf & Haw1 & Hv1 & Hc1).
  pose proof (useFallbackVideo_active s1 Haw1) as Hact.
  rewrite <- Hf in Hact.
  split; [exact Hact | ].
  split; [rewrite Hf, <- Hv1; reflexivity | ].
  split; [rewrite Hf, <- Hc1; reflexivity | ].
  split.
  - intros later.
    destruct Hact as (Hstatus & _ & _ & _ & _ & _ & Hawf).
    pose proof (run_sourceState toS events failed Hawf) as Hs.
    unfold sourceState in Hs. fold later in Hs.
    injection Hs as _ Hcalls Hst.
    split; [exact Hcalls | rewrite Hst; exact Hstatus].
  - destruct Hact as (_ & _ & Hw & _).
    unfold step, videoEvent. rewrite Hw.
    apply fallbackVideo2Loaded_schedules.
Qed.

Lemma camera_failure_falls_back_witness :
  let toS := fun _ : R => "1e+21" in
  let s := loadedPage blankDocument true in
  fallbackActive
    (step toS (GetUserMediaRejected NotAllowedError)
       (init toS (mkNavigator (Some true)) s))
  /\ fallbackActive
       (step toS (GetUserMediaRejected NotFoundError)
          (init toS (mkNavigator (Some true)) s))
  /\ fallbackActive (init toS (mkNavigator None) s)
  /\ fallbackActive (init toS (mkNavigator (Some false)) s).
Proof.
  intros toS s.
  split; [ | split; [ | split]].
  - apply (camera_failure_falls_back toS (mkNavigator (Some true))
             NotAllowedError s [] readyVideo). reflexivity.
  - apply (camera_failure_falls_back toS (mkNavigator (Some true))
             NotFoundError s [] readyVideo). reflexivity.
  - apply (camera_failure_falls_back toS (mkNavigator None)
             NotAllowedError s [] readyVideo). reflexivity.
  - apply (camera_failure_falls_back toS (mkNavigator (Some false))
             NotAllowedError s [] readyVideo). reflexivity.
Defined.

(** ** The render loop *)

Lemma grows_refl s : grows s s.
Proof.
  exists []. rewrite app_nil_r.
  split; [reflexivity | ]. split; [lia | ]. split; [constructor | ].
  intros h [].
Qed.

Lemma grows_same_callbacks s s' :
  callbacks s' = callbacks s ->
  frameCallbackId (browser s') = frameCallbackId (browser s) ->
  grows s s'.
Proof.
  intros Hc Hi. exists []. rewrite Hc, Hi, app_nil_r.
  split; [reflexivity | ]. split; [lia | ]. split; [constructor | ].
  intros h [].
Qed.

Lemma grows_trans s1 s2 s3 : grows s1 s2 -> grows s2 s3 -> grows s1 s3.
Proof.
  intros (n1 & Hc1 & Hi1 & Hd1 & Hb1) (n2 & Hc2 & Hi2 & Hd2 & Hb2).
  exists (n1 ++ n2)%list. rewrite Hc2, Hc1, app_assoc.
  split; [reflexivity | ]. split; [lia | ]. rewrite map_app. split.
  - apply NoDup_app; [assumption | assumption | ].
    intros h H1 H2. specialize (Hb1 h H1). specialize (Hb2 h H2). lia.
  - intros h Hin. apply in_app_or in Hin. destruct Hin as [H | H].
    + specialize (Hb1 h H). lia.
    + specialize (Hb2 h H). lia.
Qed.

Lemma grows_In s s' e : grows s s' -> In e (callbacks s) -> In e (callbacks s').
Proof.
  intros (new & Hc & _) Hin. rewrite Hc. apply in_or_app. left. exact Hin.
Qed.

Lemma grows_wf s s' : wfCallbacks s -> grows s s' -> wfCallbacks s'.
Proof.
  intros [Hnd Hb] (new & Hc & Hi & Hd & Hn). unfold wfCallbacks.
  rewrite Hc, map_app. split.
  - apply NoDup_app; [assumption | assumption | ].
    intros h H1 H2. specialize (Hb h H1). specialize (Hn h H2). lia.
  - intros h Hin. apply in_app_or in Hin. destruct Hin as [H | H].
    + specialize (Hb h H). lia.
    + specialize (Hn h H). lia.
Qed.

Lemma render_grows v c st s : grows s (render v c st s).
Proof.
  destruct (render_schedules v c st s) as (Hc & Hi & _).
  exists [(N.succ (frameCallbackId (browser s)), CbRender v c)].
  unfold callbacks. rewrite Hc, Hi. split; [reflexivity | ].
  split; [lia | ]. split.
  - simpl. constructor; [intros [] | constructor].
  - simpl. intros h [<- | []]. lia.
Qed.

Lemma requestAnimationFrame_grows cb s : grows s (snd (requestAnimationFrame cb s)).
Proof.
  exists [(N.succ (frameCallbackId (browser s)), cb)].
  unfold callbacks. cbn. split; [reflexivity | ].
  split; [lia | ]. split.
  - constructor; [intros [] | constructor].
  - intros h [<- | []]. lia.
Qed.

Lemma setupCanvas_grows st s : grows s (setupCanvas st s).
Proof.
  unfold setupCanvas, startBlurRender, createCanvas.
  break_match.
  - apply grows_refl.
  - eapply grows_trans; [ | apply render_grows].
    apply grows_same_callbacks; unfold callbacks;
      rewrite setupPanel_browser; reflexivity.
  - apply requestAnimationFrame_grows.
Qed.

Lemma fallbackVideo2Loaded_grows st s : grows s (fallbackVideo2Loaded st s).
Proof.
  unfold fallbackVideo2Loaded, startBlurRender, createCanvas.
  eapply grows_trans; [ | apply render_grows].
  apply grows_same_callbacks; unfold callbacks;
      rewrite setupPanel_browser; reflexivity.
Qed.

Lemma invoke_grows status cb s : grows s (invoke status cb s).
Proof. destruct cb; [apply render_grows | apply setupCanvas_grows]. Qed.

Lemma cancel_callbacks h s :
  callbacks (cancelAnimationFrame h s)
  = filter (fun e => negb (fst e =? h)%N) (callbacks s).
Proof. reflexivity. Qed.

Lemma In_cancel h s h' cb :
  In (h', cb) (callbacks (cancelAnimationFrame h s))
  <-> In (h', cb) (callbacks s) /\ h' <> h.
Proof.
  rewrite cancel_callbacks, filter_In. simpl.
  rewrite negb_true_iff, N.eqb_neq. reflexivity.
Qed.

Lemma map_fst_filter_incl (p : N * Callback -> bool) (l : list (N * Callback)) :
  NoDup (map fst l) ->
  NoDup (map fst (filter p l))
  /\ forall h, In h (map fst (filter p l)) -> In h (map fst l).
Proof.
  induction l as [ | e l IH]; intros Hnd; simpl; [split; [constructor | tauto] | ].
  inversion Hnd as [ | x xs Hnotin Hnd']; subst.
  destruct (IH Hnd') as [IH1 IH2].
  destruct (p e); simpl.
  - split; [constructor; [intros H; apply Hnotin, IH2, H | exact IH1] | ].
    intros h [H | H]; [left; exact H | right; apply IH2, H].
  - split; [exact IH1 | intros h H; right; apply IH2, H].
Qed.

Lemma cancel_wf h s : wfCallbacks s -> wfCallbacks (cancelAnimationFrame h s).
Proof.
  intros [Hnd Hb]. unfold wfCallbacks. rewrite cancel_callbacks.
  destruct (map_fst_filter_incl (fun e => negb (fst e =? h)%N) _ Hnd) as [H1 H2].
  split; [exact H1 | ]. intros h' Hin. apply Hb, H2, Hin.
Qed.

Lemma lookupCallback_None h l :
  lookupCallback h l = None -> forall cb, ~ In (h, cb) l.
Proof.
  induction l as [ | [h' cb'] l IH]; simpl; intros Hl cb; [tauto | ].
  destruct (N.eqb_spec h' h) as [-> | Hne]; [discriminate | ].
  intros [H | H]; [inversion H; subst; apply Hne; reflexivity | ].
  exact (IH Hl cb H).
Qed.

Lemma lookupCallback_In h l cb :
  lookupCallback h l = Some cb -> In (h, cb) l.
Proof.
  induction l as [ | [h' cb'] l IH]; simpl; [discriminate | ].
  destruct (N.eqb_spec h' h) as [-> | Hne].
  - intros H. inversion H; subst. left. reflexivity.
  - intros H. right. apply IH, H.
Qed.

Lemma lookupCallback_NoDup h l cb :
  NoDup (map fst l) -> In (h, cb) l -> lookupCallback h l = Some cb.
Proof.
  induction l as [ | [h' cb'] l IH]; simpl; intros Hnd Hin; [tauto | ].
  inversion Hnd as [ | x xs Hnotin Hnd']; subst.
  destruct Hin as [H | H].
  - inversion H; subst. rewrite N.eqb_refl. reflexivity.
  - destruct (N.eqb_spec h' h) as [-> | Hne]; [ | apply IH; assumption].
    exfalso. apply Hnotin. apply (in_map fst) in H. exact H.
Qed.

(** One callback of the frame's snapshot: the callbacks stay well formed,
    and the render callback is still scheduled, either untouched or anew
    under a handle above the snapshot's. *)
Lemma runFrameCallback_keeps_render status v c h0 hs K s :
  wfCallbacks s -> (K <= frameCallbackId (browser s))%N ->
  (exists h, In (h, CbRender v c) (callbacks s) /\ (In h (h0 :: hs) \/ (K < h)%N)) ->
  let s1 := runFrameCallback status s h0 in
  wfCallbacks s1 /\ (K <= frameCallbackId (browser s1))%N
  /\ exists h, In (h, CbRender v c) (callbacks s1) /\ (In h hs \/ (K < h)%N).
Proof.
  intros Hwf HK (h & Hin & Hh) s1. subst s1. unfold runFrameCallback.
  destruct (lookupCallback h0 (frameCallbacks (browser s))) as [cb | ] eqn:Hl.
  - pose proof (cancel_wf h0 s Hwf) as Hwfc.
    pose proof (invoke_grows status cb (cancelAnimationFrame h0 s)) as Hg.
    split; [eapply grows_wf; eassumption | ].
    split; [destruct Hg as (_ & _ & Hi & _); cbn in Hi; lia | ].
    destruct (N.eq_dec h h0) as [-> | Hne].
    + assert (Hcb : cb = CbRender v c).
      { destruct Hwf as [Hnd _].
        pose proof (lookupCallback_NoDup h0 _ _ Hnd Hin) as Hl'.
        unfold callbacks in Hl'. congruence. }
      subst cb. cbn [invoke].
      destruct (render_schedules v c (status v) (cancelAnimationFrame h0 s))
        as (Hc & _ & _).
      exists (N.succ (frameCallbackId (browser s))).
      unfold callbacks. rewrite Hc. split.
      * apply in_or_app. right. left. reflexivity.
      * right. lia.
    + exists h. split.
      * apply (grows_In _ _ _ Hg). apply In_cancel. split; assumption.
      * destruct Hh as [[Heq | Hin'] | Hlt];
          [congruence | left; exact Hin' | right; exact Hlt].
  - split; [exact Hwf | ]. split; [exact HK | ].
    exists h. split; [exact Hin | ].
    destruct Hh as [[Heq | Hin'] | Hlt];
      [ | left; exact Hin' | right; exact Hlt].
    subst h0. exfalso. exact (lookupCallback_None _ _ Hl _ Hin).
Qed.

Lemma frame_fold_keeps_render status v c hs :
  forall (K : N) (s : Page),
    wfCallbacks s -> (K <= frameCallbackId (browser s))%N ->
    (exists h, In (h, CbRender v c) (callbacks s) /\ (In h hs \/ (K < h)%N)) ->
    let s' := fold_left (runFrameCallback status) hs s in
    wfCallbacks s' /\ exists h, In (h, CbRender v c) (callbacks s') /\ (K < h)%N.
Proof.
  induction hs as [ | h0 hs IH]; intros K s Hwf HK Hex; simpl.
  - split; [exact Hwf | ]. destruct Hex as (h & Hin & [[] | Hlt]).
    exists h. split; assumption.
  - destruct (runFrameCallback_keeps_render status v c h0 hs K s Hwf HK Hex)
      as (Hwf1 & HK1 & Hex1).
    apply (IH K _ Hwf1 HK1 Hex1).
Qed.

(** A whole frame: the render callback ran once and is scheduled again. *)
Lemma runAnimationFrame_keeps_render status v c s :
  wfCallbacks s -> renderPending v c s ->
  let s' := runAnimationFrame status s in
  wfCallbacks s'
  /\ exists h, In (h, CbRender v c) (callbacks s')
               /\ (frameCallbackId (browser s) < h)%N.
Proof.
  intros Hwf [h Hin]. unfold runAnimationFrame.
  apply frame_fold_keeps_render.
  - exact Hwf.
  - lia.
  - exists h. split; [exact Hin | left]. apply (in_map fst) in Hin. exact Hin.
Qed.

Lemma updateEyeDisplay_browser toS i v s :
  browser (updateEyeDisplay toS i v s) = browser s.
Proof. reflexivity. Qed.

Lemma initCameraFulfilled_browser stream s :
  browser (initCameraFulfilled stream s) = browser s.
Proof.
  unfold initCameraFulfilled.
  cbn [withDom setWiring setCanvasSetupDone browser].
  rewrite setupPanel_browser. reflexivity.
Qed.

Lemma videoEvent_grows k v st s : grows s (videoEvent k v st s).
Proof.
  unfold videoEvent.
  destruct (wiring s), v, k; try apply grows_refl;
    try apply setupCanvas_grows; try apply fallbackVideo2Loaded_grows;
    try (apply grows_same_callbacks; unfold callbacks;
         rewrite ?setupPanel_browser; reflexivity).
Qed.

(** Every event but a frame and the unloading adds callbacks at most. *)
Lemma step_grows toS e s :
  e <> Beforeunload ->
  (forall status, e <> AnimationFrame status) ->
  grows s (step toS e s).
Proof.
  intros Hu Hf.
  destruct e as [x | x | | | stream | err | k v st | status | ]; unfold step.
  - destruct (listening s); [ | apply grows_refl].
    apply grows_same_callbacks; reflexivity.
  - destruct (listening s); [ | apply grows_refl].
    apply grows_same_callbacks; reflexivity.
  - destruct (listening s); [ | apply grows_refl].
    apply grows_same_callbacks; reflexivity.
  - destruct (listening s); [ | apply grows_refl].
    apply grows_same_callbacks; reflexivity.
  - destruct (awaitingCamera s); [ | apply grows_refl].
    apply grows_same_callbacks; unfold callbacks;
      rewrite initCameraFulfilled_browser; reflexivity.
  - destruct (awaitingCamera s); [ | apply grows_refl].
    apply grows_same_callbacks; reflexivity.
  - apply videoEvent_grows.
  - exfalso. apply (Hf status). reflexivity.
  - exfalso. apply Hu. reflexivity.
Qed.

Lemma step_keeps_render toS v c e s :
  e <> Beforeunload -> wfCallbacks s -> renderPending v c s ->
  wfCallbacks (step toS e s) /\ renderPending v c (step toS e s).
Proof.
  intros Hu Hwf Hp.
  destruct e as [ | | | | | | | status | ];
    try (match goal with
         | |- context [step toS ?e s] =>
             assert (Hg : grows s (step toS e s))
               by (apply step_grows; intros; discriminate)
         end;
         split; [exact (grows_wf _ _ Hwf Hg) | ];
         destruct Hp as [h Hin]; exists h; exact (grows_In _ _ _ Hg Hin)).
  - cbn [step].
    destruct (runAnimationFrame_keeps_render status v c s Hwf Hp)
      as (Hwf' & h & Hin & _).
    split; [exact Hwf' | exists h; exact Hin].
  - exfalso. apply Hu. reflexivity.
Qed.

Lemma run_keeps_render toS v c events :
  forall s,
    Forall (fun e => e <> Beforeunload) events ->
    wfCallbacks s -> renderPending v c s ->
    wfCallbacks (run toS events s) /\ renderPending v c (run toS events s).
Proof.
  unfold run.
  induction events as [ | e events IH]; intros s Hall Hwf Hp; simpl;
    [split; assumption | ].
  inversion Hall as [ | x xs He Hall']; subst.
  destruct (step_keeps_render toS v c e s He Hwf Hp) as [Hwf1 Hp1].
  apply IH; assumption.
Qed.

Lemma setupCanvas_done st s : canvasSetupDone s = true -> setupCanvas st s = s.
Proof. intros H. unfold setupCanvas. rewrite H. reflexivity. Qed.

Lemma cancel_singleLoop v c h0 s :
  singleLoop v c s -> singleLoop v c (cancelAnimationFrame h0 s).
Proof.
  intros (h & Hid & Hnz & Hall). exists h.
  split; [exact Hid | ]. split; [exact Hnz | ].
  intros h' cb Hin. apply In_cancel in Hin. apply (Hall h' cb), Hin.
Qed.

Lemma runFrameCallback_singleLoop status v c s h0 :
  singleLoop v c s -> singleLoop v c (runFrameCallback status s h0).
Proof.
  intros Hs. unfold runFrameCallback.
  destruct (lookupCallback h0 (frameCallbacks (browser s))) as [cb | ] eqn:Hl;
    [ | exact Hs].
  apply lookupCallback_In in Hl.
  destruct Hs as (h & Hid & Hnz & Hall).
  destruct (Hall h0 cb Hl) as [[-> ->] | [-> Hdone]].
  - cbn [invoke].
    destruct (render_schedules v c (status v) (cancelAnimationFrame h s))
      as (Hc & _ & Hid').
    exists (N.succ (frameCallbackId (browser (cancelAnimationFrame h s)))).
    split; [exact Hid' | ]. split; [lia | ].
    intros h' cb. unfold callbacks. rewrite Hc. intros Hin.
    apply in_app_or in Hin. destruct Hin as [Hin | [Hin | []]].
    + apply In_cancel in Hin. destruct Hin as [Hin Hne].
      destruct (Hall h' cb Hin) as [[Heq _] | [Hcb Hd]]; [contradiction | ].
      right. split; [exact Hcb | ].
      rewrite render_canvasSetupDone. exact Hd.
    + inversion Hin; subst. left. split; reflexivity.
  - cbn [invoke]. rewrite setupCanvas_done by exact Hdone.
    apply cancel_singleLoop. exists h. repeat split; assumption.
Qed.

Lemma cancel_quiet h0 s : quiet s -> quiet (cancelAnimationFrame h0 s).
Proof.
  intros Hq h cb Hin. apply In_cancel in Hin. apply (Hq h cb), Hin.
Qed.

Lemma runFrameCallback_quiet status s h0 :
  quiet s ->
  quiet (runFrameCallback status s h0)
  /\ painted (browser (runFrameCallback status s h0)) = painted (browser s).
Proof.
  intros Hq. unfold runFrameCallback.
  destruct (lookupCallback h0 (frameCallbacks (browser s))) as [cb | ] eqn:Hl;
    [ | split; [exact Hq | reflexivity]].
  apply lookupCallback_In in Hl. destruct (Hq h0 cb Hl) as [-> Hdone].
  cbn [invoke]. rewrite setupCanvas_done by exact Hdone.
  split; [apply cancel_quiet, Hq | reflexivity].
Qed.

Lemma runAnimationFrame_singleLoop status v c s :
  singleLoop v c s -> singleLoop v c (runAnimationFrame status s).
Proof.
  unfold runAnimationFrame. apply fold_left_preserves.
  intros a h. apply runFrameCallback_singleLoop.
Qed.

Lemma runAnimationFrame_quiet status s :
  quiet s ->
  quiet (runAnimationFrame status s)
  /\ painted (browser (runAnimationFrame status s)) = painted (browser s).
Proof.
  intros Hq. unfold runAnimationFrame.
  apply (fold_left_preserves _
           (fun a => quiet a /\ painted (browser a) = painted (browser s)));
    [ | split; [exact Hq | reflexivity]].
  intros a h [Ha Hp].
  destruct (runFrameCallback_quiet status a h Ha) as [H1 H2].
  split; [exact H1 | congruence].
Qed.

(** Sliders and buttons touch neither the callbacks nor the canvas. *)
Lemma control_event_untouched toS e s :
  isRunningEvent e = true -> (forall status, e <> AnimationFrame status) ->
  browser (step toS e s) = browser s
  /\ canvasSetupDone (step toS e s) = canvasSetupDone s
  /\ animationFrameId (vars (step toS e s)) = animationFrameId (vars s).
Proof.
  intros He Hf.
  destruct e as [x | x | | | stream | err | k v st | status | ];
    try discriminate He; unfold step;
    try (destruct (listening s); repeat split; reflexivity).
  exfalso. apply (Hf status). reflexivity.
Qed.

Lemma step_singleLoop toS v c e s :
  isRunningEvent e = true -> singleLoop v c s -> singleLoop v c (step toS e s).
Proof.
  intros He Hs.
  destruct e as [x | x | | | stream | err | k v' st | status | ] eqn:Ee;
    try discriminate He;
    try (destruct (control_event_untouched toS e s) as (Hb & Hd & Hid);
         [subst e; reflexivity | subst e; intros; discriminate | ];
         subst e; destruct Hs as (h & Hh & Hnz & Hall); exists h;
         unfold callbacks in *; rewrite Hb, Hd, Hid;
         repeat split; assumption).
  apply runAnimationFrame_singleLoop, Hs.
Qed.

Lemma step_quiet toS e s :
  isRunningEvent e = true -> quiet s ->
  quiet (step toS e s)
  /\ painted (browser (step toS e s)) = painted (browser s).
Proof.
  intros He Hq.
  destruct e as [x | x | | | stream | err | k v' st | status | ] eqn:Ee;
    try discriminate He;
    try (destruct (control_event_untouched toS e s) as (Hb & Hd & Hid);
         [subst e; reflexivity | subst e; intros; discriminate | ];
         subst e; unfold quiet, callbacks in *; rewrite Hb, Hd;
         split; [exact Hq | reflexivity]).
  apply runAnimationFrame_quiet, Hq.
Qed.

Lemma run_singleLoop toS v c events :
  forall s, forallb isRunningEvent events = true ->
            singleLoop v c s -> singleLoop v c (run toS events s).
Proof.
  unfold run.
  induction events as [ | e events IH]; intros s Hall Hs; simpl; [exact Hs | ].
  simpl in Hall. apply andb_true_iff in Hall. destruct Hall as [He Hall].
  apply IH; [exact Hall | apply step_singleLoop; assumption].
Qed.

Lemma run_quiet toS events :
  forall s, forallb isRunningEvent events = true -> quiet s ->
            quiet (run toS events s)
            /\ painted (browser (run toS events s)) = painted (browser s).
Proof.
  unfold run.
  induction events as [ | e events IH]; intros s Hall Hq; simpl;
    [split; [exact Hq | reflexivity] | ].
  simpl in Hall. apply andb_true_iff in Hall. destruct Hall as [He Hall].
  destruct (step_quiet toS e s He Hq) as [Hq1 Hp1].
  destruct (IH _ Hall Hq1) as [Hq2 Hp2].
  split; [exact Hq2 | congruence].
Qed.

(** The teardown cancels the one loop. *)
Lemma beforeunload_quiet v c s : singleLoop v c s -> quiet (beforeunload s).
Proof.
  intros (h & Hid & Hnz & Hall). unfold beforeunload. rewrite Hid.
  destruct (N.eqb_spec h 0) as [Hz | _]; [contradiction | ].
  assert (Hq : quiet (cancelAnimationFrame h s)).
  { intros h' cb Hin. apply In_cancel in Hin. destruct Hin as [Hin Hne].
    destruct (Hall h' cb Hin) as [[Heq _] | H]; [contradiction | exact H]. }
  cbn [cancelAnimationFrame withBrowser vars].
  destruct (mediaStream (vars s)); exact Hq.
Qed.

Lemma quiet_no_render v c s : quiet s -> ~ renderPending v c s.
Proof.
  intros Hq [h Hin]. destruct (Hq h _ Hin) as [Hcb _]. discriminate Hcb.
Qed.

(** C6: every run of [render] schedules itself again, whatever
    [readyState] the video reports; so once the loop is scheduled, every
    frame runs it and leaves it scheduled under a new handle, and it stays
    scheduled through any events other than the unloading of the page.  The
    [beforeunload] listener is what stops it: it cancels the loop
    [animationFrameId] names, after which no frame paints any more. *)
Theorem render_loop_stops_only_at_teardown (toS : R -> string)
    (v : VideoId) (c : Canvas) (s : Page) :
  wfCallbacks s -> renderPending v c s ->
  (forall (st : VideoStatus) (s0 : Page),
      let h := N.succ (frameCallbackId (browser s0)) in
      In (h, CbRender v c) (callbacks (render v c st s0))
      /\ animationFrameId (vars (render v c st s0)) = Some h)
  /\ (forall status : VideoId -> VideoStatus,
         exists h : N,
           In (h, CbRender v c) (callbacks (runAnimationFrame status s))
           /\ (frameCallbackId (browser s) < h)%N)
  /\ (forall events : list Event,
         Forall (fun e => e <> Beforeunload) events ->
         renderPending v c (run toS events s))
  /\ (singleLoop v c s ->
      forall events later : list Event,
        forallb isRunningEvent events = true ->
        forallb isRunningEvent later = true ->
        let stopped := step toS Beforeunload (run toS events s) in
        ~ renderPending v c stopped
        /\ ~ renderPending v c (run toS later stopped)
        /\ painted (browser (run toS later stopped)) = painted (browser stopped)).
Proof.
  intros Hwf Hp. split; [ | split; [ | split]].
  - intros st s0 h.
    destruct (render_schedules v c st s0) as (Hc & _ & Hid).
    split; [ | exact Hid].
    unfold callbacks. rewrite Hc. apply in_or_app. right. left. reflexivity.
  - intros status.
    apply (runAnimationFrame_keeps_render status v c s Hwf Hp).
  - intros events Hall.
    apply (run_keeps_render toS v c events s Hall Hwf Hp).
  - intros Hs events later He Hl stopped.
    assert (Hq : quiet stopped).
    { subst stopped. cbn [step]. apply (beforeunload_quiet v c).
      apply run_singleLoop; assumption. }
    destruct (run_quiet toS later stopped Hl Hq) as [Hq' Hpaint].
    split; [apply quiet_no_render, Hq | ].
    split; [apply quiet_no_render, Hq' | exact Hpaint].
Qed.

Lemma streamingFallback_callbacks toS :
  callbacks (streamingFallback toS)
  = [(1%N, CbRender Video2 (mkCanvas 0 640 480 false))]
  /\ frameCallbackId (browser (streamingFallback toS)) = 1%N
  /\ animationFrameId (vars (streamingFallback toS)) = Some 1%N.
Proof. repeat split. Qed.

Lemma render_loop_stops_only_at_teardown_witness :
  let toS := fun _ : R => "1e+21" in
  let c := mkCanvas 0 640 480 false in
  let frames :=
    [AnimationFrame (fun _ => waitingVideo); InputLeft 3;
     AnimationFrame (fun _ => readyVideo); ClickDominantRight;
     AnimationFrame (fun _ => waitingVideo)] in
  renderPending Video2 c (run toS frames (streamingFallback toS))
  /\ ~ renderPending Video2 c
         (step toS Beforeunload (run toS frames (streamingFallback toS))).
Proof.
  intros toS c frames.
  destruct (streamingFallback_callbacks toS) as (Hc & Hi & Ha).
  assert (Hwf : wfCallbacks (streamingFallback toS)).
  { unfold wfCallbacks. rewrite Hc, Hi. split.
    - constructor; [intros [] | constructor].
    - intros h [<- | []]. discriminate. }
  assert (Hp : renderPending Video2 c (streamingFallback toS)).
  { unfold renderPending. rewrite Hc. exists 1%N. left. reflexivity. }
  assert (Hs : singleLoop Video2 c (streamingFallback toS)).
  { unfold singleLoop. rewrite Hc, Ha. exists 1%N.
    split; [reflexivity | ]. split; [discriminate | ].
    intros h' cb [Heq | []]. inversion Heq. left. split; reflexivity. }
  destruct (render_loop_stops_only_at_teardown toS Video2 c
              (streamingFallback toS) Hwf Hp) as (_ & _ & H3 & H4).
  split.
  - apply H3. repeat constructor; discriminate.
  - destruct (H4 Hs frames [] eq_refl eq_refl) as (Hstopped & _ & _).
    exact Hstopped.
Defined.

(** ** Two sessions, run *)

Example streamingFallback_paints (toS : R -> string) :
  let s := run toS [AnimationFrame (fun _ => waitingVideo);
                    AnimationFrame (fun _ => readyVideo);
                    Beforeunload;
                    AnimationFrame (fun _ => readyVideo)]
               (streamingFallback toS) in
  map drawVideo (painted (browser s)) = [Video2; Video2]
  /\ callbacks s = []
  /\ sourceStatus (dom s) = "Source: Sample Video".
Proof. lazy. repeat split. Qed.

Example cameraRun_state (toS : R -> string) :
  sourceStatus (dom (cameraRun toS)) = "Source: Device Camera"
  /\ map fst (callbacks (cameraRun toS)) = [6%N]
  /\ animationFrameId (vars (cameraRun toS)) = Some 6%N
  /\ map drawVideo (painted (browser (cameraRun toS))) = [Video1; Video1; Video1]
  /\ canvasSetupDone (cameraRun toS) = true
  /\ mediaStream (vars (step toS Beforeunload (cameraRun toS))) = Some [false]
  /\ callbacks (step toS Beforeunload (cameraRun toS)) = [].
Proof. lazy. repeat split. Qed.

(** * Further properties of the script *)

(** ** The weighted diopters *)

Lemma weightedDiopters_eq (s : Page) :
  weightedDiopters s
  = (if isDominantLeft (vars s) then leftDiopters (vars s)
     else rightDiopters (vars s)) * 0.65
    + (if isDominantLeft (vars s) then rightDiopters (vars s)
       else leftDiopters (vars s)) * 0.35.
Proof. unfold weightedDiopters, DOMINANT_WEIGHT. lra. Qed.

(** ** Sliders, buttons and their displays *)

(** The document after [setupPanel]: one panel is set, and before that at
    most one video was released. *)
Lemma setupPanel_dom p n a b s :
  exists (l : list Node) (d' : Dom),
    dom (setupPanel p n a b s) = setPanel p l d'
    /\ (d' = dom s
        \/ exists i, find isVideoNode
                       (removeFirst isCanvasNode
                          (removeFirst isLoadingState (getPanel p (dom s))))
                     = Some (VideoNode i)
                     /\ b = false
                     /\ d' = setVideo i (option_map releaseVideo (getVideo i (dom s)))
                                     (dom s)).
Proof.
  unfold setupPanel.
  destruct b; cbn [withDom dom].
  - eexists. eexists. split; [reflexivity | left; reflexivity].
  - destruct (find isVideoNode _) as [[t | i | c | cl tx] | ] eqn:Hf;
      cbn [withDom dom]; eexists; eexists;
      (split; [reflexivity | ]);
      try (left; reflexivity).
    right. exists i. repeat split; reflexivity.
Qed.

Lemma setupPanel_dom_controls p n a b s :
  diopterLeftDisplay (dom (setupPanel p n a b s)) = diopterLeftDisplay (dom s)
  /\ diopterRightDisplay (dom (setupPanel p n a b s)) = diopterRightDisplay (dom s)
  /\ dominantLeftActive (dom (setupPanel p n a b s)) = dominantLeftActive (dom s)
  /\ dominantRightActive (dom (setupPanel p n a b s)) = dominantRightActive (dom s).
Proof.
  destruct (setupPanel_dom p n a b s) as (l & d' & -> & [-> | (i & _ & _ & ->)]).
  - destruct p; repeat split; reflexivity.
  - destruct p, i; repeat split; reflexivity.
Qed.

Lemma setupPanel_controls p n a b s :
  controls (setupPanel p n a b s) = controls s.
Proof.
  unfold controls. rewrite setupPanel_vars.
  destruct (setupPanel_dom_controls p n a b s) as (-> & -> & -> & ->).
  reflexivity.
Qed.

Lemma render_controls v c st s : controls (render v c st s) = controls s.
Proof.
  unfold render, applySimpleBlur, requestAnimationFrame.
  break_match; reflexivity.
Qed.

Lemma setupCanvas_controls st s : controls (setupCanvas st s) = controls s.
Proof.
  unfold setupCanvas, startBlurRender, createCanvas.
  break_match; try reflexivity.
  rewrite render_controls, setupPanel_controls. reflexivity.
Qed.

Lemma runAnimationFrame_controls status s :
  controls (runAnimationFrame status s) = controls s.
Proof.
  unfold runAnimationFrame.
  apply (fold_left_preserves _ (fun a => controls a = controls s));
    [ | reflexivity].
  intros a h Ha. unfold runFrameCallback.
  destruct (lookupCallback h _) as [cb | ]; [ | assumption].
  destruct cb; cbn [invoke];
    rewrite ?render_controls, ?setupCanvas_controls; exact Ha.
Qed.

Lemma videoEvent_controls k v st s : controls (videoEvent k v st s) = controls s.
Proof.
  unfold videoEvent, fallbackVideo2Loaded, handleVideoError, startBlurRender,
    createCanvas.
  destruct (wiring s), v, k; try reflexivity;
    rewrite ?render_controls, ?setupCanvas_controls, ?setupPanel_controls;
    reflexivity.
Qed.

Lemma beforeunload_controls s : controls (beforeunload s) = controls s.
Proof. unfold beforeunload. break_match; reflexivity. Qed.

Lemma initCameraFulfilled_controls stream s :
  controls (initCameraFulfilled stream s) = controls s.
Proof.
  unfold initCameraFulfilled.
  change (controls (setupPanel PanelClear (VideoNode Video1) true false
                      (withDom (setVideo Video1 (Some (createVideoElement StreamSrc true)))
                         (withVars (setMediaStream (Some stream)) s)))
          = controls s).
  rewrite setupPanel_controls. reflexivity.
Qed.

(** Every event that is neither a slider nor a button leaves the controls
    and their displays as they are. *)
Lemma step_controls toS e s :
  isControlEvent e = false -> controls (step toS e s) = controls s.
Proof.
  intros He.
  destruct e as [x | x | | | stream | err | k v st | status | ];
    try discriminate He; unfold step.
  - destruct (awaitingCamera s); [ | reflexivity].
    rewrite initCameraFulfilled_controls. reflexivity.
  - destruct (awaitingCamera s); reflexivity.
  - apply videoEvent_controls.
  - apply runAnimationFrame_controls.
  - apply beforeunload_controls.
Qed.

Lemma step_listening toS e s : listening (step toS e s) = listening s.
Proof.
  assert (Hsp : forall p n a b s0, listening (setupPanel p n a b s0) = listening s0)
    by (intros; apply setupPanel_flags).
  assert (Hr : forall v c st s0, listening (render v c st s0) = listening s0)
    by (intros; unfold render, applySimpleBlur, requestAnimationFrame;
        break_match; reflexivity).
  assert (Hsc : forall st s0, listening (setupCanvas st s0) = listening s0).
  { intros. unfold setupCanvas, startBlurRender, createCanvas.
    break_match; try reflexivity. rewrite Hr, Hsp. reflexivity. }
  destruct e as [x | x | | | stream | err | k v st | status | ]; unfold step.
  - destruct (listening s) eqn:E; exact E.
  - destruct (listening s) eqn:E; exact E.
  - destruct (listening s) eqn:E; exact E.
  - destruct (listening s) eqn:E; exact E.
  - destruct (awaitingCamera s); [ | reflexivity].
    unfold initCameraFulfilled.
    cbn [withDom setWiring setCanvasSetupDone listening].
    rewrite Hsp. reflexivity.
  - destruct (awaitingCamera s); reflexivity.
  - unfold videoEvent, fallbackVideo2Loaded, handleVideoError, startBlurRender,
      createCanvas.
    destruct (wiring s), v, k; try reflexivity;
      rewrite ?Hr, ?Hsc, ?Hsp; reflexivity.
  - unfold runAnimationFrame.
    apply (fold_left_preserves _ (fun a => listening a = listening s));
      [ | reflexivity].
    intros a h Ha. unfold runFrameCallback.
    destruct (lookupCallback h _) as [cb | ]; [ | assumption].
    destruct cb; cbn [invoke]; rewrite ?Hr, ?Hsc; exact Ha.
  - unfold beforeunload. break_match; reflexivity.
Qed.

Lemma displaysSynced_controls toS s s' :
  controls s' = controls s -> displaysSynced toS s -> displaysSynced toS s'.
Proof.
  unfold controls, displaysSynced. intros H [Hl Hr].
  injection H as H1 H2 H3 H4 H5 H6 H7. rewrite H4, H5, H1, H2.
  split; assumption.
Qed.

Lemma buttonsAgree_controls s s' :
  controls s' = controls s -> buttonsAgree s -> buttonsAgree s'.
Proof.
  unfold controls, buttonsAgree. intros H [Hl Hr].
  injection H as H1 H2 H3 H4 H5 H6 H7. rewrite H6, H7, H3.
  split; assumption.
Qed.

Lemma step_displaysSynced toS e s :
  displaysSynced toS s -> displaysSynced toS (step toS e s).
Proof.
  intros Hs. destruct (isControlEvent e) eqn:He.
  - destruct Hs as [Hl Hr].
    destruct e as [x | x | | | stream | err | k v st | status | ];
      try discriminate He; unfold step;
      destruct (listening s); try (split; assumption);
      split; cbn; try reflexivity; assumption.
  - apply (displaysSynced_controls toS s); [apply step_controls, He | exact Hs].
Qed.

Lemma step_buttonsAgree toS e s :
  buttonsAgree s -> buttonsAgree (step toS e s).
Proof.
  intros Hs. destruct (isControlEvent e) eqn:He.
  - destruct Hs as [Hl Hr].
    destruct e as [x | x | | | stream | err | k v st | status | ];
      try discriminate He; unfold step;
      destruct (listening s); try (split; assumption);
      split; cbn; try reflexivity; assumption.
  - apply (buttonsAgree_controls s); [apply step_controls, He | exact Hs].
Qed.

Lemma init_displaysSynced toS nav document ctx2d :
  displaysSynced toS (init toS nav (loadedPage document ctx2d)).
Proof.
  unfold init. destruct (hasGetUserMedia nav).
  - split; cbn; reflexivity.
  - split; cbn; reflexivity.
Qed.

(** X6: from the start of the page on, whatever events arrive, each eye's
    display shows the text of that eye's current diopters. *)
Theorem displays_follow_diopters (toS : R -> string) (nav : Navigator)
    (document : Dom) (ctx2d : bool) (events : list Event) :
  displaysSynced toS (run toS events (init toS nav (loadedPage document ctx2d))).
Proof.
  unfold run.
  apply (fold_left_preserves (fun s e => step toS e s) (displaysSynced toS)).
  - intros a e Ha. apply step_displaysSynced, Ha.
  - apply init_displaysSynced.
Qed.

(** X7: once a dominance button was clicked on the initialised page, the
    [active] class sits on the button of the dominant eye and on that one
    only, and later events keep it so. *)
Theorem buttons_follow_dominance (toS : R -> string) (s : Page)
    (isLeft : bool) (events : list Event) :
  listening s = true ->
  let click := if isLeft then ClickDominantLeft else ClickDominantRight in
  isDominantLeft (vars (step toS click s)) = isLeft
  /\ buttonsAgree (run toS events (step toS click s)).
Proof.
  intros Hl click.
  assert (Hc : isDominantLeft (vars (step toS click s)) = isLeft
               /\ buttonsAgree (step toS click s)).
  { subst click. destruct isLeft; unfold step; rewrite Hl;
      repeat split; reflexivity. }
  split; [apply Hc | ].
  unfold run.
  apply (fold_left_preserves (fun s e => step toS e s) buttonsAgree).
  - intros a e Ha. apply step_buttonsAgree, Ha.
  - apply Hc.
Qed.

Lemma buttons_follow_dominance_witness :
  let toS := fun _ : R => "1e+21" in
  let s := setListening true (pageWithEyes 0 0 true) in
  let events := [InputLeft 2; AnimationFrame (fun _ => readyVideo); Beforeunload] in
  let click := if false then ClickDominantLeft else ClickDominantRight in
  isDominantLeft (vars (step toS click s)) = false
  /\ buttonsAgree (run toS events (step toS click s)).
Proof.
  intros toS s events.
  exact (buttons_follow_dominance toS s false events eq_refl).
Defined.

(** ** What the frames paint *)

Lemma render_context2d v c st s :
  context2d (browser (render v c st s)) = context2d (browser s).
Proof.
  unfold render, applySimpleBlur, requestAnimationFrame.
  break_match; reflexivity.
Qed.

Lemma setupCanvas_context2d st s :
  context2d (browser (setupCanvas st s)) = context2d (browser s).
Proof.
  unfold setupCanvas, startBlurRender, createCanvas.
  break_match; try reflexivity.
  rewrite render_context2d, setupPanel_browser. reflexivity.
Qed.

Lemma setupCanvas_painted st s :
  context2d (browser s) = false ->
  painted (browser (setupCanvas st s)) = painted (browser s).
Proof.
  intros Hc. unfold setupCanvas, startBlurRender, createCanvas.
  break_match; try reflexivity.
  rewrite render_painted, setupPanel_browser. cbn [browser withBrowser
    setCanvasSetupDone setCanvasCount context2d painted].
  rewrite Hc, andb_false_r, app_nil_r. reflexivity.
Qed.

Lemma fallbackVideo2Loaded_no_context st s :
  context2d (browser s) = false ->
  context2d (browser (fallbackVideo2Loaded st s)) = false
  /\ painted (browser (fallbackVideo2Loaded st s)) = painted (browser s).
Proof.
  intros Hc. unfold fallbackVideo2Loaded, startBlurRender, createCanvas.
  rewrite render_context2d, render_painted, setupPanel_browser.
  cbn [browser withBrowser setCanvasCount context2d painted].
  rewrite Hc, andb_false_r, app_nil_r. split; reflexivity.
Qed.

(** Without a 2d context an event paints nothing, and no event brings a
    context about. *)
Lemma step_no_context toS e s :
  context2d (browser s) = false ->
  context2d (browser (step toS e s)) = false
  /\ painted (browser (step toS e s)) = painted (browser s).
Proof.
  intros Hc.
  destruct e as [x | x | | | stream | err | k v st | status | ]; unfold step.
  - destruct (listening s); split; (exact Hc || reflexivity).
  - destruct (listening s); split; (exact Hc || reflexivity).
  - destruct (listening s); split; (exact Hc || reflexivity).
  - destruct (listening s); split; (exact Hc || reflexivity).
  - destruct (awaitingCamera s); [ | split; [exact Hc | reflexivity]].
    rewrite initCameraFulfilled_browser. split; [exact Hc | reflexivity].
  - destruct (awaitingCamera s); split; (exact Hc || reflexivity).
  - unfold videoEvent.
    destruct (wiring s), v, k;
      first [ split; [exact Hc | reflexivity]
            | split; [rewrite setupCanvas_context2d; exact Hc
                     | apply setupCanvas_painted, Hc]
            | rewrite setupPanel_browser; split; [exact Hc | reflexivity]
            | apply fallbackVideo2Loaded_no_context, Hc ].
  - unfold runAnimationFrame.
    apply (fold_left_preserves _
             (fun a => context2d (browser a) = false
                       /\ painted (browser a) = painted (browser s)));
      [ | split; [exact Hc | reflexivity]].
    intros a h [Ha Hp]. unfold runFrameCallback.
    destruct (lookupCallback h _) as [cb | ]; [ | split; assumption].
    destruct cb; cbn [invoke].
    + rewrite render_context2d, render_painted.
      cbn [browser cancelAnimationFrame withBrowser setFrameCallbacks
             context2d painted].
      rewrite Ha, andb_false_r, app_nil_r. split; [reflexivity | exact Hp].
    + rewrite setupCanvas_context2d, setupCanvas_painted by exact Ha.
      split; [exact Ha | exact Hp].
  - unfold beforeunload. break_match; split; (exact Hc || reflexivity).
Qed.

(** X8: when canvases offer no 2d context, nothing is ever painted: over
    any events the list of draws stays as it was. *)
Theorem no_context_no_draw (toS : R -> string) (s : Page) (events : list Event) :
  context2d (browser s) = false ->
  painted (browser (run toS events s)) = painted (browser s)
  /\ context2d (browser (run toS events s)) = false.
Proof.
  intros Hc. unfold run.
  assert (H : context2d (browser (fold_left (fun s e => step toS e s) events s)) = false
              /\ painted (browser (fold_left (fun s e => step toS e s) events s))
                 = painted (browser s)).
  { apply (fold_left_preserves (fun s e => step toS e s)
             (fun a => context2d (browser a) = false
                       /\ painted (browser a) = painted (browser s)));
      [ | split; [exact Hc | reflexivity]].
    intros a e [Ha Hp]. destruct (step_no_context toS e a Ha) as [H1 H2].
    split; [exact H1 | congruence]. }
  split; apply H.
Qed.

Lemma noContextFallback_context2d toS :
  context2d
    (browser (step toS (VideoEvent Loadeddata Video2 readyVideo)
                (init toS (mkNavigator None) (loadedPage blankDocument false))))
  = false.
Proof. lazy. reflexivity. Qed.

Lemma no_context_no_draw_witness :
  let toS := fun _ : R => "1e+21" in
  let s := step toS (VideoEvent Loadeddata Video2 readyVideo)
             (init toS (mkNavigator None) (loadedPage blankDocument false)) in
  let events := [AnimationFrame (fun _ => readyVideo); InputLeft 3;
                 AnimationFrame (fun _ => readyVideo)] in
  painted (browser (run toS events s)) = painted (browser s)
  /\ context2d (browser (run toS events s)) = false.
Proof.
  intros toS s events.
  exact (no_context_no_draw toS s events (noContextFallback_context2d toS)).
Defined.

Lemma frameDraws_same v c st s s' :
  eyes s' = eyes s -> context2d (browser s') = context2d (browser s) ->
  frameDraws v c st s' = frameDraws v c st s.
Proof.
  intros He Hc. unfold frameDraws.
  rewrite Hc, (calculateBinocularBlur_eyes s' s He). reflexivity.
Qed.

Lemma runFrameCallback_wf status s h :
  wfCallbacks s ->
  wfCallbacks (runFrameCallback status s h)
  /\ (frameCallbackId (browser s)
      <= frameCallbackId (browser (runFrameCallback status s h)))%N.
Proof.
  intros Hwf. unfold runFrameCallback.
  destruct (lookupCallback h (frameCallbacks (browser s))) as [cb | ];
    [ | split; [exact Hwf | lia]].
  pose proof (invoke_grows status cb (cancelAnimationFrame h s)) as Hg.
  split; [eapply grows_wf; [apply cancel_wf, Hwf | exact Hg] | ].
  destruct Hg as (_ & _ & Hi & _). cbn in Hi. exact Hi.
Qed.

(** The callbacks of one frame, with the loop at handle [h0]: as long as
    [h0] is still to come the loop's one run is still due; once the loop
    was rescheduled above the snapshot nothing more is painted. *)
Lemma frame_fold_paints status v c hs :
  forall (K : N) (s : Page) (h0 : N),
    wfCallbacks s -> (K <= frameCallbackId (browser s))%N ->
    (forall h, In h hs -> (h <= K)%N) ->
    singleLoop v c s ->
    animationFrameId (vars s) = Some h0 ->
    (In h0 hs -> In (h0, CbRender v c) (callbacks s) ->
     painted (browser (fold_left (runFrameCallback status) hs s))
     = (painted (browser s) ++ frameDraws v c (status v) s)%list)
    /\ ((K < h0)%N ->
        painted (browser (fold_left (runFrameCallback status) hs s))
        = painted (browser s)).
Proof.
  induction hs as [ | h hs IH]; intros K s h0 Hwf HK Hb Hs Hid.
  - split; [intros [] | reflexivity].
  - assert (Hb' : forall x, In x hs -> (x <= K)%N)
      by (intros x Hx; apply Hb; right; exact Hx).
    destruct (runFrameCallback_wf status s h Hwf) as [Hwf1 Hc1].
    pose proof (runFrameCallback_singleLoop status v c s h Hs) as Hs1.
    assert (HK1 : (K <= frameCallbackId (browser (runFrameCallback status s h)))%N)
      by lia.
    cbn [fold_left].
    destruct (N.eq_dec h h0) as [-> | Hne].
    + split.
      * intros _ Hentry.
        assert (Hl : lookupCallback h0 (frameCallbacks (browser s))
                     = Some (CbRender v c))
          by (apply lookupCallback_NoDup; [apply Hwf | exact Hentry]).
        assert (Hrun : runFrameCallback status s h0
                       = render v c (status v) (cancelAnimationFrame h0 s))
          by (unfold runFrameCallback; rewrite Hl; reflexivity).
        destruct (render_schedules v c (status v) (cancelAnimationFrame h0 s))
          as (_ & _ & Hid1).
        rewrite <- Hrun in Hid1.
        destruct (IH K _ _ Hwf1 HK1 Hb' Hs1 Hid1) as [_ HB].
        rewrite HB by (cbn; lia).
        rewrite Hrun, render_painted. reflexivity.
      * intros Hlt. specialize (Hb h0 (or_introl eq_refl)). lia.
    + assert (Hquiet : runFrameCallback status s h = s
                       \/ runFrameCallback status s h = cancelAnimationFrame h s).
      { unfold runFrameCallback.
        destruct (lookupCallback h (frameCallbacks (browser s))) as [cb | ] eqn:Hl;
          [ | left; reflexivity].
        apply lookupCallback_In in Hl.
        destruct Hs as (h1 & Hid' & _ & Hall).
        assert (h1 = h0) by congruence. subst h1.
        destruct (Hall h cb Hl) as [[Heq _] | [-> Hdone]]; [contradiction | ].
        right. cbn [invoke]. apply setupCanvas_done. exact Hdone. }
      assert (Hsame : animationFrameId (vars (runFrameCallback status s h)) = Some h0
                      /\ painted (browser (runFrameCallback status s h))
                         = painted (browser s)
                      /\ frameDraws v c (status v) (runFrameCallback status s h)
                         = frameDraws v c (status v) s
                      /\ (In (h0, CbRender v c) (callbacks s) ->
                          In (h0, CbRender v c)
                             (callbacks (runFrameCallback status s h)))).
      { destruct Hquiet as [-> | ->].
        - repeat split; try assumption. intros H; exact H.
        - split; [exact Hid | ]. split; [reflexivity | ].
          split; [reflexivity | ].
          intros Hin. apply In_cancel. split; [exact Hin | congruence]. }
      destruct Hsame as (Hid1 & Hp1 & Hd1 & Hin1).
      destruct (IH K _ _ Hwf1 HK1 Hb' Hs1 Hid1) as [HA HB].
      split.
      * intros [Heq | Hin0] Hentry; [congruence | ].
        rewrite (HA Hin0 (Hin1 Hentry)), Hp1, Hd1. reflexivity.
      * intros Hlt. rewrite (HB Hlt), Hp1. reflexivity.
Qed.

(** One frame on a page with the one loop running: the loop runs once and
    paints what [render] paints. *)
Lemma runAnimationFrame_paints status v c s :
  wfCallbacks s -> singleLoop v c s -> renderPending v c s ->
  painted (browser (runAnimationFrame status s))
  = (painted (browser s) ++ frameDraws v c (status v) s)%list.
Proof.
  intros Hwf Hs [h Hin].
  destruct Hs as (h0 & Hid & Hnz & Hall).
  assert (h = h0)
    by (destruct (Hall h _ Hin) as [[He _] | [Hd _]]; [exact He | discriminate Hd]).
  subst h.
  unfold runAnimationFrame.
  destruct (frame_fold_paints status v c (map fst (frameCallbacks (browser s)))
              (frameCallbackId (browser s)) s h0 Hwf (N.le_refl _))
    as [HA _].
  - apply Hwf.
  - exists h0. repeat split; assumption.
  - exact Hid.
  - apply HA; [ | exact Hin]. apply (in_map fst) in Hin. exact Hin.
Qed.

Lemma runAnimationFrame_context2d status s :
  context2d (browser (runAnimationFrame status s)) = context2d (browser s).
Proof.
  unfold runAnimationFrame.
  apply (fold_left_preserves _
           (fun a => context2d (browser a) = context2d (browser s)));
    [ | reflexivity].
  intros a h Ha. unfold runFrameCallback.
  destruct (lookupCallback h _) as [cb | ]; [ | assumption].
  destruct cb; cbn [invoke];
    rewrite ?render_context2d, ?setupCanvas_context2d; exact Ha.
Qed.

Lemma frames_paint_aux toS v c statuses :
  forall s s0,
    eyes s = eyes s0 -> context2d (browser s) = context2d (browser s0) ->
    wfCallbacks s -> singleLoop v c s -> renderPending v c s ->
    painted (browser (run toS (map AnimationFrame statuses) s))
    = (painted (browser s)
       ++ flat_map (fun status => frameDraws v c (status v) s0) statuses)%list.
Proof.
  unfold run.
  induction statuses as [ | status statuses IH]; intros s s0 He Hc Hwf Hs Hp.
  - simpl. rewrite app_nil_r. reflexivity.
  - cbn [map fold_left flat_map step].
    destruct (runAnimationFrame_keeps_render status v c s Hwf Hp)
      as (Hwf1 & h & Hin & _).
    rewrite (IH (runAnimationFrame status s) s0).
    + rewrite (runAnimationFrame_paints status v c s Hwf Hs Hp).
      rewrite (frameDraws_same v c (status v) s0 s) by assumption.
      rewrite <- app_assoc. reflexivity.
    + rewrite runAnimationFrame_eyes. exact He.
    + rewrite runAnimationFrame_context2d. exact Hc.
    + exact Hwf1.
    + apply runAnimationFrame_singleLoop, Hs.
    + exists h. exact Hin.
Qed.

Lemma frameDraws_length v c statuses s :
  List.length (flat_map (fun status : VideoId -> VideoStatus =>
                           frameDraws v c (status v) s) statuses)
  = if context2d (browser s) then readyFrames v statuses else 0%nat.
Proof.
  unfold readyFrames, frameDraws.
  induction statuses as [ | status statuses IH]; cbn [flat_map filter].
  - destruct (context2d (browser s)); reflexivity.
  - rewrite length_app, IH.
    destruct (HAVE_CURRENT_DATA <=? readyState (status v))%nat;
      destruct (context2d (browser s)); reflexivity.
Qed.

(** X9: while the one loop runs, every animation frame runs [render]
    exactly once: over any run of frames the draws added are, in order,
    one per frame whose video has current data (none without a 2d
    context), each with the blur of the eye variables and on the loop's
    canvas. *)
Theorem frames_paint_once_each (toS : R -> string) (v : VideoId) (c : Canvas)
    (s : Page) (statuses : list (VideoId -> VideoStatus)) :
  wfCallbacks s -> singleLoop v c s -> renderPending v c s ->
  let s' := run toS (map AnimationFrame statuses) s in
  painted (browser s')
  = (painted (browser s)
     ++ flat_map (fun status => frameDraws v c (status v) s) statuses)%list
  /\ List.length (painted (browser s'))
     = (List.length (painted (browser s))
        + if context2d (browser s) then readyFrames v statuses else 0)%nat.
Proof.
  intros Hwf Hs Hp s'.
  assert (H : painted (browser s')
              = (painted (browser s)
                 ++ flat_map (fun status => frameDraws v c (status v) s) statuses)%list)
    by (apply frames_paint_aux; try reflexivity; assumption).
  split; [exact H | ].
  rewrite H, length_app, frameDraws_length. reflexivity.
Qed.

Lemma streamingFallback_streaming toS :
  wfCallbacks (streamingFallback toS)
  /\ singleLoop Video2 (mkCanvas 0 640 480 false) (streamingFallback toS)
  /\ renderPending Video2 (mkCanvas 0 640 480 false) (streamingFallback toS)
  /\ listening (streamingFallback toS) = true
  /\ context2d (browser (streamingFallback toS)) = true.
Proof.
  destruct (streamingFallback_callbacks toS) as (Hc & Hi & Ha).
  split; [ | split; [ | split; [ | split]]].
  - unfold wfCallbacks. rewrite Hc, Hi. split.
    + constructor; [intros [] | constructor].
    + intros h [<- | []]. discriminate.
  - unfold singleLoop. rewrite Hc, Ha. exists 1%N.
    split; [reflexivity | ]. split; [discriminate | ].
    intros h' cb [Heq | []]. inversion Heq. left. split; reflexivity.
  - unfold renderPending. rewrite Hc. exists 1%N. left. reflexivity.
  - lazy. reflexivity.
  - lazy. reflexivity.
Qed.

Lemma frames_paint_once_each_witness :
  let toS := fun _ : R => "1e+21" in
  let c := mkCanvas 0 640 480 false in
  let statuses := [fun _ : VideoId => readyVideo; fun _ : VideoId => waitingVideo;
                   fun _ : VideoId => readyVideo] in
  let s' := run toS (map AnimationFrame statuses) (streamingFallback toS) in
  painted (browser s')
  = (painted (browser (streamingFallback toS))
     ++ flat_map (fun status => frameDraws Video2 c (status Video2)
                                  (streamingFallback toS)) statuses)%list
  /\ List.length (painted (browser s'))
     = (List.length (painted (browser (streamingFallback toS)))
        + if context2d (browser (streamingFallback toS))
          then readyFrames Video2 statuses else 0)%nat.
Proof.
  intros toS c statuses.
  destruct (streamingFallback_streaming toS) as (Hwf & Hs & Hp & _ & _).
  exact (frames_paint_once_each toS Video2 c (streamingFallback toS) statuses
           Hwf Hs Hp).
Defined.

(** X10: a slider's new value is what the very next frame paints with:
    after a slider event and one frame whose video has current data, the
    one new draw has the blur of the new diopters. *)
Theorem slider_takes_effect_next_frame (toS : R -> string) (v : VideoId)
    (c : Canvas) (s : Page) (x : R) (status : VideoId -> VideoStatus) :
  listening s = true -> context2d (browser s) = true ->
  (HAVE_CURRENT_DATA <= readyState (status v))%nat ->
  wfCallbacks s -> singleLoop v c s -> renderPending v c s ->
  painted (browser (run toS [InputLeft x; AnimationFrame status] s))
  = (painted (browser s)
     ++ [mkDraw v c (Reference.computeBinocularBlur
                       x (rightDiopters (vars s)) (isDominantLeft (vars s)))])%list
  /\ painted (browser (run toS [InputRight x; AnimationFrame status] s))
     = (painted (browser s)
        ++ [mkDraw v c (Reference.computeBinocularBlur
                          (leftDiopters (vars s)) x (isDominantLeft (vars s)))])%list.
Proof.
  intros Hl Hc Hr Hwf Hs Hp.
  assert (Hready : (HAVE_CURRENT_DATA <=? readyState (status v))%nat = true)
    by (apply Nat.leb_le; exact Hr).
  assert (Href : forall s0, calculateBinocularBlur s0
                            = Reference.computeBinocularBlur
                                (leftDiopters (vars s0)) (rightDiopters (vars s0))
                                (isDominantLeft (vars s0))).
  { intros s0. rewrite calculateBinocularBlur_weighted, weightedDiopters_eq.
    unfold Reference.computeBinocularBlur, Reference.computeMonocularBlur,
      calculateBlur, Math_pow, BLUR_BASE, BLUR_EXPONENT, Reference.base,
      Reference.exponent. reflexivity. }
  assert (Hgen : forall e, isControlEvent e = true ->
            painted (browser (run toS [e; AnimationFrame status] s))
            = (painted (browser s)
               ++ [mkDraw v c (calculateBinocularBlur (step toS e s))])%list).
  { intros e He.
    assert (Hrun : isRunningEvent e = true) by (destruct e; try discriminate He; reflexivity).
    assert (Hnf : forall st, e <> AnimationFrame st)
      by (intros st ->; discriminate He).
    assert (Hnu : e <> Beforeunload) by (intros ->; discriminate He).
    destruct (control_event_untouched toS e s Hrun Hnf) as (Hb & _ & _).
    destruct (step_keeps_render toS v c e s Hnu Hwf Hp) as [Hwf1 Hp1].
    pose proof (step_singleLoop toS v c e s Hrun Hs) as Hs1.
    unfold run. cbn [fold_left]. change (step toS (AnimationFrame status) (step toS e s))
      with (runAnimationFrame status (step toS e s)).
    rewrite (runAnimationFrame_paints status v c _ Hwf1 Hs1 Hp1).
    unfold frameDraws. rewrite Hb, Hc, Hready. reflexivity. }
  split.
  - rewrite (Hgen (InputLeft x) eq_refl), Href. unfold step. rewrite Hl.
    reflexivity.
  - rewrite (Hgen (InputRight x) eq_refl), Href. unfold step. rewrite Hl.
    reflexivity.
Qed.

Lemma slider_takes_effect_next_frame_witness :
  let toS := fun _ : R => "1e+21" in
  let c := mkCanvas 0 640 480 false in
  let s := streamingFallback toS in
  let status := fun _ : VideoId => readyVideo in
  painted (browser (run toS [InputLeft 3; AnimationFrame status] s))
  = (painted (browser s)
     ++ [mkDraw Video2 c (Reference.computeBinocularBlur
                            3 (rightDiopters (vars s)) (isDominantLeft (vars s)))])%list
  /\ painted (browser (run toS [InputRight 3; AnimationFrame status] s))
     = (painted (browser s)
        ++ [mkDraw Video2 c (Reference.computeBinocularBlur
                               (leftDiopters (vars s)) 3 (isDominantLeft (vars s)))])%list.
Proof.
  intros toS c s status.
  destruct (streamingFallback_streaming toS) as (Hwf & Hs & Hp & Hl & Hc).
  exact (slider_takes_effect_next_frame toS Video2 c (streamingFallback toS) 3
           status Hl Hc (le_S _ _ (le_S _ _ (le_n 2))) Hwf Hs Hp).
Defined.

(** ** The camera path *)

Lemma render_flags v c st s :
  wiring (render v c st s) = wiring s
  /\ awaitingCamera (render v c st s) = awaitingCamera s
  /\ canvasCount (browser (render v c st s)) = canvasCount (browser s)
  /\ dom (render v c st s) = dom s
  /\ mediaStream (vars (render v c st s)) = mediaStream (vars s).
Proof.
  unfold render, applySimpleBlur, requestAnimationFrame.
  destruct (HAVE_CURRENT_DATA <=? readyState st)%nat;
    destruct (context2d (browser s)); repeat split; reflexivity.
Qed.

Lemma renderCount_render v c st s :
  renderCount (render v c st s) = S (renderCount s).
Proof.
  unfold renderCount, callbacks.
  destruct (render_schedules v c st s) as (-> & _ & _).
  rewrite filter_app, length_app. cbn. lia.
Qed.

Lemma renderCount_cancel h s :
  (renderCount (cancelAnimationFrame h s) <= renderCount s)%nat
  /\ forall v c, In (h, CbRender v c) (callbacks s) ->
                 (renderCount (cancelAnimationFrame h s) < renderCount s)%nat.
Proof.
  unfold renderCount. rewrite cancel_callbacks.
  induction (callbacks s) as [ | [h' cb] l [IH1 IH2]]; cbn [filter fst].
  - split; [lia | intros v c []].
  - destruct (N.eqb_spec h' h) as [-> | Hne]; cbn [negb].
    + split.
      * destruct (isRenderCallback (h, cb)); cbn [List.length]; lia.
      * intros v c [Heq | Hin].
        -- inversion Heq; subst. cbn. lia.
        -- specialize (IH2 v c Hin).
           destruct (isRenderCallback (h, cb)); cbn [List.length]; lia.
    + cbn [filter]. split.
      * destruct (isRenderCallback (h', cb)); cbn [List.length]; lia.
      * intros v c [Heq | Hin]; [inversion Heq; subst; contradiction | ].
        specialize (IH2 v c Hin).
        destruct (isRenderCallback (h', cb)); cbn [List.length]; lia.
Qed.

Lemma renderCount_zero_no_render s h v c :
  renderCount s = 0%nat -> ~ In (h, CbRender v c) (callbacks s).
Proof.
  unfold renderCount. intros Hz Hin.
  assert (Hf : In (h, CbRender v c) (filter isRenderCallback (callbacks s)))
    by (apply filter_In; split; [exact Hin | reflexivity]).
  destruct (filter isRenderCallback (callbacks s)); [exact Hf | discriminate Hz].
Qed.

Lemma setupCanvas_cameraSetupInv st s :
  cameraSetupInv s -> cameraSetupInv (setupCanvas st s).
Proof.
  intros HJ. unfold setupCanvas.
  destruct (canvasSetupDone s) eqn:Hd; [exact HJ | ].
  destruct HJ as (Hw & Ha & Hph).
  destruct Hph as [(_ & Hcc & Hrc) | (Hd' & _)]; [ | congruence].
  destruct ((0 <? videoWidth st)%nat && (0 <? videoHeight st)%nat)%bool.
  - unfold startBlurRender, createCanvas.
    match goal with
    | |- cameraSetupInv (render ?v ?c ?st (setupPanel ?p ?n ?a ?b ?s1)) =>
        destruct (render_flags v c st (setupPanel p n a b s1))
          as (Hw1 & Ha1 & Hc1 & _ & _);
        pose proof (render_canvasSetupDone v c st (setupPanel p n a b s1)) as Hd1;
        pose proof (renderCount_render v c st (setupPanel p n a b s1)) as Hr1;
        destruct (setupPanel_flags p n a b s1) as (Hf1 & Hf2 & _ & Hf4);
        pose proof (setupPanel_browser p n a b s1) as Hfb
    end.
    unfold cameraSetupInv. rewrite Hw1, Ha1, Hc1, Hd1, Hr1, Hf1, Hf2, Hf4.
    unfold renderCount, callbacks in *. rewrite Hfb.
    cbn [browser withBrowser setCanvasSetupDone setCanvasCount canvasCount
           frameCallbacks wiring awaitingCamera canvasSetupDone].
    split; [exact Hw | ]. split; [exact Ha | ].
    right. rewrite Hcc, Hrc. repeat split; lia.
  - split; [exact Hw | ]. split; [exact Ha | ].
    left. split; [exact Hd | ]. split; [exact Hcc | ].
    unfold renderCount, callbacks in *. cbn.
    rewrite filter_app, length_app, Hrc. reflexivity.
Qed.

Lemma cancel_cameraSetupInv h s :
  cameraSetupInv s -> cameraSetupInv (cancelAnimationFrame h s).
Proof.
  intros (Hw & Ha & Hph). split; [exact Hw | ]. split; [exact Ha | ].
  pose proof (proj1 (renderCount_cancel h s)) as Hle.
  destruct Hph as [(Hd & Hcc & Hrc) | (Hd & Hcc & Hrc)].
  - left. repeat split; try assumption. lia.
  - right. repeat split; try assumption. lia.
Qed.

Lemma runFrameCallback_cameraSetupInv status s h :
  cameraSetupInv s -> cameraSetupInv (runFrameCallback status s h).
Proof.
  intros HJ. unfold runFrameCallback.
  destruct (lookupCallback h (frameCallbacks (browser s))) as [cb | ] eqn:Hl;
    [ | exact HJ].
  apply lookupCallback_In in Hl.
  destruct cb as [v c | ]; cbn [invoke].
  - destruct HJ as (Hw & Ha & Hph).
    destruct (render_flags v c (status v) (cancelAnimationFrame h s))
      as (Hw1 & Ha1 & Hc1 & _ & _).
    pose proof (render_canvasSetupDone v c (status v) (cancelAnimationFrame h s)) as Hd1.
    pose proof (renderCount_render v c (status v) (cancelAnimationFrame h s)) as Hr1.
    pose proof (proj2 (renderCount_cancel h s) v c Hl) as Hlt.
    unfold cameraSetupInv. rewrite Hw1, Ha1, Hc1, Hd1, Hr1.
    split; [exact Hw | ]. split; [exact Ha | ].
    destruct Hph as [(Hd & Hcc & Hrc) | (Hd & Hcc & Hrc)].
    + exfalso. exact (renderCount_zero_no_render s h v c Hrc Hl).
    + right. repeat split; try assumption. lia.
  - apply setupCanvas_cameraSetupInv, cancel_cameraSetupInv, HJ.
Qed.

Lemma step_cameraSetupInv toS e s :
  cameraSetupInv s -> cameraSetupInv (step toS e s).
Proof.
  intros HJ.
  destruct e as [x | x | | | stream | err | k v st | status | ]; unfold step.
  - destruct (listening s); exact HJ.
  - destruct (listening s); exact HJ.
  - destruct (listening s); exact HJ.
  - destruct (listening s); exact HJ.
  - destruct HJ as (Hw & Ha & Hph). rewrite Ha. repeat split; assumption.
  - destruct HJ as (Hw & Ha & Hph). rewrite Ha. repeat split; assumption.
  - unfold videoEvent. destruct HJ as (Hw & Ha & Hph). rewrite Hw.
    destruct v, k; try (repeat split; assumption);
      apply setupCanvas_cameraSetupInv; repeat split; assumption.
  - unfold runAnimationFrame.
    apply fold_left_preserves; [ | exact HJ].
    intros a h. apply runFrameCallback_cameraSetupInv.
  - unfold beforeunload.
    assert (Hc : cameraSetupInv
                   match animationFrameId (vars s) with
                   | Some h => if (h =? 0)%N then s else cancelAnimationFrame h s
                   | None => s
                   end)
      by (break_match; try exact HJ; apply cancel_cameraSetupInv, HJ).
    set (s1 := match animationFrameId (vars s) with
               | Some h => if (h =? 0)%N then s else cancelAnimationFrame h s
               | None => s
               end) in *.
    destruct (mediaStream (vars s1)); exact Hc.
Qed.

Lemma initCameraFulfilled_flags stream s :
  wiring (initCameraFulfilled stream s) = CameraWiring
  /\ awaitingCamera (initCameraFulfilled stream s) = awaitingCamera s
  /\ canvasSetupDone (initCameraFulfilled stream s) = false
  /\ sourceStatus (dom (initCameraFulfilled stream s)) = "Source: Device Camera"
  /\ mediaStream (vars (initCameraFulfilled stream s)) = Some stream.
Proof.
  unfold initCameraFulfilled.
  cbn [withDom setWiring setCanvasSetupDone wiring awaitingCamera
         canvasSetupDone dom vars].
  match goal with
  | |- context [setupPanel ?p ?n ?a ?b ?s1] =>
      destruct (setupPanel_flags p n a b s1) as (_ & Ha & _ & _);
      pose proof (setupPanel_vars p n a b s1) as Hv
  end.
  rewrite Ha, Hv. repeat split.
Qed.

Lemma cameraFulfilled_cameraSetupInv toS nav document ctx2d stream :
  hasGetUserMedia nav = true ->
  cameraSetupInv (step toS (GetUserMediaFulfilled stream)
                    (init toS nav (loadedPage document ctx2d))).
Proof.
  intros Hn. unfold init. rewrite Hn. unfold step.
  cbn [initCamera awaitingCamera setAwaitingCamera].
  match goal with
  | |- cameraSetupInv (initCameraFulfilled ?st ?x) =>
      destruct (initCameraFulfilled_flags st x) as (Hw & Ha & Hd & _ & _);
      pose proof (initCameraFulfilled_browser st x) as Hb
  end.
  unfold cameraSetupInv, renderCount, callbacks.
  rewrite Hw, Ha, Hd, Hb.
  split; [reflexivity | ]. split; [reflexivity | ].
  left. repeat split.
Qed.

(** X11: on the camera path [setupCanvas] does its work once: however the
    video events and frames arrive and repeat, the page creates at most
    one canvas and has at most one render callback scheduled. *)
Theorem camera_sets_up_one_canvas (toS : R -> string) (nav : Navigator)
    (document : Dom) (ctx2d : bool) (stream : list bool) (events : list Event) :
  hasGetUserMedia nav = true ->
  let s := run toS events
             (step toS (GetUserMediaFulfilled stream)
                (init toS nav (loadedPage document ctx2d))) in
  (canvasCount (browser s) <= 1)%nat /\ (renderCount s <= 1)%nat
  /\ (canvasSetupDone s = false -> renderCount s = 0%nat).
Proof.
  intros Hn s.
  assert (HJ : cameraSetupInv s).
  { subst s. unfold run.
    apply (fold_left_preserves (fun s e => step toS e s) cameraSetupInv).
    - intros a e. apply step_cameraSetupInv.
    - apply cameraFulfilled_cameraSetupInv, Hn. }
  destruct HJ as (_ & _ & [(Hd & Hcc & Hrc) | (Hd & Hcc & Hrc)]).
  - split; [lia | ]. split; [lia | ]. intros _. exact Hrc.
  - split; [lia | ]. split; [lia | ]. intros Hf. congruence.
Qed.

Lemma camera_sets_up_one_canvas_witness :
  let toS := fun _ : R => "1e+21" in
  let events := [VideoEvent Loadedmetadata Video1 noFrameYet;
                 VideoEvent Loadeddata Video1 readyVideo;
                 VideoEvent Playing Video1 readyVideo;
                 AnimationFrame (fun _ => readyVideo);
                 VideoEvent Playing Video1 readyVideo;
                 AnimationFrame (fun _ => readyVideo)] in
  let s := run toS events
             (step toS (GetUserMediaFulfilled [true])
                (init toS (mkNavigator (Some true)) (loadedPage blankDocument true))) in
  (canvasCount (browser s) <= 1)%nat /\ (renderCount s <= 1)%nat
  /\ (canvasSetupDone s = false -> renderCount s = 0%nat).
Proof.
  intros toS events.
  exact (camera_sets_up_one_canvas toS (mkNavigator (Some true)) blankDocument
           true [true] events eq_refl).
Defined.

(** The fallback path has no such flag: were [loadeddata] to reach the
    hidden video twice, two canvases and two loops would result. *)
Example fallback_loadeddata_twice (toS : R -> string) :
  let s := step toS (VideoEvent Loadeddata Video2 readyVideo)
             (streamingFallback toS) in
  canvasCount (browser s) = 2%nat /\ renderCount s = 2%nat.
Proof. lazy. repeat split. Qed.

Lemma setupPanel_cameraHeld p n a b s :
  cameraHeld s -> cameraHeld (setupPanel p n a b s).
Proof.
  intros (Hw & Hv & Hm). unfold cameraHeld.
  destruct (setupPanel_flags p n a b s) as (_ & _ & _ & ->).
  rewrite setupPanel_vars.
  split; [exact Hw | ]. split; [ | exact Hm].
  destruct (setupPanel_dom p n a b s) as (l & d' & -> & [-> | (i & _ & _ & ->)]).
  - destruct p; exact Hv.
  - destruct p, i; cbn; try exact Hv; rewrite Hv; reflexivity.
Qed.

Lemma render_cameraHeld v c st s :
  cameraHeld s -> cameraHeld (render v c st s).
Proof.
  intros H. unfold cameraHeld.
  destruct (render_flags v c st s) as (-> & _ & _ & -> & ->). exact H.
Qed.

Lemma setupCanvas_cameraHeld st s :
  cameraHeld s -> cameraHeld (setupCanvas st s).
Proof.
  intros H. unfold setupCanvas, startBlurRender, createCanvas.
  break_match; try exact H.
  apply render_cameraHeld, setupPanel_cameraHeld. exact H.
Qed.

Lemma step_cameraHeld toS e s :
  awaitingCamera s = false -> cameraHeld s -> cameraHeld (step toS e s).
Proof.
  intros Ha H.
  destruct e as [x | x | | | stream | err | k v st | status | ]; unfold step;
    rewrite ?Ha; try exact H.
  - destruct (listening s); exact H.
  - destruct (listening s); exact H.
  - destruct (listening s); exact H.
  - destruct (listening s); exact H.
  - unfold videoEvent. destruct H as (Hw & Hv & Hm). rewrite Hw.
    destruct v, k; try (repeat split; assumption);
      apply setupCanvas_cameraHeld; repeat split; assumption.
  - unfold runAnimationFrame.
    apply fold_left_preserves; [ | exact H].
    intros a h Hh. unfold runFrameCallback.
    destruct (lookupCallback h _) as [cb | ]; [ | exact Hh].
    destruct cb; cbn [invoke];
      [apply render_cameraHeld | apply setupCanvas_cameraHeld]; exact Hh.
  - unfold beforeunload. destruct H as (Hw & Hv & Hm).
    break_match; repeat split; try assumption; cbn; discriminate.
Qed.

Lemma loadedPage_video2 document ctx2d :
  video2 (dom (loadedPage document ctx2d)) = None.
Proof. destruct document. reflexivity. Qed.

Lemma initCameraFulfilled_video2 stream s :
  video2 (dom s) = None -> video2 (dom (initCameraFulfilled stream s)) = None.
Proof.
  intros Hv. unfold initCameraFulfilled.
  cbn [withDom setWiring setCanvasSetupDone dom].
  match goal with
  | |- context [setupPanel ?p ?n ?a ?b ?s1] =>
      destruct (setupPanel_dom p n a b s1)
        as (l & d' & -> & [-> | (i & _ & _ & ->)])
  end.
  - cbn [setPanel setSourceStatus video2 dom withDom withVars setVideo]. exact Hv.
  - destruct i;
      cbn [setPanel setSourceStatus video2 dom withDom withVars setVideo getVideo];
      try exact Hv.
    rewrite Hv. reflexivity.
Qed.

Lemma cameraFulfilled_start toS nav document ctx2d stream :
  hasGetUserMedia nav = true ->
  let started := step toS (GetUserMediaFulfilled stream)
                   (init toS nav (loadedPage document ctx2d)) in
  mediaStream (vars started) = Some stream
  /\ sourceState started = (false, 1%nat, "Source: Device Camera")
  /\ cameraHeld started.
Proof.
  intros Hn. unfold init. rewrite Hn. unfold step.
  cbn [initCamera awaitingCamera setAwaitingCamera].
  match goal with
  | |- context [initCameraFulfilled ?st ?x] =>
      destruct (initCameraFulfilled_flags st x) as (Hw & Ha & _ & Hs & Hm);
      pose proof (initCameraFulfilled_browser st x) as Hb;
      pose proof (initCameraFulfilled_video2 st x) as Hv
  end.
  cbv zeta. split; [exact Hm | ]. split.
  - unfold sourceState. rewrite Ha, Hb, Hs. reflexivity.
  - split; [exact Hw | ]. split; [ | rewrite Hm; discriminate].
    apply Hv. apply loadedPage_video2.
Qed.

(** X12: once [getUserMedia] has answered with a stream, the camera stays
    the source: through all later events the status label reads
    [Source: Device Camera], the handlers of [initCamera] stay attached,
    the stream stays held, and no fallback video is created. *)
Theorem camera_stays_source (toS : R -> string) (nav : Navigator)
    (document : Dom) (ctx2d : bool) (stream : list bool) (events : list Event) :
  hasGetUserMedia nav = true ->
  let started := step toS (GetUserMediaFulfilled stream)
                   (init toS nav (loadedPage document ctx2d)) in
  mediaStream (vars started) = Some stream
  /\ getUserMediaCalls (browser started) = 1%nat
  /\ cameraActive (run toS events started)
  /\ getUserMediaCalls (browser (run toS events started)) = 1%nat.
Proof.
  intros Hn started.
  destruct (cameraFulfilled_start toS nav document ctx2d stream Hn)
    as (Hm & Hss & Hheld).
  fold started in Hm, Hss, Hheld.
  split; [exact Hm | ].
  split; [unfold sourceState in Hss; congruence | ].
  assert (Hinv : sourceState (run toS events started)
                 = (false, 1%nat, "Source: Device Camera")
                 /\ cameraHeld (run toS events started)).
  { unfold run.
    apply (fold_left_preserves (fun s e => step toS e s)
             (fun a => sourceState a = (false, 1%nat, "Source: Device Camera")
                       /\ cameraHeld a)); [ | split; assumption].
    intros a e [Hsa Hha].
    assert (Haw : awaitingCamera a = false)
      by (unfold sourceState in Hsa; congruence).
    split; [rewrite step_sourceState by exact Haw; exact Hsa | ].
    apply step_cameraHeld; assumption. }
  destruct Hinv as [Hs2 (Hw2 & Hv2 & Hm2)].
  unfold sourceState in Hs2. injection Hs2 as Ha2 Hc2 Hst2.
  split; [ | exact Hc2].
  repeat split; assumption.
Qed.

Lemma camera_stays_source_witness :
  let toS := fun _ : R => "1e+21" in
  let events := [VideoEvent Playing Video1 readyVideo;
                 AnimationFrame (fun _ => readyVideo);
                 GetUserMediaRejected NotAllowedError;
                 VideoEvent Error Video1 noFrameYet;
                 Beforeunload] in
  let started := step toS (GetUserMediaFulfilled [true; true])
                   (init toS (mkNavigator (Some true)) (loadedPage blankDocument true)) in
  mediaStream (vars started) = Some [true; true]
  /\ getUserMediaCalls (browser started) = 1%nat
  /\ cameraActive (run toS events started)
  /\ getUserMediaCalls (browser (run toS events started)) = 1%nat.
Proof.
  intros toS events.
  exact (camera_stays_source toS (mkNavigator (Some true)) blankDocument true
           [true; true] events eq_refl).
Defined.

(** ** Unloading *)

Lemma filter_twice {A : Type} (p : A -> bool) (l : list A) :
  filter p (filter p l) = filter p l.
Proof.
  induction l as [ | a l IH]; [reflexivity | ].
  cbn [filter]. destruct (p a) eqn:Hp; [ | exact IH].
  cbn [filter]. rewrite Hp, IH. reflexivity.
Qed.

Lemma beforeunload_halves s : beforeunload s = stopTracks (cancelLoop s).
Proof. reflexivity. Qed.

Lemma cancelAnimationFrame_twice h s :
  cancelAnimationFrame h (cancelAnimationFrame h s) = cancelAnimationFrame h s.
Proof.
  unfold cancelAnimationFrame, withBrowser, setFrameCallbacks.
  cbn [vars dom browser canvasSetupDone awaitingCamera listening wiring
         frameCallbacks frameCallbackId canvasCount getUserMediaCalls painted
         context2d].
  rewrite filter_twice. reflexivity.
Qed.

Lemma cancelLoop_twice s : cancelLoop (cancelLoop s) = cancelLoop s.
Proof.
  unfold cancelLoop at 2 3.
  destruct (animationFrameId (vars s)) as [h | ] eqn:Hid;
    [destruct (h =? 0)%N eqn:Hz | ].
  - unfold cancelLoop. rewrite Hid, Hz. reflexivity.
  - unfold cancelLoop.
    change (animationFrameId (vars (cancelAnimationFrame h s)))
      with (animationFrameId (vars s)).
    rewrite Hid, Hz. apply cancelAnimationFrame_twice.
  - unfold cancelLoop. rewrite Hid. reflexivity.
Qed.

Lemma stopTracks_twice s : stopTracks (stopTracks s) = stopTracks s.
Proof.
  unfold stopTracks at 2 3.
  destruct (mediaStream (vars s)) as [tracks | ] eqn:Hm.
  - unfold stopTracks, withVars, setMediaStream.
    cbn [vars dom browser canvasSetupDone awaitingCamera listening wiring
           mediaStream leftDiopters rightDiopters isDominantLeft animationFrameId].
    rewrite map_map. reflexivity.
  - unfold stopTracks. rewrite Hm. reflexivity.
Qed.

Lemma cancelLoop_stopTracks s : cancelLoop (stopTracks s) = stopTracks (cancelLoop s).
Proof.
  unfold stopTracks at 1.
  destruct (mediaStream (vars s)) as [tracks | ] eqn:Hm.
  - unfold cancelLoop.
    change (animationFrameId
              (vars (withVars (setMediaStream (Some (map (fun _ => false) tracks))) s)))
      with (animationFrameId (vars s)).
    destruct (animationFrameId (vars s)) as [h | ];
      [destruct (h =? 0)%N | ]; unfold stopTracks.
    + rewrite Hm. reflexivity.
    + change (mediaStream (vars (cancelAnimationFrame h s)))
        with (mediaStream (vars s)).
      rewrite Hm. reflexivity.
    + rewrite Hm. reflexivity.
  - unfold cancelLoop.
    destruct (animationFrameId (vars s)) as [h | ];
      [destruct (h =? 0)%N | ]; unfold stopTracks.
    + rewrite Hm. reflexivity.
    + change (mediaStream (vars (cancelAnimationFrame h s)))
        with (mediaStream (vars s)).
      rewrite Hm. reflexivity.
    + rewrite Hm. reflexivity.
Qed.

Lemma beforeunload_twice s : beforeunload (beforeunload s) = beforeunload s.
Proof.
  rewrite !beforeunload_halves.
  rewrite cancelLoop_stopTracks, cancelLoop_twice, stopTracks_twice.
  reflexivity.
Qed.

Lemma beforeunload_dom s : dom (beforeunload s) = dom s.
Proof. unfold beforeunload. break_match; reflexivity. Qed.

(** X13: the [beforeunload] listener stops every track of the camera
    stream, keeps their number, removes the callback [animationFrameId]
    names and adds none; it leaves the document, the eye variables and the
    canvas alone, and running it again changes nothing. *)
Theorem beforeunload_stops_stream_and_loop (s : Page) :
  mediaStream (vars (beforeunload s))
  = option_map (map (fun _ : bool => false)) (mediaStream (vars s))
  /\ (forall h cb, animationFrameId (vars s) = Some h -> h <> 0%N ->
                   ~ In (h, cb) (callbacks (beforeunload s)))
  /\ (forall h cb, In (h, cb) (callbacks (beforeunload s)) ->
                   In (h, cb) (callbacks s))
  /\ dom (beforeunload s) = dom s
  /\ eyes (beforeunload s) = eyes s
  /\ painted (browser (beforeunload s)) = painted (browser s)
  /\ beforeunload (beforeunload s) = beforeunload s.
Proof.
  assert (Hshape :
            exists s1,
              beforeunload s
              = match mediaStream (vars s1) with
                | Some tracks =>
                    withVars (setMediaStream (Some (map (fun _ => false) tracks))) s1
                | None => s1
                end
              /\ vars s1 = vars s /\ dom s1 = dom s
              /\ painted (browser s1) = painted (browser s)
              /\ (forall h cb, In (h, cb) (callbacks s1) -> In (h, cb) (callbacks s))
              /\ (forall h cb, animationFrameId (vars s) = Some h -> h <> 0%N ->
                               ~ In (h, cb) (callbacks s1))).
  { eexists. split; [reflexivity | ].
    destruct (animationFrameId (vars s)) as [h | ] eqn:Hid;
      [destruct (N.eqb_spec h 0) as [Hz | Hnz] | ].
    - repeat split; try reflexivity; try (intros; assumption).
      intros h' cb Heq Hne. congruence.
    - repeat split; try reflexivity.
      + intros h' cb Hin. apply In_cancel in Hin. apply Hin.
      + intros h' cb Heq _ Hin. apply In_cancel in Hin.
        destruct Hin as [_ Hne]. congruence.
    - repeat split; try reflexivity; try (intros; assumption).
      intros h' cb Heq. discriminate Heq. }
  destruct Hshape as (s1 & Heq & Hv & Hd & Hp & Hsub & Hgone).
  split; [ | split; [ | split; [ | split; [ | split; [ | split]]]]].
  - rewrite <- Hv.
    destruct (mediaStream (vars s1)) eqn:E; rewrite Heq; [reflexivity | exact E].
  - intros h cb Hid Hnz.
    destruct (mediaStream (vars s1)); rewrite Heq; apply (Hgone h cb Hid Hnz).
  - intros h cb.
    destruct (mediaStream (vars s1)); rewrite Heq; apply Hsub.
  - destruct (mediaStream (vars s1)); rewrite Heq; exact Hd.
  - unfold eyes. rewrite <- Hv.
    destruct (mediaStream (vars s1)); rewrite Heq; reflexivity.
  - destruct (mediaStream (vars s1)); rewrite Heq; exact Hp.
  - apply beforeunload_twice.
Qed.

Lemma cameraRun_stream toS :
  mediaStream (vars (cameraRun toS)) = Some [true]
  /\ animationFrameId (vars (cameraRun toS)) = Some 6%N.
Proof. lazy. split; reflexivity. Qed.

Lemma beforeunload_stops_stream_and_loop_witness :
  let toS := fun _ : R => "1e+21" in
  mediaStream (vars (beforeunload (cameraRun toS))) = Some [false]
  /\ (forall cb, ~ In (6%N, cb) (callbacks (beforeunload (cameraRun toS)))).
Proof.
  intros toS.
  destruct (cameraRun_stream toS) as [Hm Hid].
  destruct (beforeunload_stops_stream_and_loop (cameraRun toS))
    as (Hs & Hc & _).
  split.
  - rewrite Hs, Hm. reflexivity.
  - intros cb. apply (Hc 6%N cb Hid). discriminate.
Defined.

(** ** Video errors *)

Lemma getPanel_setPanel p l d : getPanel p (setPanel p l d) = l.
Proof. destruct p; reflexivity. Qed.


(** X14: on the fallback path a video's error blanks that video's panel
    to the failure text and touches nothing else: the other panel, the
    status label, the variables, the scheduled callbacks and the canvas
    stay; on the camera path, which attaches no error handler, the event
    changes nothing at all. *)
Theorem video_error_blanks_own_panel (toS : R -> string) (v : VideoId)
    (st : VideoStatus) (s : Page) :
  wiring s <> NoVideo ->
  let s' := step toS (VideoEvent Error v st) s in
  (wiring s = FallbackWiring ->
   getPanel (errorPanel v) (dom s') = [LoadingState "Video failed to load"]
   /\ getPanel (otherPanel (errorPanel v)) (dom s')
      = getPanel (otherPanel (errorPanel v)) (dom s)
   /\ sourceStatus (dom s') = sourceStatus (dom s)
   /\ video1 (dom s') = video1 (dom s) /\ video2 (dom s') = video2 (dom s)
   /\ vars s' = vars s /\ browser s' = browser s)
  /\ (wiring s = CameraWiring -> s' = s).
Proof.
  intros _ s'. subst s'. unfold step, videoEvent. split.
  - intros ->. destruct v; cbn [errorPanel otherPanel];
      unfold handleVideoError; cbn [withDom dom vars browser];
      repeat split; reflexivity.
  - intros ->. destruct v; reflexivity.
Qed.

Lemma streamingFallback_wiring toS : wiring (streamingFallback toS) = FallbackWiring.
Proof. lazy. reflexivity. Qed.

Lemma video_error_blanks_own_panel_witness :
  let toS := fun _ : R => "1e+21" in
  let s' := step toS (VideoEvent Error Video1 noFrameYet) (streamingFallback toS) in
  getPanel PanelClear (dom s') = [LoadingState "Video failed to load"]
  /\ browser s' = browser (streamingFallback toS).
Proof.
  intros toS s'.
  assert (Hw : wiring (streamingFallback toS) <> NoVideo)
    by (rewrite streamingFallback_wiring; discriminate).
  destruct (video_error_blanks_own_panel toS Video1 noFrameYet
              (streamingFallback toS) Hw) as [Hf _].
  destruct (Hf (streamingFallback_wiring toS)) as (H1 & _ & _ & _ & _ & _ & H7).
  split; [exact H1 | exact H7].
Defined.

(** ** [setupPanel] *)

Lemma removeFirst_none (p : Node -> bool) (l : list Node) :
  find p l = None -> removeFirst p l = l.
Proof.
  induction l as [ | n l IH]; [reflexivity | ].
  cbn [find removeFirst]. destruct (p n); [discriminate | ].
  intros H. rewrite (IH H). reflexivity.
Qed.

Lemma setupPanel_children panel content isCamera keep s :
  getPanel panel (dom (setupPanel panel content isCamera keep s))
  = panelAfterSetup content isCamera keep (getPanel panel (dom s)).
Proof.
  unfold setupPanel, panelAfterSetup.
  destruct keep.
  - cbn [withDom dom]. rewrite getPanel_setPanel. reflexivity.
  - destruct (find isVideoNode _) as [[t | i | c | cl tx] | ] eqn:Hf;
      cbn [withDom dom]; rewrite getPanel_setPanel; try reflexivity.
    rewrite (removeFirst_none _ _ Hf). reflexivity.
Qed.







Lemma find_setFirstIndicator cls txt (l : list Node) :
  existsb isSourceIndicator l = true ->
  find isSourceIndicator (setFirstIndicator cls txt l)
  = Some (SourceIndicator cls txt).
Proof.
  induction l as [ | n l IH]; [discriminate | ].
  destruct n as [t | i | c | c t]; cbn [existsb setFirstIndicator find
    isSourceIndicator orb]; try exact IH.
  reflexivity.
Qed.

Lemma forallb_setFirstIndicator (k : Node -> bool) cls txt (l : list Node) :
  (forall c t, k (SourceIndicator c t) = true) ->
  forallb k l = true -> forallb k (setFirstIndicator cls txt l) = true.
Proof.
  intros Hk. induction l as [ | n l IH]; [reflexivity | ].
  intros H. cbn [forallb] in H. apply andb_true_iff in H. destruct H as [Hn Hl].
  destruct n as [t | i | c | c t]; cbn [setFirstIndicator forallb];
    try (rewrite Hn, (IH Hl); reflexivity).
  rewrite Hk, Hl. reflexivity.
Qed.

Lemma sameElement_indicator content c t :
  sameElement content (SourceIndicator c t) = false.
Proof. destruct content; reflexivity. Qed.


(** The shape of a panel after [setupPanel], for a content that is not
    itself an indicator. *)
Lemma panelAfterSetup_shape content isCamera keep children :
  isSourceIndicator content = false ->
  exists rest,
    panelAfterSetup content isCamera keep children = content :: rest
    /\ forallb (fun n => negb (sameElement content n)) rest = true
    /\ find isSourceIndicator (content :: rest) = Some (indicatorFor isCamera).
Proof.
  intros Hc. unfold panelAfterSetup.
  set (kept := if keep then _ else _).
  set (rest0 := filter (fun n => negb (sameElement content n)) kept).
  assert (Hall0 : forallb (fun n => negb (sameElement content n)) rest0 = true).
  { apply forallb_forall. intros n Hin. apply filter_In in Hin. apply Hin. }
  set (cls := if isCamera then _ else _).
  set (txt := if isCamera then "● Live" else _).
  assert (Hk : forall c t, negb (sameElement content (SourceIndicator c t)) = true)
    by (intros; rewrite sameElement_indicator; reflexivity).
  assert (Hhead : forall l, setFirstIndicator cls txt (content :: l)
                            = content :: setFirstIndicator cls txt l)
    by (intros l; destruct content; try reflexivity; discriminate Hc).
  cbn [existsb]. rewrite Hc. cbn [orb].
  destruct (existsb isSourceIndicator rest0) eqn:He.
  - exists (setFirstIndicator cls txt rest0). rewrite Hhead.
    split; [reflexivity | ]. split.
    + apply forallb_setFirstIndicator; assumption.
    + cbn [find]. rewrite Hc. apply find_setFirstIndicator, He.
  - exists (setFirstIndicator cls txt (rest0 ++ [SourceIndicator "source-indicator" ""])).
    change ((content :: rest0) ++ [SourceIndicator "source-indicator" ""])%list
      with (content :: (rest0 ++ [SourceIndicator "source-indicator" ""]))%list.
    rewrite Hhead. split; [reflexivity | ]. split.
    + apply forallb_setFirstIndicator; [exact Hk | ].
      rewrite forallb_app, Hall0. cbn. rewrite sameElement_indicator. reflexivity.
    + cbn [find]. rewrite Hc. apply find_setFirstIndicator.
      rewrite existsb_app. cbn. apply orb_true_r.
Qed.




Lemma In_removeFirst_other (p : Node -> bool) (n : Node) (l : list Node) :
  In n l -> p n = false -> In n (removeFirst p l).
Proof.
  intros Hin Hp. induction l as [ | m l IH]; [destruct Hin | ].
  cbn [removeFirst]. destruct Hin as [-> | Hin].
  - rewrite Hp. left. reflexivity.
  - destruct (p m); [exact Hin | right; apply IH, Hin].
Qed.

Lemma In_setFirstIndicator cls txt (n : Node) (l : list Node) :
  In n l -> isSourceIndicator n = false -> In n (setFirstIndicator cls txt l).
Proof.
  intros Hin Hn. induction l as [ | m l IH]; [destruct Hin | ].
  destruct Hin as [-> | Hin].
  - destruct n; try discriminate Hn; left; reflexivity.
  - destruct m; cbn [setFirstIndicator]; try (right; apply IH, Hin).
    right. exact Hin.
Qed.

Lemma find_removeFirst_other (q p : Node -> bool) (l : list Node) :
  (forall n, p n = true -> q n = false) ->
  find q (removeFirst p l) = find q l.
Proof.
  intros Hd. induction l as [ | n l IH]; [reflexivity | ].
  cbn [removeFirst find]. destruct (p n) eqn:Hp.
  - rewrite (Hd n Hp). reflexivity.
  - cbn [find]. destruct (q n); [reflexivity | exact IH].
Qed.

(** A video that [setupPanel] is told to keep stays in the panel. *)
Lemma panelAfterSetup_keeps_video (c : Canvas) isCamera (i : VideoId) children :
  In (VideoNode i) children ->
  In (VideoNode i) (panelAfterSetup (CanvasNode c) isCamera true children).
Proof.
  intros Hin. unfold panelAfterSetup.
  apply In_setFirstIndicator; [ | reflexivity].
  assert (Hp : In (VideoNode i)
                 (CanvasNode c
                  :: filter (fun n => negb (sameElement (CanvasNode c) n))
                       (removeFirst isCanvasNode
                          (removeFirst isLoadingState children)))).
  { right. apply filter_In. split; [ | reflexivity].
    apply In_removeFirst_other; [ | reflexivity].
    apply In_removeFirst_other; [exact Hin | reflexivity]. }
  destruct (existsb isSourceIndicator _); [exact Hp | ].
  apply in_or_app. left. exact Hp.
Qed.

(** X16: when the hidden fallback video has loaded, its canvas is put in
    front of it in the combined panel with the video's size, and the video
    itself is kept: it stays in the panel and neither video loses its
    source; the loop that starts reads that video and paints that canvas. *)
Theorem fallback_canvas_keeps_hidden_video (st : VideoStatus) (s : Page) :
  In (VideoNode Video2) (panelCombined (dom s)) ->
  let s' := fallbackVideo2Loaded st s in
  video1 (dom s') = video1 (dom s) /\ video2 (dom s') = video2 (dom s)
  /\ In (VideoNode Video2) (panelCombined (dom s'))
  /\ exists (canvas : Canvas) (rest : list Node),
       panelCombined (dom s') = CanvasNode canvas :: rest
       /\ width canvas = videoWidth st /\ height canvas = videoHeight st
       /\ renderPending Video2 canvas s'
       /\ forall h cb, In (h, cb) (callbacks s') ->
                       In (h, cb) (callbacks s) \/ cb = CbRender Video2 canvas.
Proof.
  intros Hin s'. subst s'.
  unfold fallbackVideo2Loaded, startBlurRender, createCanvas.
  set (c := mkCanvas (canvasCount (browser s)) (videoWidth st) (videoHeight st) false).
  set (s1 := withBrowser (setCanvasCount (S (canvasCount (browser s)))) s).
  set (s2 := setupPanel PanelCombined (CanvasNode c) false true s1).
  destruct (render_flags Video2 c st s2) as (_ & _ & _ & Hd & _).
  destruct (render_schedules Video2 c st s2) as (Hc & _ & _).
  rewrite Hd.
  assert (Hdom : video1 (dom s2) = video1 (dom s) /\ video2 (dom s2) = video2 (dom s)).
  { subst s2.
    destruct (setupPanel_dom PanelCombined (CanvasNode c) false true s1)
      as (l & d' & -> & [-> | (i & _ & Hf & _)]); [ | discriminate Hf].
    split; reflexivity. }
  pose proof (setupPanel_children PanelCombined (CanvasNode c) false true s1) as Hch.
  fold s2 in Hch. cbn [getPanel] in Hch.
  change (panelCombined (dom s1)) with (panelCombined (dom s)) in Hch.
  split; [apply Hdom | ]. split; [apply Hdom | ]. split.
  - rewrite Hch. apply panelAfterSetup_keeps_video, Hin.
  - destruct (panelAfterSetup_shape (CanvasNode c) false true
                (panelCombined (dom s)) eq_refl) as (rest & Heq & _ & _).
    exists c, rest. rewrite Hch. split; [exact Heq | ].
    split; [reflexivity | ]. split; [reflexivity | ]. split.
    + exists (N.succ (frameCallbackId (browser s2))). unfold callbacks.
      rewrite Hc. apply in_or_app. right. left. reflexivity.
    + intros h cb. unfold callbacks. rewrite Hc. intros Hi.
      apply in_app_or in Hi. destruct Hi as [Hi | [Hi | []]].
      * left. subst s2. rewrite setupPanel_browser in Hi. exact Hi.
      * right. inversion Hi. reflexivity.
Qed.

Lemma fallbackStart_panel toS :
  In (VideoNode Video2)
     (panelCombined (dom (init toS (mkNavigator None) (loadedPage blankDocument true)))).
Proof. lazy. right. left. reflexivity. Qed.

Lemma fallback_canvas_keeps_hidden_video_witness :
  let toS := fun _ : R => "1e+21" in
  let s := init toS (mkNavigator None) (loadedPage blankDocument true) in
  let s' := fallbackVideo2Loaded readyVideo s in
  video1 (dom s') = video1 (dom s) /\ video2 (dom s') = video2 (dom s)
  /\ In (VideoNode Video2) (panelCombined (dom s')).
Proof.
  intros toS s.
  destruct (fallback_canvas_keeps_hidden_video readyVideo s (fallbackStart_panel toS))
    as (H1 & H2 & H3 & _).
  split; [exact H1 | split; [exact H2 | exact H3]].
Defined.

(** X17: without [keepHiddenVideo], [setupPanel] releases the first video
    it finds in the panel: that video is paused and loses [srcObject] and
    [src], the other video is untouched; this also holds when the content
    is that very video, which then is the first child again, released. *)
Theorem setupPanel_releases_first_video (panel : PanelId) (content : Node)
    (isCamera : bool) (i : VideoId) (s : Page) :
  find isVideoNode (getPanel panel (dom s)) = Some (VideoNode i) ->
  let s' := setupPanel panel content isCamera false s in
  getVideo i (dom s') = option_map releaseVideo (getVideo i (dom s))
  /\ (forall video, getVideo i (dom s') = Some video ->
                    playing video = false /\ srcObject video = false
                    /\ src video = "")
  /\ (forall j, j <> i -> getVideo j (dom s') = getVideo j (dom s))
  /\ (content = VideoNode i ->
      exists rest, getPanel panel (dom s') = VideoNode i :: rest).
Proof.
  intros Hfind s'.
  assert (Hf : find isVideoNode
                 (removeFirst isCanvasNode
                    (removeFirst isLoadingState (getPanel panel (dom s))))
               = Some (VideoNode i)).
  { rewrite !find_removeFirst_other
      by (intros [ | | | ]; (discriminate || reflexivity)).
    exact Hfind. }
  assert (Hdom : exists l,
             dom s' = setPanel panel l
                        (setVideo i (option_map releaseVideo (getVideo i (dom s)))
                                  (dom s))).
  { subst s'. unfold setupPanel. rewrite Hf. cbn [withDom dom].
    eexists. reflexivity. }
  destruct Hdom as (l & Hdom).
  assert (Hrel : getVideo i (dom s') = option_map releaseVideo (getVideo i (dom s)))
    by (rewrite Hdom; destruct panel, i; reflexivity).
  split; [exact Hrel | ]. split; [ | split].
  - intros video Hv. rewrite Hrel in Hv.
    destruct (getVideo i (dom s)) as [v0 | ]; [ | discriminate Hv].
    inversion Hv. repeat split; reflexivity.
  - intros j Hj. rewrite Hdom.
    destruct panel, i, j; try reflexivity; exfalso; apply Hj; reflexivity.
  - intros ->. subst s'. rewrite setupPanel_children.
    destruct (panelAfterSetup_shape (VideoNode i) isCamera false
                (getPanel panel (dom s)) eq_refl) as (rest & Heq & _ & _).
    exists rest. exact Heq.
Qed.

(** The clear panel of the fallback path once its video has loaded. *)
Lemma fallbackClearLoaded toS :
  let s := step toS (VideoEvent Loadeddata Video1 readyVideo)
             (init toS (mkNavigator None) (loadedPage blankDocument true)) in
  find isVideoNode (getPanel PanelClear (dom s)) = Some (VideoNode Video1)
  /\ option_map src (getVideo Video1 (dom s)) = Some FALLBACK_VIDEO_URL.
Proof. lazy. split; reflexivity. Qed.

Lemma setupPanel_releases_first_video_witness :
  let toS := fun _ : R => "1e+21" in
  let s := step toS (VideoEvent Loadeddata Video1 readyVideo)
             (init toS (mkNavigator None) (loadedPage blankDocument true)) in
  let s' := setupPanel PanelClear (VideoNode Video1) false false s in
  getVideo Video1 (dom s') = option_map releaseVideo (getVideo Video1 (dom s))
  /\ exists rest, getPanel PanelClear (dom s') = VideoNode Video1 :: rest.
Proof.
  intros toS s.
  destruct (setupPanel_releases_first_video PanelClear (VideoNode Video1) false
              Video1 s (proj1 (fallbackClearLoaded toS)))
    as (H1 & _ & _ & H4).
  split; [exact H1 | exact (H4 eq_refl)].
Defined.

(** ** The source, on every path *)

Lemma setupPanel_sourceKind p n a b s :
  sourceKind (setupPanel p n a b s) = sourceKind s.
Proof.
  unfold sourceKind.
  rewrite setupPanel_vars, setupPanel_browser, setupPanel_sourceStatus.
  destruct (setupPanel_flags p n a b s) as (_ & -> & _ & ->). reflexivity.
Qed.

Lemma render_sourceKind v c st s : sourceKind (render v c st s) = sourceKind s.
Proof.
  unfold render, applySimpleBlur, requestAnimationFrame.
  break_match; reflexivity.
Qed.

Lemma setupCanvas_sourceKind st s : sourceKind (setupCanvas st s) = sourceKind s.
Proof.
  unfold setupCanvas, startBlurRender, createCanvas.
  break_match; try reflexivity.
  rewrite render_sourceKind, setupPanel_sourceKind. reflexivity.
Qed.

Lemma beforeunload_sourceKind s : sourceKind (beforeunload s) = sourceKind s.
Proof.
  rewrite beforeunload_halves. unfold stopTracks, cancelLoop.
  destruct (animationFrameId (vars s)) as [h | ];
    [destruct (h =? 0)%N | ];
    try change (mediaStream (vars (cancelAnimationFrame h s)))
      with (mediaStream (vars s));
    destruct (mediaStream (vars s)) eqn:Hm; unfold sourceKind; cbn;
    rewrite ?Hm; reflexivity.
Qed.

(** An event other than the answer of [getUserMedia] leaves the source as
    it is. *)
Lemma step_sourceKind toS e s :
  isSourceEvent e = false -> sourceKind (step toS e s) = sourceKind s.
Proof.
  intros He.
  destruct e as [x | x | | | stream | err | k v st | status | ];
    try discriminate He; unfold step.
  - destruct (listening s); [ | reflexivity].
    unfold sourceKind, updateEyeDisplay. cbn [withDom withVars dom vars browser
      wiring awaitingCamera setLeftDiopters mediaStream].
    rewrite setDisplayText_sourceStatus. reflexivity.
  - destruct (listening s); [ | reflexivity].
    unfold sourceKind, updateEyeDisplay. cbn [withDom withVars dom vars browser
      wiring awaitingCamera setRightDiopters mediaStream].
    rewrite setDisplayText_sourceStatus. reflexivity.
  - destruct (listening s); reflexivity.
  - destruct (listening s); reflexivity.
  - unfold videoEvent, fallbackVideo2Loaded, handleVideoError, startBlurRender,
      createCanvas.
    destruct (wiring s) eqn:Hw, v, k; try reflexivity;
      rewrite ?render_sourceKind, ?setupCanvas_sourceKind, ?setupPanel_sourceKind;
      try reflexivity;
      unfold sourceKind; cbn [withDom dom vars browser wiring awaitingCamera];
      rewrite setPanel_sourceStatus; reflexivity.
  - unfold runAnimationFrame.
    apply (fold_left_preserves _ (fun a => sourceKind a = sourceKind s));
      [ | reflexivity].
    intros a h Ha. unfold runFrameCallback.
    destruct (lookupCallback h _) as [cb | ]; [ | assumption].
    destruct cb; cbn [invoke];
      rewrite ?render_sourceKind, ?setupCanvas_sourceKind; exact Ha.
  - apply beforeunload_sourceKind.
Qed.

Lemma sourceConsistent_sourceKind s s' :
  sourceKind s' = sourceKind s -> sourceConsistent s -> sourceConsistent s'.
Proof.
  unfold sourceKind, sourceConsistent. intros H [Hc Hm].
  injection H as Hw Ha Hs Hg Ht. rewrite Hw, Ha, Hg, Ht.
  split; [exact Hc | ].
  destruct (wiring s); destruct (mediaStream (vars s')), (mediaStream (vars s));
    try discriminate Hs; destruct Hm as (H1 & H2 & H3);
    repeat split; try assumption; try discriminate; try reflexivity;
    try (exfalso; apply H2; reflexivity).
Qed.

Lemma useFallbackVideo_sourceConsistent s :
  awaitingCamera s = false -> mediaStream (vars s) = None ->
  (getUserMediaCalls (browser s) <= 1)%nat ->
  sourceConsistent (useFallbackVideo s).
Proof.
  intros Ha Hm Hc. unfold sourceConsistent, useFallbackVideo.
  cbn. repeat split; assumption.
Qed.

Lemma step_sourceConsistent toS e s :
  sourceConsistent s -> sourceConsistent (step toS e s).
Proof.
  intros Hs. destruct (isSourceEvent e) eqn:He.
  - destruct Hs as [Hc Hm].
    destruct e as [x | x | | | stream | err | k v st | status | ];
      try discriminate He; unfold step.
    + destruct (Bool.bool_dec (awaitingCamera s) true) as [Ha | Ha];
        [rewrite Ha
        | apply not_true_is_false in Ha; rewrite Ha; split; assumption].
      destruct (initCameraFulfilled_flags stream (setAwaitingCamera false s))
        as (Hw1 & Ha1 & _ & Hs1 & Hm1).
      unfold sourceConsistent.
      rewrite initCameraFulfilled_browser, Hw1, Ha1, Hs1, Hm1.
      split; [exact Hc | ]. repeat split. discriminate.
    + destruct (Bool.bool_dec (awaitingCamera s) true) as [Ha | Ha];
        [rewrite Ha
        | apply not_true_is_false in Ha; rewrite Ha; split; assumption].
      apply useFallbackVideo_sourceConsistent; [reflexivity | | exact Hc].
      destruct (wiring s); destruct Hm as (H1 & H2 & H3);
        try congruence; exact H2.
  - apply (sourceConsistent_sourceKind s); [apply step_sourceKind, He | exact Hs].
Qed.

Lemma init_sourceConsistent toS nav document ctx2d :
  sourceConsistent (init toS nav (loadedPage document ctx2d)).
Proof.
  unfold init. destruct (hasGetUserMedia nav).
  - unfold sourceConsistent. cbn. repeat split; lia.
  - apply useFallbackVideo_sourceConsistent; cbn; (reflexivity || lia).
Qed.

(** X18: on every path and after any events, [getUserMedia] has been
    called at most once and the status label, the attached handlers and
    the stream agree: with the camera's handlers the label reads
    [Source: Device Camera] and a stream is held, with the fallback's it
    reads [Source: Sample Video] and none is, and before either the one
    call is still awaited. *)
Theorem source_label_matches_source (toS : R -> string) (nav : Navigator)
    (document : Dom) (ctx2d : bool) (events : list Event) :
  sourceConsistent (run toS events (init toS nav (loadedPage document ctx2d))).
Proof.
  unfold run.
  apply (fold_left_preserves (fun s e => step toS e s) sourceConsistent).
  - intros a e. apply step_sourceConsistent.
  - apply init_sourceConsistent.
Qed.

(** ** The videos the page creates *)

Lemma videosFlagged_same s s' :
  (forall i, getVideo i (dom s') = getVideo i (dom s)) ->
  videosFlagged s -> videosFlagged s'.
Proof. intros H Hs i v Hv. rewrite H in Hv. exact (Hs i v Hv). Qed.

Lemma releaseVideo_flags v : videoFlags (releaseVideo v) = videoFlags v.
Proof. reflexivity. Qed.

Lemma setupPanel_videosFlagged p n a b s :
  videosFlagged s -> videosFlagged (setupPanel p n a b s).
Proof.
  intros Hs i v.
  destruct (setupPanel_dom p n a b s) as (l & d' & -> & [-> | (j & _ & _ & ->)]).
  - intros Hv. destruct p, i;
      first [exact (Hs Video1 v Hv) | exact (Hs Video2 v Hv)].
  - intros Hv. destruct p, i, j;
      first [ exact (Hs Video1 v Hv) | exact (Hs Video2 v Hv)
            | cbn [getVideo setPanel setVideo video1 video2] in Hv;
              match type of Hv with
              | option_map releaseVideo ?o = Some _ =>
                  destruct o as [v0 | ] eqn:Ho; [ | discriminate Hv];
                  inversion Hv; rewrite releaseVideo_flags;
                  first [exact (Hs Video1 v0 Ho) | exact (Hs Video2 v0 Ho)]
              end ].
Qed.

Lemma render_videosFlagged v c st s :
  videosFlagged s -> videosFlagged (render v c st s).
Proof.
  apply videosFlagged_same. intros i.
  destruct (render_flags v c st s) as (_ & _ & _ & -> & _). reflexivity.
Qed.

Lemma setupCanvas_videosFlagged st s :
  videosFlagged s -> videosFlagged (setupCanvas st s).
Proof.
  intros H. unfold setupCanvas, startBlurRender, createCanvas.
  break_match; try exact H.
  apply render_videosFlagged, setupPanel_videosFlagged. exact H.
Qed.

Lemma useFallbackVideo_videosFlagged s : videosFlagged (useFallbackVideo s).
Proof.
  intros i v. unfold useFallbackVideo. destruct i; cbn; intros Hv;
    inversion Hv; reflexivity.
Qed.

Lemma initCameraFulfilled_videosFlagged stream s :
  videosFlagged s -> videosFlagged (initCameraFulfilled stream s).
Proof.
  intros H. unfold initCameraFulfilled.
  apply (videosFlagged_same
           (setupPanel PanelClear (VideoNode Video1) true false
              (withDom (setVideo Video1 (Some (createVideoElement StreamSrc true)))
                 (withVars (setMediaStream (Some stream)) s)))).
  - intros i. cbn [withDom setWiring setCanvasSetupDone dom].
    destruct i; reflexivity.
  - apply setupPanel_videosFlagged.
    intros i v. destruct i; cbn; intros Hv.
    + inversion Hv. reflexivity.
    + apply (H Video2 v Hv).
Qed.

Lemma step_videosFlagged toS e s :
  videosFlagged s -> videosFlagged (step toS e s).
Proof.
  intros H.
  destruct e as [x | x | | | stream | err | k v st | status | ]; unfold step.
  - destruct (listening s); [ | exact H].
    apply (videosFlagged_same s); [intros i; destruct i; reflexivity | exact H].
  - destruct (listening s); [ | exact H].
    apply (videosFlagged_same s); [intros i; destruct i; reflexivity | exact H].
  - destruct (listening s); [ | exact H].
    apply (videosFlagged_same s); [intros i; destruct i; reflexivity | exact H].
  - destruct (listening s); [ | exact H].
    apply (videosFlagged_same s); [intros i; destruct i; reflexivity | exact H].
  - destruct (awaitingCamera s); [ | exact H].
    apply initCameraFulfilled_videosFlagged. exact H.
  - destruct (awaitingCamera s); [ | exact H].
    apply useFallbackVideo_videosFlagged.
  - unfold videoEvent, fallbackVideo2Loaded, handleVideoError, startBlurRender,
      createCanvas.
    destruct (wiring s), v, k; try exact H;
      first [ apply setupCanvas_videosFlagged; exact H
            | apply setupPanel_videosFlagged; exact H
            | apply render_videosFlagged, setupPanel_videosFlagged; exact H
            | apply (videosFlagged_same s);
              [intros i; destruct i; reflexivity | exact H] ].
  - unfold runAnimationFrame.
    apply fold_left_preserves; [ | exact H].
    intros a h Ha. unfold runFrameCallback.
    destruct (lookupCallback h _) as [cb | ]; [ | exact Ha].
    destruct cb; cbn [invoke];
      [apply render_videosFlagged | apply setupCanvas_videosFlagged]; exact Ha.
  - apply (videosFlagged_same s); [ | exact H].
    intros i.
    rewrite beforeunload_dom. reflexivity.
Qed.

(** X19: every video the page ever has is muted, inline, autoplaying and
    looping, whatever path was taken and whatever events arrived; releasing
    a video in [setupPanel] does not change these flags. *)
Theorem videos_always_flagged (toS : R -> string) (nav : Navigator)
    (document : Dom) (ctx2d : bool) (events : list Event) (i : VideoId)
    (v : Video) :
  getVideo i (dom (run toS events (init toS nav (loadedPage document ctx2d))))
  = Some v ->
  autoplay v = true /\ playsInline v = true /\ muted v = true /\ loop v = true.
Proof.
  intros Hv.
  assert (H : videosFlagged
                (run toS events (init toS nav (loadedPage document ctx2d)))).
  { unfold run.
    apply (fold_left_preserves (fun s e => step toS e s) videosFlagged).
    - intros a e. apply step_videosFlagged.
    - unfold init. destruct (hasGetUserMedia nav).
      + intros j w. destruct j, document; cbn; discriminate.
      + apply useFallbackVideo_videosFlagged. }
  specialize (H i v Hv). unfold videoFlags in H.
  apply andb_true_iff in H. destruct H as [H H4].
  apply andb_true_iff in H. destruct H as [H H3].
  apply andb_true_iff in H. destruct H as [H1 H2].
  repeat split; assumption.
Qed.

Lemma streamingFallback_video2 toS :
  getVideo Video2 (dom (run toS [VideoEvent Loadeddata Video2 readyVideo]
                          (init toS (mkNavigator None) (loadedPage blankDocument true))))
  = Some (makeHiddenVideo (createVideoElement (UrlSrc FALLBACK_VIDEO_URL) false)).
Proof. lazy. reflexivity. Qed.

Lemma videos_always_flagged_witness :
  let toS := fun _ : R => "1e+21" in
  let v := makeHiddenVideo (createVideoElement (UrlSrc FALLBACK_VIDEO_URL) false) in
  autoplay v = true /\ playsInline v = true /\ muted v = true /\ loop v = true.
Proof.
  intros toS v.
  exact (videos_always_flagged toS (mkNavigator None) blankDocument true
           [VideoEvent Loadeddata Video2 readyVideo] Video2 v
           (streamingFallback_video2 toS)).
Defined.

(** * The blur in double precision

    The script's numbers are doubles.  The statements below are about
    [Binary64.calculateBlur] and [Binary64.calculateBinocularBlur], lines
    26-35 on doubles; those that need a value of [Math.pow] take it
    rounded to nearest ([Nearest]), the steps of the sliders standing for
    the values a bounded slider can write. *)

Module Doubles.

Import PrimFloat.

Local Set Warnings "-inexact-float".

(** ** Steps and tables *)

Lemma In_steps (a n : nat) (k : Z) :
  (Z.of_nat a <= k < Z.of_nat a + Z.of_nat n)%Z ->
  In k (map Z.of_nat (seq a n)).
Proof.
  intros H. apply in_map_iff. exists (Z.to_nat k).
  split; [apply Z2Nat.id; lia | apply in_seq; lia].
Qed.

Lemma In_hundredthSteps (k : Z) :
  (0 <= k <= 1000)%Z -> In k Binary64.hundredthSteps.
Proof. intros H. apply (In_steps 0 1001). lia. Qed.

Lemma In_positiveHundredthSteps (k : Z) :
  (1 <= k <= 1000)%Z -> In k positiveHundredthSteps.
Proof. intros H. apply (In_steps 1 1000). lia. Qed.

Lemma In_quarterSteps (k : Z) :
  (0 <= k <= 40)%Z -> In k Binary64.quarterSteps.
Proof. intros H. apply (In_steps 0 41). lia. Qed.

Lemma allPairs_spec {A : Type} (test : A -> A -> bool) (l : list A) :
  allPairs test l = true ->
  forall p q, In p l -> In q l -> test p q = true.
Proof.
  unfold allPairs. intros H p q Hp Hq.
  rewrite forallb_forall in H. specialize (H p Hp).
  rewrite forallb_forall in H. exact (H q Hq).
Qed.

Lemma In_tabulate {A : Type} (f : Z -> A) (ks : list Z) (k : Z) :
  In k ks -> In (k, f k) (tabulate f ks).
Proof. intros H. unfold tabulate. apply (in_map (fun k => (k, f k))), H. Qed.

Lemma laterIsLarger_tabulate (f : Z -> float) (ks : list Z) :
  allPairs laterIsLarger (tabulate f ks) = true ->
  forall j k, In j ks -> In k ks -> (j < k)%Z -> (f j <? f k)%float = true.
Proof.
  intros H j k Hj Hk Hjk.
  pose proof (allPairs_spec _ _ H _ _ (In_tabulate f ks j Hj)
                (In_tabulate f ks k Hk)) as T.
  unfold laterIsLarger in T. cbn [fst snd] in T.
  destruct (Z.ltb_spec j k) as [_ | Hge]; [exact T | lia].
Qed.

Lemma In_quarterSettings (j k : Z) :
  In j Binary64.quarterSteps -> In k Binary64.quarterSteps ->
  In (setting j k) quarterSettings.
Proof.
  intros Hj Hk. unfold quarterSettings. cbv zeta.
  apply in_flat_map. exists (j, quarterBlur j).
  split; [apply In_tabulate, Hj | ].
  apply in_map_iff. exists (k, quarterBlur k).
  split; [reflexivity | apply In_tabulate, Hk].
Qed.

(** ** Equality of doubles *)

(** Two doubles that [===] holds of are the same double, or both are a
    zero. *)
Lemma eqb_true (x y : float) :
  (x =? y)%float = true ->
  x = y \/ ((x =? 0)%float = true /\ (y =? 0)%float = true).
Proof.
  rewrite !FloatAxioms.eqb_spec.
  replace (FloatOps.Prim2SF 0%float) with (SpecFloat.S754_zero false)
    by reflexivity.
  intros H.
  destruct (FloatOps.Prim2SF x) as [[ | ] | [ | ] | | [ | ] mx ex] eqn:Ex;
    destruct (FloatOps.Prim2SF y) as [[ | ] | [ | ] | | [ | ] my ey] eqn:Ey;
    try discriminate H;
    try (right; split; reflexivity);
    left; apply FloatAxioms.Prim2SF_inj; rewrite Ex, Ey; try reflexivity;
    unfold SpecFloat.SFeqb, SpecFloat.SFcompare in H;
    change (Pos.compare_cont Eq mx my) with (Pos.compare mx my) in H;
    destruct (Z.compare_spec ex ey) as [-> | _ | _]; try discriminate H;
    destruct (Pos.compare_spec mx my) as [-> | _ | _]; try discriminate H;
    reflexivity.
Qed.

(** ** Counting doubles *)

Section Counting.

Import SpecFloat FloatOps.

Local Open Scope Z_scope.

Lemma digits2_pos_size (m : positive) : digits2_pos m = Pos.size m.
Proof. induction m as [m IH | m IH | ]; simpl; [rewrite IH | rewrite IH | ]; reflexivity. Qed.

Lemma digits2_pos_log2 (m : positive) :
  Zpos (digits2_pos m) = Z.log2 (Zpos m) + 1.
Proof.
  destruct m as [m | m | ]; simpl; try reflexivity;
    rewrite digits2_pos_size; lia.
Qed.

Lemma doubleAfter3_spec (i : Z) :
  0 <= i <= 1125899906842624 ->
  Prim2SF (doubleAfter3 i)
  = S754_finite false (Z.to_pos (6755399441055744 + i)) (-51).
Proof.
  intros Hi. unfold doubleAfter3. apply FloatAxioms.Prim2SF_SF2Prim.
  unfold valid_binary, bounded, canonical_mantissa, fexp.
  rewrite digits2_pos_log2, Z2Pos.id by lia.
  rewrite (Z.log2_unique (6755399441055744 + i) 52).
  - reflexivity.
  - lia.
  - change (2 ^ 52) with 4503599627370496.
    change (2 ^ (52 + 1)) with 9007199254740992. lia.
Qed.

Lemma doubleAfter3_first : doubleAfter3 0 = 3%float.
Proof. reflexivity. Qed.

Lemma doubleAfter3_last : doubleAfter3 1125899906842624 = 3.5%float.
Proof. reflexivity. Qed.

Lemma finite_compare (m1 m2 : positive) (e : Z) :
  SFcompare (S754_finite false m1 e) (S754_finite false m2 e)
  = Some (Pos.compare m1 m2).
Proof. unfold SFcompare. rewrite Z.compare_refl. reflexivity. Qed.

Lemma doubleAfter3_lt (i j : Z) :
  0 <= i -> i < j -> j <= 1125899906842624 ->
  (doubleAfter3 i <? doubleAfter3 j)%float = true.
Proof.
  intros Hi Hij Hj.
  rewrite FloatAxioms.ltb_spec, !doubleAfter3_spec by lia.
  unfold SFltb. rewrite finite_compare.
  destruct (Pos.compare_spec (Z.to_pos (6755399441055744 + i))
              (Z.to_pos (6755399441055744 + j))) as [H | H | H];
    [ | reflexivity | ]; exfalso.
  - apply (f_equal Zpos) in H. rewrite !Z2Pos.id in H by lia. lia.
  - apply Pos2Z.pos_lt_pos in H. rewrite !Z2Pos.id in H by lia. lia.
Qed.

Lemma doubleAfter3_le (i j : Z) :
  0 <= i -> i <= j -> j <= 1125899906842624 ->
  (doubleAfter3 i <=? doubleAfter3 j)%float = true.
Proof.
  intros Hi Hij Hj.
  rewrite FloatAxioms.leb_spec, !doubleAfter3_spec by lia.
  unfold SFleb. rewrite finite_compare.
  destruct (Pos.compare_spec (Z.to_pos (6755399441055744 + i))
              (Z.to_pos (6755399441055744 + j))) as [H | H | H];
    [reflexivity | reflexivity | exfalso].
  apply Pos2Z.pos_lt_pos in H. rewrite !Z2Pos.id in H by lia. lia.
Qed.

Lemma atLeast_first (m : positive) (v : spec_float) :
  SFleb (S754_finite false m (-50)) v = true -> atLeast (Zpos m) v.
Proof.
  unfold SFleb, SFcompare, atLeast.
  destruct v as [[ | ] | [ | ] | | [ | ] m' e]; try discriminate; try exact (fun _ => I).
  destruct (Z.compare_spec (-50) e) as [<- | H | H]; try discriminate.
  - change (Pos.compare_cont Eq m m') with (Pos.compare m m').
    destruct (Pos.compare_spec m m') as [-> | H | H]; try discriminate;
      intros _; right; split; try reflexivity; lia.
  - intros _. left. exact H.
Qed.

Lemma atLeast_next (t : Z) (u v : spec_float) :
  atLeast t u -> SFltb u v = true -> atLeast (t + 1) v.
Proof.
  unfold SFltb, SFcompare, atLeast.
  destruct u as [[ | ] | [ | ] | | [ | ] m e]; try contradiction;
    destruct v as [[ | ] | [ | ] | | [ | ] m' e']; try discriminate;
    try (intros _ _; exact I).
  intros Hu.
  destruct (Z.compare_spec e e') as [<- | H | H]; try discriminate.
  - change (Pos.compare_cont Eq m m') with (Pos.compare m m').
    destruct (Pos.compare_spec m m') as [-> | H | H]; try discriminate.
    intros _. destruct Hu as [Hu | [He Hu]]; [left; exact Hu | right; split; [exact He | lia]].
  - intros _. left. destruct Hu as [Hu | [He Hu]]; lia.
Qed.

Lemma atLeast_last (t : Z) (v : spec_float) (m : positive) :
  atLeast t v -> SFleb v (S754_finite false m (-50)) = true -> t <= Zpos m.
Proof.
  unfold SFleb, SFcompare, atLeast.
  destruct v as [[ | ] | [ | ] | | [ | ] m' e]; try contradiction; try discriminate.
  intros Hv.
  destruct (Z.compare_spec e (-50)) as [-> | H | H]; try discriminate.
  - change (Pos.compare_cont Eq m' m) with (Pos.compare m' m).
    destruct (Pos.compare_spec m' m) as [-> | H | H]; try discriminate;
      intros _; destruct Hv as [Hv | [_ Hv]]; lia.
  - intros _. destruct Hv as [Hv | [He _]]; lia.
Qed.

(** Whatever [Math.pow] returns, [calculateBlur] is not strictly
    increasing over the doubles from 3 to 3.5 when its values at the two
    ends lie between 4.6 and 5.59 (they are about 4.69 and 5.55): there
    are [2^50 + 1] doubles from 3 to 3.5 and fewer from 4.6 to 5.59. *)
Lemma no_engine_makes_calculateBlur_strict (pow : float -> float -> float) :
  (4.6 <=? Binary64.calculateBlur pow 3)%float = true ->
  (Binary64.calculateBlur pow 3.5 <=? 5.59)%float = true ->
  ~ (forall d1 d2 : float,
        (3 <=? d1)%float = true -> (d1 <? d2)%float = true ->
        (d2 <=? 3.5)%float = true ->
        (Binary64.calculateBlur pow d1 <? Binary64.calculateBlur pow d2)%float
        = true).
Proof.
  intros Hlo Hhi Hinc.
  set (f := Binary64.calculateBlur pow) in *.
  assert (Hall : forall i, 0 <= i -> i <= 1125899906842624 ->
            atLeast (5179139571476070 + i) (Prim2SF (f (doubleAfter3 i)))).
  { intros i Hi. pattern i. apply natlike_ind; [ | | exact Hi].
    - intros _. rewrite doubleAfter3_first.
      rewrite FloatAxioms.leb_spec in Hlo.
      apply (atLeast_first 5179139571476070), Hlo.
    - intros x Hx IH Hle.
      replace (5179139571476070 + Z.succ x) with (5179139571476070 + x + 1) by lia.
      apply (atLeast_next _ (Prim2SF (f (doubleAfter3 x)))); [apply IH; lia | ].
      rewrite <- FloatAxioms.ltb_spec. apply Hinc.
      + rewrite <- doubleAfter3_first. apply doubleAfter3_le; lia.
      + apply doubleAfter3_lt; lia.
      + rewrite <- doubleAfter3_last. apply doubleAfter3_le; lia. }
  specialize (Hall 1125899906842624 ltac:(lia) ltac:(lia)).
  rewrite doubleAfter3_last in Hall.
  rewrite FloatAxioms.leb_spec in Hhi.
  pose proof (atLeast_last _ _ 6293780479250268 Hall Hhi). lia.
Qed.

End Counting.

(** ** [calculateBlur]: zero and order *)

Lemma calculateBlur_zeroes (pow : float -> float -> float) :
  Binary64.calculateBlur pow 0%float = 0%float
  /\ Binary64.calculateBlur pow (-0)%float = 0%float.
Proof. split; reflexivity. Qed.

Lemma blur_hundredths_table :
  allPairs laterIsLarger
    (tabulate (fun k => Nearest.calculateBlur (Binary64.hundredths k))
       Binary64.hundredthSteps) = true.
Proof. vm_cast_no_check (eq_refl true). Qed.

(** The blur at the two doubles that follow 3, as the script computes it:
    the same double. *)
#[warnings="-inexact-float"]
Lemma blur_after_3 :
  Nearest.calculateBlur 3.0000000000000004%float = 4.6877173309424%float
  /\ Nearest.calculateBlur 3.000000000000001%float = 4.6877173309424%float.
Proof. vm_compute. split; reflexivity. Qed.

(** C3, as stated, on the doubles of the script: the blur of 0 is 0 and
    the blur is strictly increasing on positive diopters.  The second part
    fails at [3.0000000000000004 < 3.000000000000001], which get the same
    blur. *)
#[warnings="-inexact-float"]
Lemma calculateBlur_not_strictly_increasing :
  ~ (Nearest.calculateBlur 0%float = 0%float
     /\ forall d1 d2 : float,
          (0 <? d1)%float = true -> (d1 <? d2)%float = true ->
          (Nearest.calculateBlur d1 <? Nearest.calculateBlur d2)%float = true).
Proof.
  intros [_ H].
  specialize (H 3.0000000000000004%float 3.000000000000001%float
                eq_refl eq_refl).
  destruct blur_after_3 as [H1 H2]. rewrite H1, H2 in H.
  discriminate H.
Qed.

(** The blur at 3 and at 3.5, as the script computes it, lies between 4.6
    and 5.59. *)
Lemma blur_at_3_and_3_5 :
  (4.6 <=? Nearest.calculateBlur 3)%float = true
  /\ (Nearest.calculateBlur 3.5 <=? 5.59)%float = true.
Proof. vm_compute. split; reflexivity. Qed.

(** C3: [calculateBlur(0)] is 0 whatever [Math.pow] is; in exact
    arithmetic [calculateBlur] is strictly increasing on positive
    diopters; on doubles it is strictly increasing along the two-decimal
    diopters from 0.00 to 10.00; over all doubles it is not, whatever
    [Math.pow] returns: not from 3 to 3.5 when the blur at 3 and at 3.5
    lies between 4.6 and 5.59. *)
Theorem calculateBlur_increasing_on_steps :
  (forall pow : float -> float -> float,
      Binary64.calculateBlur pow 0%float = 0%float
      /\ Binary64.calculateBlur pow (-0)%float = 0%float)
  /\ (forall d1 d2 : R,
         0 < d1 -> d1 < d2 ->
         calculateBlur 0 = 0 /\ calculateBlur d1 < calculateBlur d2)
  /\ (forall j k : Z,
         (0 <= j)%Z -> (j < k)%Z -> (k <= 1000)%Z ->
         (Nearest.calculateBlur (Binary64.hundredths j)
          <? Nearest.calculateBlur (Binary64.hundredths k))%float = true)
  /\ (forall pow : float -> float -> float,
         (4.6 <=? Binary64.calculateBlur pow 3)%float = true ->
         (Binary64.calculateBlur pow 3.5 <=? 5.59)%float = true ->
         ~ (forall d1 d2 : float,
               (3 <=? d1)%float = true -> (d1 <? d2)%float = true ->
               (d2 <=? 3.5)%float = true ->
               (Binary64.calculateBlur pow d1
                <? Binary64.calculateBlur pow d2)%float = true)).
Proof.
  split; [exact calculateBlur_zeroes | ].
  split; [exact calculateBlur_strictly_increasing_exact | ].
  split; [ | exact no_engine_makes_calculateBlur_strict].
  intros j k Hj Hjk Hk.
  apply (laterIsLarger_tabulate
           (fun k => Nearest.calculateBlur (Binary64.hundredths k))
           Binary64.hundredthSteps blur_hundredths_table j k);
    [apply In_hundredthSteps; lia | apply In_hundredthSteps; lia | exact Hjk].
Qed.

Lemma calculateBlur_increasing_on_steps_witness :
  (calculateBlur 0 = 0 /\ calculateBlur 1 < calculateBlur 2)
  /\ (Nearest.calculateBlur (Binary64.hundredths 25)
      <? Nearest.calculateBlur (Binary64.hundredths 300))%float = true
  /\ ~ (forall d1 d2 : float,
           (3 <=? d1)%float = true -> (d1 <? d2)%float = true ->
           (d2 <=? 3.5)%float = true ->
           (Nearest.calculateBlur d1 <? Nearest.calculateBlur d2)%float
           = true).
Proof.
  destruct calculateBlur_increasing_on_steps as (_ & Hexact & Hsteps & Hnone).
  split; [apply (Hexact 1 2); lra | ].
  split; [apply (Hsteps 25 300)%Z; lia | ].
  apply (Hnone Exponentiate.Math_pow);
    [exact (proj1 blur_at_3_and_3_5) | exact (proj2 blur_at_3_and_3_5)].
Defined.

(** ** Both eyes at the same diopters *)

(** The two weights sum to 1 in doubles too; it is the two products and
    their sum that round. *)
Lemma weights_sum_to_one_binary64 :
  (Binary64.DOMINANT_WEIGHT + (1 - Binary64.DOMINANT_WEIGHT) =? 1)%float = true.
Proof. reflexivity. Qed.

Lemma equal_eyes_weighted (pow : float -> float -> float) (d : float)
    (isDominantLeft : bool) :
  Binary64.calculateBinocularBlur pow d d isDominantLeft
  = Binary64.calculateBlur pow (Binary64.weightedDiopters d d).
Proof. destruct isDominantLeft; reflexivity. Qed.

Lemma calculateBlur_eqb (pow : float -> float -> float) (x y : float) :
  (x =? y)%float = true ->
  Binary64.calculateBlur pow x = Binary64.calculateBlur pow y.
Proof.
  intros H. destruct (eqb_true x y H) as [-> | [Hx Hy]]; [reflexivity | ].
  unfold Binary64.calculateBlur. rewrite Hx, Hy. reflexivity.
Qed.

Lemma equal_eyes_table :
  forallb (fun k => equalEyesClose (Binary64.hundredths k))
    Binary64.hundredthSteps = true.
Proof. vm_cast_no_check (eq_refl true). Qed.

(** With both eyes at 0.9, as the script computes it: the weighted
    diopters are the double after 0.9 and the blur is not that of 0.9. *)
Lemma blur_equal_eyes_0_9 :
  Binary64.weightedDiopters 0.9%float 0.9%float = 0.9000000000000001%float
  /\ Nearest.calculateBinocularBlur 0.9%float 0.9%float true
     = 1.2467942653398303%float
  /\ Nearest.calculateBlur 0.9%float = 1.24679426533983%float.
Proof. vm_compute. repeat split; reflexivity. Qed.

(** C10, as stated, on the doubles of the script: with both eyes at the
    same non-negative [d] the binocular blur is [calculateBlur(d)].  It
    fails at [d = 0.9]. *)
Lemma equal_eyes_blur_differs :
  ~ (forall (d : float) (isDominantLeft : bool),
        (0 <=? d)%float = true ->
        (Nearest.calculateBinocularBlur d d isDominantLeft
         =? Nearest.calculateBlur d)%float = true).
Proof.
  intros H. specialize (H 0.9%float true eq_refl).
  destruct blur_equal_eyes_0_9 as (_ & H1 & H2). rewrite H1, H2 in H.
  discriminate H.
Qed.

(** C10: with both eyes at the same diopters [d], the binocular blur is
    the blur of the weighted diopters [d*0.65 + d*(1 - 0.65)], whichever
    eye is dominant and whatever [Math.pow] is.  The two weights sum to 1,
    so in exact arithmetic that is [calculateBlur(d)]; on doubles it is
    [calculateBlur(d)] whenever the weighted sum comes out as [d], as on
    every quarter diopter up to 10; on the two-decimal diopters up to 10
    the weighted sum is within one double of [d] and the blur within two
    doubles of [calculateBlur(d)]. *)
Theorem equal_eyes_blur_up_to_rounding :
  (forall (pow : float -> float -> float) (d : float) (isDominantLeft : bool),
      Binary64.calculateBinocularBlur pow d d isDominantLeft
      = Binary64.calculateBlur pow (Binary64.weightedDiopters d d))
  /\ (Binary64.DOMINANT_WEIGHT + (1 - Binary64.DOMINANT_WEIGHT) =? 1)%float
     = true
  /\ (forall (pow : float -> float -> float) (d : float)
             (isDominantLeft : bool),
         (Binary64.weightedDiopters d d =? d)%float = true ->
         Binary64.calculateBinocularBlur pow d d isDominantLeft
         = Binary64.calculateBlur pow d)
  /\ (forall (k : Z) (isDominantLeft : bool),
         (0 <= k <= 40)%Z ->
         Nearest.calculateBinocularBlur (Binary64.quarters k)
           (Binary64.quarters k) isDominantLeft
         = Nearest.calculateBlur (Binary64.quarters k))
  /\ (forall (k : Z) (isDominantLeft : bool),
         (0 <= k <= 1000)%Z ->
         withinDoubles 1
           (Binary64.weightedDiopters (Binary64.hundredths k)
              (Binary64.hundredths k))
           (Binary64.hundredths k) = true
         /\ withinDoubles 2
              (Nearest.calculateBinocularBlur (Binary64.hundredths k)
                 (Binary64.hundredths k) isDominantLeft)
              (Nearest.calculateBlur (Binary64.hundredths k)) = true)
  /\ (forall (s : Page) (d : R),
         leftDiopters (vars s) = d -> rightDiopters (vars s) = d ->
         calculateBinocularBlur s = calculateBlur d).
Proof.
  assert (Hsame : forall pow d isDominantLeft,
             (Binary64.weightedDiopters d d =? d)%float = true ->
             Binary64.calculateBinocularBlur pow d d isDominantLeft
             = Binary64.calculateBlur pow d).
  { intros pow d b H. rewrite equal_eyes_weighted.
    apply calculateBlur_eqb, H. }
  split; [exact equal_eyes_weighted | ].
  split; [exact weights_sum_to_one_binary64 | ].
  split; [exact Hsame | ].
  split; [ | split].
  - intros k b Hk. apply Hsame.
    pose proof Binary64Facts.equal_eyes_quarters_binary64 as T.
    rewrite forallb_forall in T. apply T, In_quarterSteps, Hk.
  - intros k b Hk.
    pose proof equal_eyes_table as T. rewrite forallb_forall in T.
    specialize (T k (In_hundredthSteps k Hk)).
    unfold equalEyesClose in T. apply andb_true_iff in T.
    destruct T as [T1 T2]. split; [exact T1 | ].
    destruct b; exact T2.
  - intros s d Hl Hr.
    apply (calculateBinocularBlur_equal_eyes_exact s d Hl Hr).
Qed.

Lemma equal_eyes_blur_up_to_rounding_witness :
  Nearest.calculateBinocularBlur (Binary64.quarters 10) (Binary64.quarters 10)
    false
  = Nearest.calculateBlur (Binary64.quarters 10)
  /\ withinDoubles 2
       (Nearest.calculateBinocularBlur (Binary64.hundredths 90)
          (Binary64.hundredths 90) true)
       (Nearest.calculateBlur (Binary64.hundredths 90)) = true
  /\ calculateBinocularBlur (pageWithEyes 2.5 2.5 false) = calculateBlur 2.5.
Proof.
  destruct equal_eyes_blur_up_to_rounding as (_ & _ & _ & Hq & Hh & Hexact).
  split; [apply (Hq 10%Z false); lia | ].
  split; [apply (Hh 90%Z true); lia | ].
  apply (Hexact (pageWithEyes 2.5 2.5 false) 2.5); reflexivity.
Defined.

(** ** The two sliders on quarter diopters *)

Lemma quarterSettings_table :
  forallb (fun e => betweenEyes e && dominantWeighsMore e && zeroOnlyAtZero e)
    quarterSettings
  && allPairs higherBlursMore quarterSettings = true.
Proof. vm_cast_no_check (eq_refl true). Qed.

Lemma setting_checked (j k : Z) :
  (0 <= j <= 40)%Z -> (0 <= k <= 40)%Z ->
  betweenEyes (setting j k) = true
  /\ dominantWeighsMore (setting j k) = true
  /\ zeroOnlyAtZero (setting j k) = true.
Proof.
  intros Hj Hk. pose proof quarterSettings_table as T.
  apply andb_true_iff in T. destruct T as [T _].
  rewrite forallb_forall in T.
  specialize (T (setting j k)
                (In_quarterSettings j k (In_quarterSteps j Hj)
                   (In_quarterSteps k Hk))).
  apply andb_true_iff in T. destruct T as [T T3].
  apply andb_true_iff in T. destruct T as [T1 T2].
  repeat split; assumption.
Qed.

Lemma settings_ordered (j1 k1 j2 k2 : Z) :
  (0 <= j1 <= 40)%Z -> (0 <= k1 <= 40)%Z ->
  (0 <= j2 <= 40)%Z -> (0 <= k2 <= 40)%Z ->
  higherBlursMore (setting j1 k1) (setting j2 k2) = true.
Proof.
  intros Hj1 Hk1 Hj2 Hk2. pose proof quarterSettings_table as T.
  apply andb_true_iff in T. destruct T as [_ T].
  apply (allPairs_spec _ _ T);
    apply In_quarterSettings; apply In_quarterSteps; assumption.
Qed.

(** X1: on quarter diopters from 0 to 10 the binocular blur lies between
    the blurs of the two eyes, whichever eye is dominant. *)
Theorem quarter_blur_between_eyes (j k : Z) (isDominantLeft : bool) :
  (0 <= j <= 40)%Z -> (0 <= k <= 40)%Z ->
  let blur :=
    Nearest.calculateBinocularBlur (Binary64.quarters j) (Binary64.quarters k)
      isDominantLeft in
  let left := Nearest.calculateBlur (Binary64.quarters j) in
  let right := Nearest.calculateBlur (Binary64.quarters k) in
  (floatMin left right <=? blur)%float = true
  /\ (blur <=? floatMax left right)%float = true.
Proof.
  intros Hj Hk blur left right.
  destruct (setting_checked j k Hj Hk) as (T & _ & _).
  unfold betweenEyes, setting in T.
  cbn [leftBlur rightBlur blurLeftDominant blurRightDominant] in T.
  apply andb_true_iff in T. destruct T as [T T4].
  apply andb_true_iff in T. destruct T as [T T3].
  apply andb_true_iff in T. destruct T as [T1 T2].
  subst blur left right. destruct isDominantLeft; split; assumption.
Qed.

Lemma quarter_blur_between_eyes_witness :
  let blur :=
    Nearest.calculateBinocularBlur (Binary64.quarters 12) (Binary64.quarters 4)
      true in
  let left := Nearest.calculateBlur (Binary64.quarters 12) in
  let right := Nearest.calculateBlur (Binary64.quarters 4) in
  (floatMin left right <=? blur)%float = true
  /\ (blur <=? floatMax left right)%float = true.
Proof. apply (quarter_blur_between_eyes 12 4 true); lia. Defined.

(** X2: on quarter diopters from 0 to 10 and with the same dominant eye, a
    setting with no slider lower and at least one higher gives a strictly
    larger blur. *)
Theorem quarter_blur_monotone (j1 k1 j2 k2 : Z) (isDominantLeft : bool) :
  (0 <= j1 <= j2)%Z -> (j2 <= 40)%Z -> (0 <= k1 <= k2)%Z -> (k2 <= 40)%Z ->
  (j1 < j2 \/ k1 < k2)%Z ->
  (Nearest.calculateBinocularBlur (Binary64.quarters j1) (Binary64.quarters k1)
     isDominantLeft
   <? Nearest.calculateBinocularBlur (Binary64.quarters j2)
        (Binary64.quarters k2) isDominantLeft)%float = true.
Proof.
  intros Hj Hj2 Hk Hk2 Hlt.
  assert (T : higherBlursMore (setting j1 k1) (setting j2 k2) = true)
    by (apply settings_ordered; lia).
  unfold higherBlursMore, setting in T.
  cbn [leftStep rightStep blurLeftDominant blurRightDominant] in T.
  replace (j1 <=? j2)%Z with true in T by (symmetry; apply Z.leb_le; lia).
  replace (k1 <=? k2)%Z with true in T by (symmetry; apply Z.leb_le; lia).
  replace ((j1 <? j2) || (k1 <? k2))%Z with true in T.
  - cbn [andb] in T. apply andb_true_iff in T. destruct T as [T1 T2].
    destruct isDominantLeft; assumption.
  - symmetry. apply orb_true_iff.
    destruct Hlt as [H | H]; [left | right]; apply Z.ltb_lt; exact H.
Qed.

Lemma quarter_blur_monotone_witness :
  (Nearest.calculateBinocularBlur (Binary64.quarters 4) (Binary64.quarters 8)
     true
   <? Nearest.calculateBinocularBlur (Binary64.quarters 12)
        (Binary64.quarters 8) true)%float = true.
Proof. apply (quarter_blur_monotone 4 8 12 8 true); lia. Defined.

(** X3: the dominant eye weighs more: on quarter diopters from 0 to 10,
    when the left eye has the larger diopters the blur is strictly larger
    with the left eye dominant than with the right eye dominant. *)
Theorem quarter_dominant_eye_weighs_more (j k : Z) :
  (0 <= k)%Z -> (k < j)%Z -> (j <= 40)%Z ->
  (Nearest.calculateBinocularBlur (Binary64.quarters j) (Binary64.quarters k)
     false
   <? Nearest.calculateBinocularBlur (Binary64.quarters j) (Binary64.quarters k)
        true)%float = true.
Proof.
  intros Hk Hkj Hj.
  destruct (setting_checked j k) as (_ & T & _); [lia | lia | ].
  unfold dominantWeighsMore, setting in T.
  cbn [leftStep rightStep blurLeftDominant blurRightDominant] in T.
  destruct (Z.ltb_spec k j) as [_ | Hge]; [exact T | lia].
Qed.

Lemma quarter_dominant_eye_weighs_more_witness :
  (Nearest.calculateBinocularBlur (Binary64.quarters 12) (Binary64.quarters 4)
     false
   <? Nearest.calculateBinocularBlur (Binary64.quarters 12) (Binary64.quarters 4)
        true)%float = true.
Proof. apply (quarter_dominant_eye_weighs_more 12 4); lia. Defined.

(** X4: on quarter diopters from 0 to 10 the binocular blur is 0 exactly
    when both sliders are at 0. *)
Theorem quarter_blur_zero_iff (j k : Z) (isDominantLeft : bool) :
  (0 <= j <= 40)%Z -> (0 <= k <= 40)%Z ->
  (Nearest.calculateBinocularBlur (Binary64.quarters j) (Binary64.quarters k)
     isDominantLeft =? 0)%float = true
  <-> (j = 0 /\ k = 0)%Z.
Proof.
  intros Hj Hk.
  destruct (setting_checked j k Hj Hk) as (_ & _ & T).
  unfold zeroOnlyAtZero, setting in T.
  cbn [leftStep rightStep blurLeftDominant blurRightDominant] in T.
  apply andb_true_iff in T. destruct T as [T1 T2].
  apply Bool.eqb_prop in T1. apply Bool.eqb_prop in T2.
  unfold zero in T1, T2.
  assert (Hz : ((j =? 0) && (k =? 0))%Z = true <-> (j = 0 /\ k = 0)%Z).
  { rewrite andb_true_iff, !Z.eqb_eq. reflexivity. }
  rewrite <- Hz.
  destruct isDominantLeft;
    [change (quarterBinocularBlur j k true) with
       (Nearest.calculateBinocularBlur (Binary64.quarters j)
          (Binary64.quarters k) true) in T1; rewrite T1
    | change (quarterBinocularBlur j k false) with
        (Nearest.calculateBinocularBlur (Binary64.quarters j)
           (Binary64.quarters k) false) in T2; rewrite T2];
    reflexivity.
Qed.

Lemma quarter_blur_zero_iff_witness :
  (Nearest.calculateBinocularBlur (Binary64.quarters 0) (Binary64.quarters 0)
     false =? 0)%float = true
  <-> (0 = 0 /\ 0 = 0)%Z.
Proof. apply (quarter_blur_zero_iff 0 0 false); lia. Defined.

(** ** Blur per diopter *)

Lemma blurPerDiopter_table :
  allPairs laterIsLarger
    (tabulate (fun k => blurPerDiopter (Binary64.hundredths k))
       positiveHundredthSteps) = true.
Proof. vm_cast_no_check (eq_refl true). Qed.

(** X5: the blur grows faster than the diopters: along the two-decimal
    diopters from 0.01 to 10.00 the blur per diopter,
    [calculateBlur(d) / d], is strictly increasing. *)
Theorem blur_per_diopter_increasing (j k : Z) :
  (1 <= j)%Z -> (j < k)%Z -> (k <= 1000)%Z ->
  (Nearest.calculateBlur (Binary64.hundredths j) / Binary64.hundredths j
   <? Nearest.calculateBlur (Binary64.hundredths k) / Binary64.hundredths k)%float
  = true.
Proof.
  intros Hj Hjk Hk.
  apply (laterIsLarger_tabulate
           (fun k => blurPerDiopter (Binary64.hundredths k))
           positiveHundredthSteps blurPerDiopter_table j k);
    [apply In_positiveHundredthSteps; lia
    | apply In_positiveHundredthSteps; lia | exact Hjk].
Qed.

Lemma blur_per_diopter_increasing_witness :
  (Nearest.calculateBlur (Binary64.hundredths 100) / Binary64.hundredths 100
   <? Nearest.calculateBlur (Binary64.hundredths 200) / Binary64.hundredths 200)%float
  = true.
Proof. apply (blur_per_diopter_increasing 100 200); lia. Defined.

End Doubles.
